(** * Video-Audio-RAG: the ingestion pipeline and the chat engine

    A shallow embedding of the orchestration code of the repository
    (Src/audio_extractor.py, Src/transcriber.py, Src/database.py,
    Src/vector_store.py, Src/video_pipeline.py, Src/rag_chat.py).

    Conventions of the embedding:
    - Python floats are modelled by exact rationals ([Q]); equalities between
      times are stated with [==].  Integers are [Z].
    - A Python exception is a value of [exn]; code that may raise returns
      [result A]; code that also changes a store threads the store explicitly.
    - Python tuples whose arity matters are lists of dynamically typed values
      ([pyval]), so that tuple unpacking can fail the way it does in Python.
    - The third-party services (speech-to-text, audio decoding, embeddings,
      the language model, faults of the two stores) are the fields of one
      record, [Services], over which every definition is parameterised. *)

From Stdlib Require Import ZArith QArith Qround Qminmax List Sorted Permutation FinFun String Ascii Bool Lia.
From Stdlib Require Import Decimal DecimalString DecimalZ DecimalN DecimalPos DecimalNat.
Import ListNotations.

Open Scope string_scope.
Open Scope Z_scope.

(* ------------------------------------------------------------------ *)
(** ** Exceptions and results *)

Inductive exn_class :=
| ValueError | TypeError | KeyError | IndexError | UnboundLocalError
| ZeroDivisionError | FileNotFoundError | IntegrityError
| ServiceError.

Record exn := Exn { exn_cls : exn_class; exn_msg : string }.

(** [str(e)] *)
Definition str_exn (e : exn) : string := exn_msg e.

Inductive result (A : Type) :=
| Ok (a : A)
| Raise (e : exn).
Arguments Ok {A} a.
Arguments Raise {A} e.

Definition bind {A B} (r : result A) (k : A -> result B) : result B :=
  match r with
  | Ok a => k a
  | Raise e => Raise e
  end.

Notation "x <- c ;; k" := (bind c (fun x => k))
  (at level 61, c at next level, right associativity).
Notation "' pat <- c ;; k" := (bind c (fun x => match x with pat => k end))
  (at level 61, pat pattern, c at next level, right associativity).

Definition is_ok {A} (r : result A) : bool :=
  match r with Ok _ => true | Raise _ => false end.

(* ------------------------------------------------------------------ *)
(** ** Python values that cross the audio/transcription boundary *)

(** A [pathlib.Path], kept as its directory, stem and suffix. *)
Record Path := mkPath { parent : string; stem : string; suffix : string }.

(** [path.name] *)
Definition name (p : Path) : string := stem p ++ suffix p.

(** [str(path)] *)
Definition str_path (p : Path) : string := parent p ++ "/" ++ name p.

(** [dir / f"{stem}{suffix}"] *)
Definition joinpath (dir : Path) (st sf : string) : Path :=
  mkPath (str_path dir) st sf.

Inductive pyval :=
| VPath (p : Path)
| VFloat (q : Q).

(** A Python tuple: its arity is only known at run time. *)
Definition pytuple := list pyval.

(* ------------------------------------------------------------------ *)
(** ** Integer formatting *)

(** [str(n)] for an integer. *)
Definition str_int (n : Z) : string := NilZero.string_of_int (Z.to_int n).

(** [f"{n:02d}"]: decimal, padded with zeros on the left to width 2. *)
Definition format_02d (n : Z) : string :=
  let s := str_int n in
  if (String.length s <? 2)%nat then "0" ++ s else s.



(* ------------------------------------------------------------------ *)
(** ** Python arithmetic on floats, over exact rationals *)

(** [a // b] on floats: the floor of the quotient, still a float. *)
Definition py_floordiv (a b : Q) : Q := inject_Z (Qfloor (a / b)).

(** [a % b] on floats, for a positive divisor. *)
Definition py_mod (a b : Q) : Q := a - b * inject_Z (Qfloor (a / b)).

(** [int(x)]: truncation toward zero. *)
Definition py_int (x : Q) : Z :=
  if Qle_bool 0 x then Qfloor x else Qceiling x.

(* ------------------------------------------------------------------ *)
(** ** Small helpers for Python lists and strings *)

(** [l[-1]] *)
Definition py_last {A} (l : list A) : result A :=
  match List.rev l with
  | x :: _ => Ok x
  | [] => Raise (Exn IndexError "list index out of range")
  end.

(** [t[i]] on a tuple *)
Definition tuple_index (t : pytuple) (i : nat) : result pyval :=
  match nth_error t i with
  | Some v => Ok v
  | None => Raise (Exn IndexError "tuple index out of range")
  end.

(** [range(n)] *)
Definition range (n : Z) : list Z := map Z.of_nat (seq 0 (Z.to_nat n)).

(** Characters removed by [str.strip()]. *)
Definition is_space (c : ascii) : bool :=
  let n := nat_of_ascii c in
  ((9 <=? n) && (n <=? 13) || (28 <=? n) && (n <=? 32))%nat.

(** [not text.strip()]: the text is empty or made of whitespace only. *)
Fixpoint is_blank (s : string) : bool :=
  match s with
  | EmptyString => true
  | String c s' => is_space c && is_blank s'
  end.

Definition nl : string := String "010"%char EmptyString.
Definition dquote : string := String "034"%char EmptyString.

(* ------------------------------------------------------------------ *)
(** ** Records of the two stores and of the chat engine *)

(** One row of table [video_metadata] (database.py, class VideoMetaData).
    The time stamps, which come from the system clock, are left out. *)
Record VideoMetaData := {
  v_id : Z;
  v_video_name : string;
  v_original_path : string;
  v_total_chunks : Z;
  v_total_duration : Q;
  v_status : string
}.

(** One row of table [transcript_chunks] (class TranscriptChunk). *)
Record TranscriptChunk := {
  c_id : Z;
  c_video_name : string;
  c_chunk_index : Z;
  c_start_time : Q;
  c_end_time : Q;
  c_start_formatted : string;
  c_end_formatted : string;
  c_text : string;
  c_char_count : Z;
  c_vector_id : option string
}.

(** The dictionary built by [Transcriber.transcribe_chunk]; the keys
    ['chunk_index'] and ['audio_name'] are only set by
    [transcribe_all_chunks], hence optional. *)
Record Transcript := {
  tr_text : string;
  tr_start_time : Q;
  tr_end_time : Q;
  tr_duration : Q;
  tr_start_formatted : string;
  tr_end_formatted : string;
  tr_chunk_index : option Z;
  tr_audio_name : option string
}.

(** Values of the flat metadata map of a vector entry. *)
Inductive mdval :=
| MStr (s : string)
| MInt (z : Z)
| MFloat (q : Q).

Definition metadata := list (string * mdval).

(** [md[key]] as an option; [md.get(key, default)] *)
Fixpoint md_lookup (md : metadata) (key : string) : option mdval :=
  match md with
  | [] => None
  | (k, v) :: rest => if String.eqb k key then Some v else md_lookup rest key
  end.

Definition md_get (md : metadata) (key : string) (default : mdval) : mdval :=
  match md_lookup md key with
  | Some v => v
  | None => default
  end.

(** A langchain [Document]. *)
Record Document := { page_content : string; doc_metadata : metadata }.

(** An entry of the Chroma collection. *)
Record Entry := { e_id : string; e_doc : Document }.

Inductive message :=
| HumanMessage (content : string)
| AIMessage (content : string).

(** What the prompt template hands to the language model. *)
Record Prompt := {
  p_system : string;
  p_chat_history : list message;
  p_human : string
}.

(* ------------------------------------------------------------------ *)
(** ** Configuration and third-party services *)

Record Config := {
  CHUNK_LENGTH_SECONDS : Z;
  TOP_K_RESULTS : Z;
  VIDEOS_FINISHED_PATH : Path;
  (** [tempfile.gettempdir()] *)
  gettempdir : Path
}.

(** The statements sent to the relational store and to Chroma; a fault of
    the store is a function of the statement. *)
Inductive db_op :=
| QueryVideo (video_name : string)
| QueryChunks (video_name : string)
| InsertVideo (video_name : string)
| InsertChunk (video_name : string) (chunk_index : Z)
| UpdateChunk (chunk_id : Z)
| DeleteVideo (video_name : string).

Inductive vs_op :=
| VsGet
| VsGetWhere (video_name : string)
| VsAddTexts (texts : list string)
| VsDelete (ids : list string)
| VsSearch (query : string).

Record Services := {
  (** moviepy: decode the video and write its audio track *)
  write_audiofile : Path -> Path -> option exn;
  (** pydub: [AudioSegment.from_file], observed through [len(audio)] (ms) *)
  from_file : Path -> result Z;
  (** pydub: [chunk.export(path, format="wav")] *)
  export : Path -> option exn;
  (** OpenAI whisper: [audio.transcriptions.create] on the opened file *)
  transcriptions_create : Path -> result string;
  (** [str(x)] for a float *)
  float_repr : Q -> string;
  (** sqlite / SQLAlchemy faults *)
  db_fault : db_op -> option exn;
  (** Chroma / embedding faults *)
  vs_fault : vs_op -> option exn;
  (** identifiers handed out by Chroma, by sequence number *)
  uuid : nat -> string;
  (** [RecursiveCharacterTextSplitter.split_text] *)
  split_text : string -> list string;
  (** embedding distance between a query and a stored text *)
  distance : string -> string -> Q;
  (** the chat model followed by [StrOutputParser] *)
  llm_invoke : Prompt -> result string
}.

(* ------------------------------------------------------------------ *)
(** ** Src/audio_extractor.py *)

Module AudioExtractor.
Section AudioExtractor.
Variable config : Config.
Variable svc : Services.

(** [self.temp_dir = Path(tempfile.gettempdir()) / "video_to_audio"] *)
Definition temp_dir : Path := joinpath (gettempdir config) "video_to_audio" "".

(** [extract_audio] (lines 21-50).  The scratch directory is the list of
    files it holds. *)
Definition extract_audio (scratch : list Path) (video_path : Path)
  : list Path * result Path :=
  let audio_path := joinpath temp_dir (stem video_path) ".wav" in
  match write_audiofile svc video_path audio_path with
  | None => (audio_path :: scratch, Ok audio_path)
  | Some e => (scratch, Raise e)
  end.

(** The body of the [for i in range(num_chunks)] loop (lines 74-85). *)
Fixpoint split_loop (audio_path : Path) (len_audio chunk_length : Z)
    (indices : list Z) (scratch : list Path) (chunks : list pytuple)
  : list Path * result (list pytuple) :=
  match indices with
  | [] => (scratch, Ok chunks)
  | i :: rest =>
      let start_ms := i * chunk_length * 1000 in
      let end_ms := Z.min len_audio ((i + 1) * chunk_length * 1000) in
      let chunk_path :=
        joinpath temp_dir (stem audio_path ++ "_" ++ str_int i) ".wav" in
      let start_time := (inject_Z start_ms / 1000)%Q in
      let end_time := (inject_Z end_ms / 1000)%Q in
      let chunks := (chunks ++ [[VPath chunk_path; VFloat start_time; VFloat end_time]])%list in
      match export svc chunk_path with
      | Some e => (scratch, Raise e)
      | None =>
          split_loop audio_path len_audio chunk_length rest
            (chunk_path :: scratch) chunks
      end
  end.

(** The [try] block of [split_audio] (lines 66-89). *)
Definition split_audio_try (scratch : list Path) (audio_path : Path)
  : list Path * result (list pytuple) :=
  match from_file svc audio_path with
  | Raise e => (scratch, Raise e)
  | Ok len_audio =>
      let duration_in_seconds := (inject_Z len_audio / 1000)%Q in
      let chunk_length := CHUNK_LENGTH_SECONDS config in
      if chunk_length =? 0 then
        (scratch, Raise (Exn ZeroDivisionError "float division by zero"))
      else
        let num_chunks :=
          Qceiling (duration_in_seconds / inject_Z chunk_length) in
        split_loop audio_path len_audio chunk_length (range num_chunks)
          scratch []
  end.

(** [split_audio] (lines 53-92): the [except] clause only logs, so the
    function falls off its end and returns [None]. *)
Definition split_audio (scratch : list Path) (audio_path : Path)
  : list Path * option (list pytuple) :=
  match split_audio_try scratch audio_path with
  | (scratch', Ok chunks) => (scratch', Some chunks)
  | (scratch', Raise _) => (scratch', None)
  end.

(** [cleanup] (lines 94-108); errors are swallowed. *)
Definition cleanup (scratch : list Path) (file_path : option Path) : list Path :=
  match file_path with
  | Some p => filter (fun f => negb (String.eqb (str_path f) (str_path p))) scratch
  | None => []
  end.

End AudioExtractor.
End AudioExtractor.

(* ------------------------------------------------------------------ *)
(** ** Src/transcriber.py *)

Module Transcriber.
Section Transcriber.
Variable svc : Services.

(** [format_time] (lines 63-78) *)
Definition hours (time : Q) : Z := py_int (py_floordiv time 3600).
Definition minutes (time : Q) : Z := py_int (py_floordiv (py_mod time 3600) 60).
Definition secs (time : Q) : Z := py_int (py_mod time 60).

Definition format_time (time : Q) : string :=
  format_02d (hours time) ++ ":" ++ format_02d (minutes time) ++ ":"
  ++ format_02d (secs time).


(** Dynamic checks made by [open(audio_path, 'rb')] and by float
    arithmetic on the tuple components. *)
Definition as_path (v : pyval) : result Path :=
  match v with
  | VPath p => Ok p
  | VFloat _ => Raise (Exn TypeError "expected str, bytes or os.PathLike object, not float")
  end.

Definition as_float (v : pyval) : result Q :=
  match v with
  | VFloat q => Ok q
  | VPath _ => Raise (Exn TypeError "unsupported operand type(s) for -")
  end.

(** [str(v)] *)
Definition py_str (v : pyval) : string :=
  match v with
  | VPath p => str_path p
  | VFloat q => float_repr svc q
  end.

(** [transcribe_chunk] (lines 13-45): every failure is logged and
    re-raised. *)
Definition transcribe_chunk (audio_path start_time end_time : pyval)
  : result Transcript :=
  audio_file <- as_path audio_path ;;
  transcript <- transcriptions_create svc audio_file ;;
  e <- as_float end_time ;;
  s <- as_float start_time ;;
  Ok {| tr_text := transcript;
        tr_start_time := s;
        tr_end_time := e;
        tr_duration := (e - s)%Q;
        tr_start_formatted := format_time s;
        tr_end_formatted := format_time e;
        tr_chunk_index := None;
        tr_audio_name := None |}.

(** The target [(audio_path, start_time, end_time, audio_name)] of the
    [for] statement: unpacking into four names. *)
Definition unpack4 (t : pytuple) : result (pyval * pyval * pyval * pyval) :=
  match t with
  | [a; b; c; d] => Ok (a, b, c, d)
  | _ =>
      if (List.length t <? 4)%nat then
        Raise (Exn ValueError
                 ("not enough values to unpack (expected 4, got "
                  ++ str_int (Z.of_nat (List.length t)) ++ ")"))
      else Raise (Exn ValueError "too many values to unpack (expected 4)")
  end.

(** [result['chunk_index'] = i; result['audio_name'] = str(audio_name)] *)
Definition stamp (result : Transcript) (i : Z) (audio_name : string) : Transcript :=
  {| tr_text := tr_text result;
     tr_start_time := tr_start_time result;
     tr_end_time := tr_end_time result;
     tr_duration := tr_duration result;
     tr_start_formatted := tr_start_formatted result;
     tr_end_formatted := tr_end_formatted result;
     tr_chunk_index := Some i;
     tr_audio_name := Some audio_name |}.

(** The loop of [transcribe_all_chunks] from index [i] on. *)
Fixpoint transcribe_loop (i : Z) (chunks : list pytuple)
    (transcribtions : list Transcript) : result (list Transcript) :=
  match chunks with
  | [] => Ok transcribtions
  | chunk :: rest =>
      '(audio_path, start_time, end_time, audio_name) <- unpack4 chunk ;;
      result <- transcribe_chunk audio_path start_time end_time ;;
      transcribe_loop (i + 1) rest
        (transcribtions ++ [stamp result i (py_str audio_name)])%list
  end.

(** [transcribe_all_chunks] (lines 47-61) *)
Definition transcribe_all_chunks (chunks : list pytuple)
  : result (list Transcript) :=
  transcribe_loop 0 chunks [].

End Transcriber.
End Transcriber.

(* ------------------------------------------------------------------ *)
(** ** Stateful code that may raise: a state-and-error monad *)

Definition M (S A : Type) : Type := S -> S * result A.

Definition ret {S A} (a : A) : M S A := fun s => (s, Ok a).

Definition raise {S A} (e : exn) : M S A := fun s => (s, Raise e).

Definition mbind {S A B} (m : M S A) (k : A -> M S B) : M S B :=
  fun s =>
    match m s with
    | (s', Ok a) => k a s'
    | (s', Raise e) => (s', Raise e)
    end.

Notation "x <~ c ;; k" := (mbind c (fun x => k))
  (at level 61, c at next level, right associativity).

(** Read the state. *)
Definition gets {S A} (f : S -> A) : M S A := fun s => (s, Ok (f s)).

(** Change the state. *)
Definition modify {S} (f : S -> S) : M S unit := fun s => (f s, Ok tt).

(** A pure computation that may raise. *)
Definition lift {S A} (r : result A) : M S A := fun s => (s, r).

(** A computation that reads the state and may raise. *)
Definition reads {S A} (f : S -> result A) : M S A := fun s => (s, f s).

(** Run a computation on one component of the state. *)
Definition zoom {S T A} (get : T -> S) (set : S -> T -> T) (m : M S A) : M T A :=
  fun t => let (s', r) := m (get t) in (set s' t, r).

(** [for x in xs: body(x)] *)
Fixpoint for_each {S A} (xs : list A) (body : A -> M S unit) : M S unit :=
  match xs with
  | [] => ret tt
  | x :: rest => _ <~ body x ;; for_each rest body
  end.

(* ------------------------------------------------------------------ *)
(** ** Src/database.py *)

Module Database.

(** The tables seen through the long-lived session, with the counters of
    the auto-assigned primary keys. *)
Record db := {
  videos : list VideoMetaData;
  chunks : list TranscriptChunk;
  next_video_id : Z;
  next_chunk_id : Z
}.

Section Database.
Variable svc : Services.

(** A statement runs unless the store faults on it. *)
Definition execute (op : db_op) : result unit :=
  match db_fault svc op with
  | Some e => Raise e
  | None => Ok tt
  end.

(** A [Float] column rejects a value that is not a number. *)
Definition column_float (v : pyval) : result Q :=
  match v with
  | VFloat q => Ok q
  | VPath _ => Raise (Exn TypeError "float() argument must be a string or a real number")
  end.

(** [get_video_by_name] (lines 168-170) *)
Definition get_video_by_name (self : db) (video_name : string)
  : result (option VideoMetaData) :=
  _ <- execute (QueryVideo video_name) ;;
  Ok (find (fun v => String.eqb (v_video_name v) video_name) (videos self)).

(** [video_exists] (lines 173-177) *)
Definition video_exists (self : db) (video_name : string) : result bool :=
  v <- get_video_by_name self video_name ;;
  Ok (match v with Some _ => true | None => false end).

(** [add_video] (lines 84-111): on any failure the session is rolled back
    and the exception re-raised; [video_name] is unique. *)
Definition add_video (video_name original_path : string)
    (total_duration : pyval) (total_chunks : Z) : M db Z :=
  fun self =>
    let committed :=
      _ <- execute (InsertVideo video_name) ;;
      d <- column_float total_duration ;;
      if existsb (fun v => String.eqb (v_video_name v) video_name) (videos self)
      then Raise (Exn IntegrityError "UNIQUE constraint failed: video_metadata.video_name")
      else Ok {| v_id := next_video_id self;
                 v_video_name := video_name;
                 v_original_path := original_path;
                 v_total_chunks := total_chunks;
                 v_total_duration := d;
                 v_status := "completed" |} in
    match committed with
    | Ok video =>
        ({| videos := (videos self ++ [video])%list;
            chunks := chunks self;
            next_video_id := next_video_id self + 1;
            next_chunk_id := next_chunk_id self |}, Ok (v_id video))
    | Raise e => (self, Raise e)
    end.

(** [add_transcript_chunk] (lines 113-148): an unconditional insert. *)
Definition add_transcript_chunk (video_name : string) (chunk_data : Transcript)
    (vector_id : option string) : M db Z :=
  fun self =>
    let chunk :=
      {| c_id := next_chunk_id self;
         c_video_name := video_name;
         c_chunk_index :=
           match tr_chunk_index chunk_data with Some i => i | None => 0 end;
         c_start_time := tr_start_time chunk_data;
         c_end_time := tr_end_time chunk_data;
         c_start_formatted := tr_start_formatted chunk_data;
         c_end_formatted := tr_end_formatted chunk_data;
         c_text := tr_text chunk_data;
         c_char_count := Z.of_nat (String.length (tr_text chunk_data));
         c_vector_id := vector_id |} in
    match execute (InsertChunk video_name (c_chunk_index chunk)) with
    | Ok _ =>
        ({| videos := videos self;
            chunks := (chunks self ++ [chunk])%list;
            next_video_id := next_video_id self;
            next_chunk_id := next_chunk_id self + 1 |}, Ok (c_id chunk))
    | Raise e => (self, Raise e)
    end.

Definition set_vector_id (vector_id : string) (c : TranscriptChunk) : TranscriptChunk :=
  {| c_id := c_id c;
     c_video_name := c_video_name c;
     c_chunk_index := c_chunk_index c;
     c_start_time := c_start_time c;
     c_end_time := c_end_time c;
     c_start_formatted := c_start_formatted c;
     c_end_formatted := c_end_formatted c;
     c_text := c_text c;
     c_char_count := c_char_count c;
     c_vector_id := Some vector_id |}.

(** Update the first row with the given id. *)
Fixpoint update_first (chunk_id : Z) (vector_id : string)
    (rows : list TranscriptChunk) : list TranscriptChunk :=
  match rows with
  | [] => []
  | c :: rest =>
      if c_id c =? chunk_id then set_vector_id vector_id c :: rest
      else c :: update_first chunk_id vector_id rest
  end.

(** [update_chunk_vector_id] (lines 150-166): failures are only logged. *)
Definition update_chunk_vector_id (self : db) (chunk_id : Z) (vector_id : string) : db :=
  match execute (UpdateChunk chunk_id) with
  | Ok _ =>
      {| videos := videos self;
         chunks := update_first chunk_id vector_id (chunks self);
         next_video_id := next_video_id self;
         next_chunk_id := next_chunk_id self |}
  | Raise _ => self
  end.

(** [ORDER BY chunk_index] *)
Fixpoint insert_by_index (c : TranscriptChunk) (rows : list TranscriptChunk)
  : list TranscriptChunk :=
  match rows with
  | [] => [c]
  | d :: rest =>
      if c_chunk_index c <=? c_chunk_index d then c :: rows
      else d :: insert_by_index c rest
  end.

Definition order_by_chunk_index (rows : list TranscriptChunk) : list TranscriptChunk :=
  fold_right insert_by_index [] rows.

(** The rows of one video, in insertion order. *)
Definition chunks_of (self : db) (video_name : string) : list TranscriptChunk :=
  filter (fun c => String.eqb (c_video_name c) video_name) (chunks self).

(** [get_chunks_by_video] (lines 179-185) *)
Definition get_chunks_by_video (self : db) (video_name : string)
  : result (list TranscriptChunk) :=
  _ <- execute (QueryChunks video_name) ;;
  Ok (order_by_chunk_index (chunks_of self video_name)).

(** [delete_video] (lines 197-218): a failure is reported as [False]. *)
Definition delete_video (video_name : string) : M db bool :=
  fun self =>
    match execute (DeleteVideo video_name) with
    | Ok _ =>
        ({| videos := filter (fun v => negb (String.eqb (v_video_name v) video_name))
                             (videos self);
            chunks := filter (fun c => negb (String.eqb (c_video_name c) video_name))
                             (chunks self);
            next_video_id := next_video_id self;
            next_chunk_id := next_chunk_id self |}, Ok true)
    | Raise _ => (self, Ok false)
    end.

End Database.
(** Read-only statements that the operations above do not use; the store
    may fault on them too. *)
Inductive db_read :=
| ReadChunkById (chunk_id : Z)
| ReadStatistics.

(** The dictionary returned by [get_video_statistics]. *)
Record Statistics := {
  total_videos : Z;
  total_chunks : Z;
  total_duration_seconds : Q;
  total_duration_hours : Q
}.

Section Reads.
Variable read_fault : db_read -> option exn.

(** [get_chunk_by_id] (lines 192-194) *)
Definition get_chunk_by_id (self : db) (chunk_id : Z)
  : result (option TranscriptChunk) :=
  match read_fault (ReadChunkById chunk_id) with
  | Some e => Raise e
  | None => Ok (find (fun c => c_id c =? chunk_id) (chunks self))
  end.

(** [func.sum(VideoMetaData.total_duration)] followed by [or 0]: the sum
    of no row is [None], replaced by 0. *)
Definition sum_durations (rows : list VideoMetaData) : Q :=
  fold_right (fun v acc => (v_total_duration v + acc)%Q) 0%Q rows.

(** [get_video_statistics] (lines 221-239) *)
Definition get_video_statistics (self : db) : result Statistics :=
  match read_fault ReadStatistics with
  | Some e => Raise e
  | None =>
      let total_duration := sum_durations (videos self) in
      Ok {| total_videos := Z.of_nat (List.length (videos self));
            total_chunks := Z.of_nat (List.length (chunks self));
            total_duration_seconds := total_duration;
            total_duration_hours := (total_duration / 3600)%Q |}
  end.

End Reads.

End Database.

(* ------------------------------------------------------------------ *)
(** ** Src/vector_store.py *)

Module VectorStore.

(** The Chroma collection and the number of identifiers handed out. *)
Record vs := {
  entries : list Entry;
  next_uuid : nat
}.

Definition mdval_eqb (a b : mdval) : bool :=
  match a, b with
  | MStr s, MStr t => String.eqb s t
  | MInt x, MInt y => x =? y
  | MFloat p, MFloat q => Qeq_bool p q
  | _, _ => false
  end.

(** A [where] / [filter] clause [{key: value}]: exact match on one key. *)
Definition matches (where_ : string * mdval) (e : Entry) : bool :=
  match md_lookup (doc_metadata (e_doc e)) (fst where_) with
  | Some v => mdval_eqb v (snd where_)
  | None => false
  end.

Definition matches_opt (where_ : option (string * mdval)) (e : Entry) : bool :=
  match where_ with
  | Some w => matches w e
  | None => true
  end.

(** Insert a scored document, nearest first (ties keep insertion order). *)
Fixpoint insert_by_score (x : Document * Q) (l : list (Document * Q))
  : list (Document * Q) :=
  match l with
  | [] => [x]
  | y :: rest =>
      if Qle_bool (snd x) (snd y) then x :: l else y :: insert_by_score x rest
  end.

(** Insert a name into a sorted list without duplicates. *)
Fixpoint add_sorted (x : string) (l : list string) : list string :=
  match l with
  | [] => [x]
  | y :: rest =>
      match String.compare x y with
      | Eq => l
      | Lt => x :: l
      | Gt => y :: add_sorted x rest
      end
  end.

Section VectorStore.
Variable config : Config.
Variable svc : Services.

Definition execute (op : vs_op) : result unit :=
  match vs_fault svc op with
  | Some e => Raise e
  | None => Ok tt
  end.

(** Chroma: [vectorstore.get(where=...)] *)
Definition chroma_get (self : vs) (where_ : option string) : result (list Entry) :=
  match where_ with
  | Some video_name =>
      _ <- execute (VsGetWhere video_name) ;;
      Ok (filter (matches ("video_name", MStr video_name)) (entries self))
  | None =>
      _ <- execute VsGet ;;
      Ok (entries self)
  end.

(** Chroma: [vectorstore.add_texts(texts, metadatas)] *)
Fixpoint new_entries (n : nat) (docs : list Document) : list Entry :=
  match docs with
  | [] => []
  | d :: rest => {| e_id := uuid svc n; e_doc := d |} :: new_entries (S n) rest
  end.

Definition chroma_add_texts (texts : list string) (metadatas : list metadata)
  : M vs (list string) :=
  fun self =>
    match execute (VsAddTexts texts) with
    | Raise e => (self, Raise e)
    | Ok _ =>
        let docs := map (fun tm => {| page_content := fst tm; doc_metadata := snd tm |})
                        (combine texts metadatas) in
        let added := new_entries (next_uuid self) docs in
        ({| entries := (entries self ++ added)%list;
            next_uuid := (next_uuid self + List.length added)%nat |},
         Ok (map e_id added))
    end.

(** Chroma: [vectorstore.delete(ids=...)] *)
Definition chroma_delete (ids : list string) : M vs unit :=
  fun self =>
    match execute (VsDelete ids) with
    | Raise e => (self, Raise e)
    | Ok _ =>
        ({| entries := filter (fun e => negb (existsb (String.eqb (e_id e)) ids))
                              (entries self);
            next_uuid := next_uuid self |}, Ok tt)
    end.

(** Chroma: [similarity_search_with_score(query, k, filter)]: the [k]
    nearest entries among those that satisfy the filter. *)
Definition similarity_search_with_score (self : vs) (query : string) (k : Z)
    (filter_ : option (string * mdval)) : result (list (Document * Q)) :=
  _ <- execute (VsSearch query) ;;
  let candidates := filter (matches_opt filter_) (entries self) in
  let scored :=
    map (fun e => (e_doc e, distance svc query (page_content (e_doc e))))
        candidates in
  Ok (firstn (Z.to_nat k) (fold_right insert_by_score [] scored)).

(** The inner loop of [add_transcripts]: the sub-chunks of transcript [i]. *)
Fixpoint sub_chunk_rows (video_name : string) (i : Z) (transcript : Transcript)
    (j : Z) (sub_chunks : list string) : list (string * metadata) :=
  match sub_chunks with
  | [] => []
  | sub_chunk :: rest =>
      (sub_chunk,
       [("video_name", MStr video_name);
        ("chunk_index", MInt i);
        ("sub_chunk_index", MInt j);
        ("start_time", MFloat (tr_start_time transcript));
        ("end_time", MFloat (tr_end_time transcript));
        ("start_formatted", MStr (tr_start_formatted transcript));
        ("end_formatted", MStr (tr_end_formatted transcript))])
      :: sub_chunk_rows video_name i transcript (j + 1) rest
  end.

(** The outer loop of [add_transcripts] (lines 61-82). *)
Fixpoint transcript_rows (video_name : string) (i : Z)
    (transcripts : list Transcript) : list (string * metadata) :=
  match transcripts with
  | [] => []
  | transcript :: rest =>
      let text := tr_text transcript in
      if is_blank text then transcript_rows video_name (i + 1) rest
      else
        (sub_chunk_rows video_name i transcript 0 (split_text svc text)
         ++ transcript_rows video_name (i + 1) rest)%list
  end.

(** [add_transcripts] (lines 43-99) *)
Definition add_transcripts (transcripts : list Transcript) (video_name : string)
  : M vs (list string) :=
  let rows := transcript_rows video_name 0 transcripts in
  let all_texts := map fst rows in
  let all_metadatas := map snd rows in
  match all_texts with
  | [] => ret []
  | _ => chroma_add_texts all_texts all_metadatas
  end.

(** [similarity_search] (lines 103-144): a failure is logged and the
    function returns [None]. *)
Definition similarity_search (self : vs) (query : string) (k : option Z)
    (video_name : option string) : option (list (Document * Q)) :=
  let k :=
    match k with
    | Some k' => if k' =? 0 then TOP_K_RESULTS config else k'
    | None => TOP_K_RESULTS config
    end in
  let filter_dict :=
    match video_name with
    | Some n => if String.eqb n "" then None else Some ("video_name", MStr n)
    | None => None
    end in
  match similarity_search_with_score self query k filter_dict with
  | Ok results => Some results
  | Raise _ => None
  end.

(** The object returned by [vectorstore.as_retriever(search_kwargs=...)]. *)
Record Retriever := {
  r_k : Z;
  r_filter : option (string * mdval)
}.

(** [get_retriever] (lines 147-158), called without arguments. *)
Definition get_retriever : Retriever :=
  {| r_k := TOP_K_RESULTS config; r_filter := None |}.

(** [retriever.invoke(query)]: the documents without their scores. *)
Definition retriever_invoke (self : vs) (r : Retriever) (query : string)
  : result (list Document) :=
  results <- similarity_search_with_score self query (r_k r) (r_filter r) ;;
  Ok (map fst results).

(** [delete_by_video_name] (lines 161-186) *)
Definition delete_by_video_name (video_name : string) : M vs bool :=
  fun self =>
    match chroma_get self (Some video_name) with
    | Raise _ => (self, Ok false)
    | Ok results =>
        match map e_id results with
        | [] => (self, Ok false)
        | ids =>
            match chroma_delete ids self with
            | (self', Ok _) => (self', Ok true)
            | (self', Raise _) => (self', Ok false)
            end
        end
    end.

(** The loop of [get_all_video_names] (lines 197-199).  [metadata['video_name']]
    raises [KeyError] when the key is missing; an empty name is skipped.
    The repository only ever writes strings under this key; a non-string
    value that is truthy would make [sorted] compare unlike types. *)
Fixpoint collect_names (metadatas : list metadata) (video_names : list string)
  : result (list string) :=
  match metadatas with
  | [] => Ok video_names
  | md :: rest =>
      match md_lookup md "video_name" with
      | None => Raise (Exn KeyError "'video_name'")
      | Some (MStr s) =>
          if String.eqb s "" then collect_names rest video_names
          else collect_names rest (add_sorted s video_names)
      | Some (MInt z) =>
          if z =? 0 then collect_names rest video_names
          else Raise (Exn TypeError "'<' not supported between instances")
      | Some (MFloat q) =>
          if Qeq_bool q 0 then collect_names rest video_names
          else Raise (Exn TypeError "'<' not supported between instances")
      end
  end.

(** [get_all_video_names] (lines 189-206): any failure yields [[]]. *)
Definition get_all_video_names (self : vs) : list string :=
  match (results <- chroma_get self None ;;
         collect_names (map (fun e => doc_metadata (e_doc e)) results) []) with
  | Ok names => names
  | Raise _ => []
  end.

End VectorStore.
(** The dictionary returned by [get_collection_stats]. *)
Record CollectionStats := {
  total_chunks : Z;
  unique_videos : Z;
  video_names : list string
}.

Section Stats.
Variable svc : Services.

(** [get_collection_stats] (lines 209-230): any failure yields zeros. *)
Definition get_collection_stats (self : vs) : CollectionStats :=
  match chroma_get svc self None with
  | Ok results =>
      let total_chunks := Z.of_nat (List.length (map e_id results)) in
      let video_names := get_all_video_names svc self in
      {| total_chunks := total_chunks;
         unique_videos := Z.of_nat (List.length video_names);
         video_names := video_names |}
  | Raise _ =>
      {| total_chunks := 0; unique_videos := 0; video_names := [] |}
  end.

End Stats.

End VectorStore.

(* ------------------------------------------------------------------ *)
(** ** Src/video_pipeline.py *)

Module VideoProcessor.

(** The processor owns the two stores and the scratch directory; [files]
    are the video files on disk (input and finished directories). *)
Record t := {
  database : Database.db;
  vector_store : VectorStore.vs;
  scratch : list Path;
  files : list Path
}.

Definition set_database (d : Database.db) (self : t) : t :=
  {| database := d; vector_store := vector_store self;
     scratch := scratch self; files := files self |}.

Definition set_vector_store (v : VectorStore.vs) (self : t) : t :=
  {| database := database self; vector_store := v;
     scratch := scratch self; files := files self |}.

Definition set_scratch (s : list Path) (self : t) : t :=
  {| database := database self; vector_store := vector_store self;
     scratch := s; files := files self |}.

Definition set_files (f : list Path) (self : t) : t :=
  {| database := database self; vector_store := vector_store self;
     scratch := scratch self; files := f |}.

Definition on_database {A} (m : M Database.db A) : M t A :=
  zoom database set_database m.

Definition on_vector_store {A} (m : M VectorStore.vs A) : M t A :=
  zoom vector_store set_vector_store m.

(** [path.exists()] *)
Definition path_exists (fs : list Path) (p : Path) : bool :=
  existsb (fun f => String.eqb (str_path f) (str_path p)) fs.

Section VideoProcessor.
Variable config : Config.
Variable svc : Services.

(** [not x] for the value returned by [split_audio]: [None] and the empty
    list are both falsy. *)
Definition falsy {A} (x : option (list A)) : bool :=
  match x with
  | None => true
  | Some [] => true
  | Some (_ :: _) => false
  end.

(** The loop looking for a free name in the finished directory (lines
    91-98); it runs at most once per existing file. *)
Fixpoint next_free (fuel : nat) (fs : list Path) (video_path : Path)
    (counter : Z) (finished_path : Path) : Path :=
  match fuel with
  | O => finished_path
  | S fuel' =>
      if path_exists fs finished_path then
        next_free fuel' fs video_path (counter + 1)
          (joinpath (VIDEOS_FINISHED_PATH config)
             (stem video_path ++ "_" ++ str_int counter) (suffix video_path))
      else finished_path
  end.

(** [shutil.move(src, dst)] *)
Definition move (src dst : Path) : M t unit :=
  fun self =>
    if path_exists (files self) src then
      (set_files
         (dst :: filter (fun f => negb (String.eqb (str_path f) (str_path src)))
                   (files self)) self, Ok tt)
    else (self, Raise (Exn FileNotFoundError "No such file or directory")).

(** [self.audio_extractor.cleanup()] *)
Definition cleanup (self : t) : t :=
  set_scratch (AudioExtractor.cleanup (scratch self) None) self.

(** Lines 59-103 of [process_video]: persist, relocate, clean up. *)
Definition persist (video_path : Path) (audio_splits_chunks : list pytuple)
    (transcriptions : list Transcript) : M t bool :=
  let video_name := name video_path in
  total_duration <~ lift (last <- py_last audio_splits_chunks ;;
                          tuple_index last 2) ;;
  known <~ reads (fun self => Database.video_exists svc (database self) video_name) ;;
  _ <~ (if negb known then
          _ <~ on_database
                 (Database.add_video svc video_name (str_path video_path)
                    total_duration (Z.of_nat (List.length transcriptions))) ;;
          ret tt
        else ret tt) ;;
  _ <~ for_each transcriptions
         (fun transcript =>
            _ <~ on_database
                   (Database.add_transcript_chunk svc video_name transcript None) ;;
            ret tt) ;;
  vector_ids <~ on_vector_store
                  (VectorStore.add_transcripts svc transcriptions video_name) ;;
  finished_path <~ gets (fun self =>
     next_free (S (List.length (files self))) (files self) video_path 1
       (joinpath (VIDEOS_FINISHED_PATH config) (stem video_path) (suffix video_path))) ;;
  _ <~ move video_path finished_path ;;
  _ <~ modify cleanup ;;
  ret true.

(** The [try] block of [process_video] (lines 32-103). *)
Definition process_video_try (video_path : Path) : M t bool :=
  let video_name := name video_path in
  in_database <~ reads (fun self => Database.video_exists svc (database self) video_name) ;;
  in_vector_store <~ gets (fun self =>
     existsb (String.eqb video_name)
       (VectorStore.get_all_video_names svc (vector_store self))) ;;
  if in_database && in_vector_store then ret false
  else
    audio_path <~ zoom scratch set_scratch
                    (fun s => AudioExtractor.extract_audio config svc s video_path) ;;
    audio_splits_chunks <~ zoom scratch set_scratch
       (fun s => let (s', r) := AudioExtractor.split_audio config svc s audio_path in
                 (s', Ok r)) ;;
    match audio_splits_chunks with
    | None => ret false
    | Some [] => ret false
    | Some chunks =>
        transcriptions <~ lift (Transcriber.transcribe_all_chunks svc chunks) ;;
        match transcriptions with
        | [] => ret false
        | _ => persist video_path chunks transcriptions
        end
    end.

(** [process_video] (lines 30-114): any exception is logged, the scratch
    directory is cleaned and the outcome is [False]. *)
Definition process_video (self : t) (video_path : Path) : t * bool :=
  match process_video_try video_path self with
  | (self', Ok outcome) => (self', outcome)
  | (self', Raise _) => (cleanup self', false)
  end.

(** [delete_video] (lines 192-207).  The local [db_sucess] is bound only
    when the video is in the metadata store; reading it unbound raises
    [UnboundLocalError]. *)
Definition delete_video (video_name : string) : M t bool :=
  known <~ reads (fun self => Database.video_exists svc (database self) video_name) ;;
  db_sucess <~ (if known then
                  b <~ on_database (Database.delete_video svc video_name) ;;
                  ret (Some b)
                else ret None) ;;
  vs_db <~ on_vector_store (VectorStore.delete_by_video_name svc video_name) ;;
  match db_sucess with
  | None =>
      raise (Exn UnboundLocalError
               "cannot access local variable 'db_sucess' where it is not associated with a value")
  | Some db_sucess => if db_sucess && vs_db then ret true else ret false
  end.

End VideoProcessor.

(** [config.SUPPORTED_VIDEO_FORMATS] *)
Definition SUPPORTED_VIDEO_FORMATS : list string :=
  [".mp4"; ".avi"; ".mov"; ".mkv"; ".flv"; ".wmv"].

(** [name.endswith(ext)] *)
Definition ends_with (ext name_ : string) : bool :=
  (String.length ext <=? String.length name_)%nat
  && String.eqb (substring (String.length name_ - String.length ext)
                   (String.length ext) name_) ext.

(** [folder_path.glob(f"*{extension}")]: the files that sit directly in
    the folder and whose name ends with the extension, in listing order. *)
Definition glob (fs : list Path) (folder_path : Path) (extension : string)
  : list Path :=
  filter (fun f => String.eqb (parent f) (str_path folder_path)
                   && ends_with extension (name f)) fs.

(** The dictionary returned by [process_folder]. *)
Record FolderStats := {
  total : Z;
  sucess : Z;
  failed : Z;
  skipped : Z;
  processed_videos : list string;
  failed_videos : list string
}.

(** The dictionary returned by [get_statistics]. *)
Record AllStatistics := {
  stats_database : Database.Statistics;
  stats_vector_store : VectorStore.CollectionStats
}.

Section ProcessFolder.
Variable config : Config.
Variable svc : Services.
(** [config.VIDEOS_INPUT_PATH] *)
Variable VIDEOS_INPUT_PATH : Path.
Variable read_fault : Database.db_read -> option exn.

(** The loop of [process_folder] (lines 156-170).  The existence checks
    are outside any [try]: a fault of the metadata store propagates. *)
Fixpoint folder_loop (videos_paths : list Path) (stats : FolderStats)
  : M t FolderStats :=
  match videos_paths with
  | [] => ret stats
  | video_path :: rest =>
      in_database <~ reads (fun self =>
         Database.video_exists svc (database self) (name video_path)) ;;
      in_vector_store <~ gets (fun self =>
         existsb (String.eqb (name video_path))
           (VectorStore.get_all_video_names svc (vector_store self))) ;;
      if in_database && in_vector_store then
        folder_loop rest
          {| total := total stats;
             sucess := sucess stats;
             failed := failed stats;
             skipped := skipped stats + 1;
             processed_videos := processed_videos stats;
             failed_videos := failed_videos stats |}
      else
        done <~ (fun self =>
                   let (self', outcome) := process_video config svc self video_path in
                   (self', Ok outcome)) ;;
        if done : bool then
          folder_loop rest
            {| total := total stats;
               sucess := sucess stats + 1;
               failed := failed stats;
               skipped := skipped stats;
               processed_videos :=
                 (processed_videos stats ++ [name video_path])%list;
               failed_videos := failed_videos stats |}
        else
          folder_loop rest
            {| total := total stats;
               sucess := sucess stats;
               failed := failed stats + 1;
               skipped := skipped stats;
               processed_videos := processed_videos stats;
               failed_videos := (failed_videos stats ++ [name video_path])%list |}
  end.

(** [process_folder] (lines 117-173) *)
Definition process_folder (folder_path : option Path) : M t FolderStats :=
  let folder_path :=
    match folder_path with
    | Some p => p
    | None => VIDEOS_INPUT_PATH
    end in
  videos_paths <~ gets (fun self =>
     flat_map (glob (files self) folder_path) SUPPORTED_VIDEO_FORMATS) ;;
  match videos_paths with
  | [] =>
      ret {| total := 0; sucess := 0; failed := 0; skipped := 0;
             processed_videos := []; failed_videos := [] |}
  | _ =>
      folder_loop videos_paths
        {| total := Z.of_nat (List.length videos_paths);
           sucess := 0; failed := 0; skipped := 0;
           processed_videos := []; failed_videos := [] |}
  end.

(** [get_statistics] (lines 176-190) *)
Definition get_statistics (self : t) : result AllStatistics :=
  database_stats <- Database.get_video_statistics read_fault (database self) ;;
  Ok {| stats_database := database_stats;
        stats_vector_store :=
          VectorStore.get_collection_stats svc (vector_store self) |}.

End ProcessFolder.
End VideoProcessor.

(* ------------------------------------------------------------------ *)
(** ** Src/rag_chat.py *)

Module RAGChat.

(** One cited source of an answer. *)
Record Source := {
  video_name : mdval;
  start_time : mdval;
  end_time : mdval;
  text_preview : string
}.

(** The dictionary returned by [ask] and [ask_with_video_filter]. *)
Record Answer := {
  answer : string;
  sources : list Source
}.

(** The engine: the shared vector store and the running history. *)
Record t := {
  vector_store : VectorStore.vs;
  chat_history : list message
}.

Section RAGChat.
Variable config : Config.
Variable svc : Services.

(** [f"{v}"] for a metadata value *)
Definition str_md (v : mdval) : string :=
  match v with
  | MStr s => s
  | MInt z => str_int z
  | MFloat q => float_repr svc q
  end.

(** [_format_docs] (lines 90-113) *)
Fixpoint format_docs_from (i : Z) (docs : list Document) : list string :=
  match docs with
  | [] => []
  | doc :: rest =>
      let video_name := md_get (doc_metadata doc) "video_name" (MStr "Unknown") in
      let start_time := md_get (doc_metadata doc) "start_formatted" (MStr "N/A") in
      let end_time := md_get (doc_metadata doc) "end_formatted" (MStr "N/A") in
      ("[Source " ++ str_int i ++ "]" ++ nl
       ++ "Video: " ++ str_md video_name ++ nl
       ++ "Time: " ++ str_md start_time ++ " - " ++ str_md end_time ++ nl
       ++ "Content: " ++ page_content doc ++ nl)
      :: format_docs_from (i + 1) rest
  end.

Definition _format_docs (docs : list Document) : string :=
  String.concat nl (format_docs_from 1 docs).

(** The system message of [_create_rag_chain] (lines 57-69). *)
Definition system_all (context : string) : string :=
  "You are a helpful AI assistant that answers questions based on video transcripts." ++ nl
  ++ nl
  ++ "IMPORTANT INSTRUCTIONS:" ++ nl
  ++ "1. Answer ONLY based on the provided context" ++ nl
  ++ "2. If the answer is not in the context, say " ++ dquote
  ++ "I don't have information about that in the videos." ++ dquote ++ nl
  ++ "3. ALWAYS cite your sources by mentioning:" ++ nl
  ++ "   - The video name" ++ nl
  ++ "   - The timestamp (when that information appears)" ++ nl
  ++ "4. Be conversational and helpful" ++ nl
  ++ "5. If multiple videos contain relevant information, mention all of them" ++ nl
  ++ nl
  ++ "Context from videos:" ++ nl
  ++ context.

(** The system message of [ask_with_video_filter] (lines 199-210).  Braces
    inside [video_name], which the template engine would read as
    variables, are not modelled. *)
Definition system_one (video_name context : string) : string :=
  "You are a helpful AI assistant that answers questions based on video transcripts." ++ nl
  ++ nl
  ++ "Answer questions based ONLY on the video: " ++ video_name ++ nl
  ++ nl
  ++ "IMPORTANT INSTRUCTIONS:" ++ nl
  ++ "1. Answer ONLY based on the provided context from this video" ++ nl
  ++ "2. If the answer is not in the context, say " ++ dquote
  ++ "I don't have information about that in this video." ++ dquote ++ nl
  ++ "3. ALWAYS cite the timestamp when that information appears" ++ nl
  ++ "4. Be conversational and helpful" ++ nl
  ++ nl
  ++ "Context from video:" ++ nl
  ++ context.

(** [chain.invoke(question)]: retrieve, format the context, fill the
    prompt with the current history, call the model. *)
Definition chain_invoke (self : t) (retriever : VectorStore.Retriever)
    (system : string -> string) (question : string) : result string :=
  docs <- VectorStore.retriever_invoke svc (vector_store self) retriever question ;;
  llm_invoke svc {| p_system := system (_format_docs docs);
                    p_chat_history := chat_history self;
                    p_human := question |}.

(** [doc.page_content[:150] + '...' if len(doc.page_content) > 150 else
    doc.page_content] *)
Definition preview (page_content : string) : string :=
  if (150 <? String.length page_content)%nat
  then substring 0 150 page_content ++ "..."
  else page_content.

(** One iteration of the loop that formats the sources. *)
Definition source_of (doc : Document) : Source :=
  {| video_name := md_get (doc_metadata doc) "video_name" (MStr "Unknown");
     start_time := md_get (doc_metadata doc) "start_formatted" (MStr "N/A");
     end_time := md_get (doc_metadata doc) "end_formatted" (MStr "N/A");
     text_preview := preview (page_content doc) |}.

(** [self.chat_history.append(HumanMessage(..)); ...append(AIMessage(..))] *)
Definition remember (question answer : string) (self : t) : t :=
  {| vector_store := vector_store self;
     chat_history :=
       (chat_history self ++ [HumanMessage question; AIMessage answer])%list |}.

(** The [try] block shared by [ask] (lines 129-156) and
    [ask_with_video_filter] (lines 179-241): retrieve for the sources,
    generate, then record the exchange and format the sources. *)
Definition ask_try (retriever : VectorStore.Retriever)
    (system : string -> string) (question : string) : M t Answer :=
  retrieved_docs <~ reads (fun self =>
     VectorStore.retriever_invoke svc (vector_store self) retriever question) ;;
  answer <~ reads (fun self => chain_invoke self retriever system question) ;;
  _ <~ modify (remember question answer) ;;
  ret {| answer := answer; sources := map source_of retrieved_docs |}.

(** The [except Exception as e] clause of both functions. *)
Definition or_apology (m : M t Answer) : t -> t * Answer :=
  fun self =>
    match m self with
    | (self', Ok a) => (self', a)
    | (self', Raise e) =>
        (self', {| answer := "Sorry, I encountered an error: " ++ str_exn e;
                   sources := [] |})
    end.

(** [ask] (lines 116-163) *)
Definition ask (self : t) (question : string) : t * Answer :=
  or_apology (ask_try (VectorStore.get_retriever config) system_all question) self.

(** [ask_with_video_filter] (lines 166-248) *)
Definition ask_with_video_filter (self : t) (question video_name : string)
  : t * Answer :=
  let filtered_retriever :=
    {| VectorStore.r_k := TOP_K_RESULTS config;
       VectorStore.r_filter := Some ("video_name", MStr video_name) |} in
  or_apology (ask_try filtered_retriever (system_one video_name) question) self.

(** [clear_memory] (lines 251-258) *)
Definition clear_memory (self : t) : t :=
  {| vector_store := vector_store self; chat_history := [] |}.

End RAGChat.

(** One element of the list returned by [get_chat_history]. *)
Record HistoryItem := {
  role : string;
  content : string
}.

(** [get_chat_history] (lines 261-281) *)
Definition get_chat_history (self : t) : list HistoryItem :=
  map (fun msg =>
         match msg with
         | HumanMessage c => {| role := "human"; content := c |}
         | AIMessage c => {| role := "ai"; content := c |}
         end)
      (chat_history self).

End RAGChat.

(* ------------------------------------------------------------------ *)
(** ** Vocabulary of the properties *)

(** The tuple appended by iteration [i] of the loop of [split_audio]. *)
Definition chunk_tuple (config : Config) (audio_path : Path)
    (len_audio chunk_length i : Z) : pytuple :=
  [VPath (joinpath (AudioExtractor.temp_dir config)
            (stem audio_path ++ "_" ++ str_int i) ".wav");
   VFloat (inject_Z (i * chunk_length * 1000) / 1000);
   VFloat (inject_Z (Z.min len_audio ((i + 1) * chunk_length * 1000)) / 1000)].

(** The chunk indices stored for one video, in insertion order. *)
Definition stored_indices (d : Database.db) (video_name : string) : list Z :=
  map c_chunk_index (Database.chunks_of d video_name).


(** A chunk as [transcribe_all_chunks] expects it: (path, start, end,
    name), with a path the speech-to-text service can transcribe. *)
Definition well_formed4 (svc : Services) (t : pytuple) : Prop :=
  exists p s e nm, t = [VPath p; VFloat s; VFloat e; nm] /\
                   is_ok (transcriptions_create svc p) = true.

(** The two times of a chunk tuple, in lowest terms. *)
Definition tuple_times (t : pytuple) : option (Q * Q) :=
  match t with
  | _ :: VFloat s :: VFloat e :: _ => Some (Qred s, Qred e)
  | _ => None
  end.

(** A run in which every service answers: the audio of every file is 1500
    seconds long, the chunk length is 600 seconds. *)
Definition cfg600 : Config :=
  {| CHUNK_LENGTH_SECONDS := 600;
     TOP_K_RESULTS := 3;
     VIDEOS_FINISHED_PATH := mkPath "/data" "finished" "";
     gettempdir := mkPath "" "tmp" "" |}.

Definition quiet : Services :=
  {| write_audiofile := fun _ _ => None;
     from_file := fun _ => Ok 1500000;
     export := fun _ => None;
     transcriptions_create := fun _ => Ok "some words";
     float_repr := fun _ => "0.0";
     db_fault := fun _ => None;
     vs_fault := fun _ => None;
     uuid := fun n => "id-" ++ str_int (Z.of_nat n);
     split_text := fun text => [text];
     distance := fun _ _ => 0%Q;
     llm_invoke := fun _ => Ok "an answer" |}.

Definition lecture_mp4 : Path := mkPath "/data/input" "lecture" ".mp4".
Definition lecture_wav : Path :=
  joinpath (AudioExtractor.temp_dir cfg600) "lecture" ".wav".

(** Two states agree on everything that outlives a run: the metadata
    store, the vector store and the video files. *)
Definition same_stores (self self' : VideoProcessor.t) : Prop :=
  VideoProcessor.database self' = VideoProcessor.database self /\
  VideoProcessor.vector_store self' = VideoProcessor.vector_store self /\
  VideoProcessor.files self' = VideoProcessor.files self.

(** The index under which [add_transcript_chunk] files a transcript:
    [chunk_data.get('chunk_index', 0)]. *)
Definition index_of (chunk_data : Transcript) : Z :=
  match tr_chunk_index chunk_data with Some i => i | None => 0 end.

(** Sample rows and entries for video [lecture.mp4]. *)
Definition lecture_row : VideoMetaData :=
  {| v_id := 1; v_video_name := "lecture.mp4";
     v_original_path := "/data/input/lecture.mp4";
     v_total_chunks := 2; v_total_duration := 900; v_status := "completed" |}.

Definition lecture_transcript (i : Z) : Transcript :=
  {| tr_text := "some words";
     tr_start_time := inject_Z (i * 600);
     tr_end_time := inject_Z ((i + 1) * 600);
     tr_duration := 600;
     tr_start_formatted := Transcriber.format_time (inject_Z (i * 600));
     tr_end_formatted := Transcriber.format_time (inject_Z ((i + 1) * 600));
     tr_chunk_index := Some i;
     tr_audio_name := Some "lecture" |}.

Definition lecture_chunk (id i : Z) : TranscriptChunk :=
  {| c_id := id; c_video_name := "lecture.mp4"; c_chunk_index := i;
     c_start_time := inject_Z (i * 600); c_end_time := inject_Z ((i + 1) * 600);
     c_start_formatted := Transcriber.format_time (inject_Z (i * 600));
     c_end_formatted := Transcriber.format_time (inject_Z ((i + 1) * 600));
     c_text := "some words"; c_char_count := 10; c_vector_id := None |}.

Definition entry_of (id video : string) (i : Z) : Entry :=
  {| e_id := id;
     e_doc := {| page_content := "some words";
                 doc_metadata :=
                   [("video_name", MStr video);
                    ("chunk_index", MInt i);
                    ("sub_chunk_index", MInt 0);
                    ("start_time", MFloat (inject_Z (i * 600)));
                    ("end_time", MFloat (inject_Z ((i + 1) * 600)));
                    ("start_formatted", MStr (Transcriber.format_time (inject_Z (i * 600))));
                    ("end_formatted", MStr (Transcriber.format_time (inject_Z ((i + 1) * 600))))] |} |}.

(** The metadata store after [lecture.mp4] was processed (two chunks). *)
Definition db_lecture : Database.db :=
  {| Database.videos := [lecture_row];
     Database.chunks := [lecture_chunk 1 0; lecture_chunk 2 1];
     Database.next_video_id := 2;
     Database.next_chunk_id := 3 |}.

Definition db_empty : Database.db :=
  {| Database.videos := []; Database.chunks := [];
     Database.next_video_id := 1; Database.next_chunk_id := 1 |}.

Definition vs_lecture : VectorStore.vs :=
  {| VectorStore.entries :=
       [entry_of "id-0" "lecture.mp4" 0; entry_of "id-1" "lecture.mp4" 1;
        entry_of "id-2" "talk.mp4" 0];
     VectorStore.next_uuid := 3 |}.

Definition vs_empty : VectorStore.vs :=
  {| VectorStore.entries := []; VectorStore.next_uuid := 0 |}.

(** [lecture.mp4] known to both stores. *)
Definition processed : VideoProcessor.t :=
  {| VideoProcessor.database := db_lecture;
     VideoProcessor.vector_store := vs_lecture;
     VideoProcessor.scratch := [];
     VideoProcessor.files := [lecture_mp4] |}.

(** [lecture.mp4] known to the vector store only. *)
Definition orphaned : VideoProcessor.t :=
  {| VideoProcessor.database := db_empty;
     VideoProcessor.vector_store := vs_lecture;
     VideoProcessor.scratch := [];
     VideoProcessor.files := [lecture_mp4] |}.

(** [lecture.mp4] known to the metadata store only. *)
Definition half_processed : VideoProcessor.t :=
  {| VideoProcessor.database := db_lecture;
     VideoProcessor.vector_store := vs_empty;
     VideoProcessor.scratch := [];
     VideoProcessor.files := [lecture_mp4] |}.

(** Services of a run in which the audio cannot be decoded. *)
Definition deaf : Services :=
  {| write_audiofile := fun _ _ => None;
     from_file := fun _ => Raise (Exn ServiceError "could not decode the audio");
     export := fun _ => None;
     transcriptions_create := fun _ => Ok "some words";
     float_repr := fun _ => "0.0";
     db_fault := fun _ => None;
     vs_fault := fun _ => None;
     uuid := fun n => "id-" ++ str_int (Z.of_nat n);
     split_text := fun text => [text];
     distance := fun _ _ => 0%Q;
     llm_invoke := fun _ => Ok "an answer" |}.

(** Services of a run in which no chunk can be written. *)
Definition full_disk : Services :=
  {| write_audiofile := fun _ _ => None;
     from_file := fun _ => Ok 1500000;
     export := fun _ => Some (Exn ServiceError "no space left on device");
     transcriptions_create := fun _ => Ok "some words";
     float_repr := fun _ => "0.0";
     db_fault := fun _ => None;
     vs_fault := fun _ => None;
     uuid := fun n => "id-" ++ str_int (Z.of_nat n);
     split_text := fun text => [text];
     distance := fun _ _ => 0%Q;
     llm_invoke := fun _ => Ok "an answer" |}.

(** Chunks shaped the way [transcribe_all_chunks] unpacks them. *)
Definition lecture_chunks4 : list pytuple :=
  [[VPath lecture_wav; VFloat 0; VFloat 600; VPath lecture_wav];
   [VPath lecture_wav; VFloat 600; VFloat 900; VPath lecture_wav]].

(** The message of the [UnboundLocalError] raised on [db_sucess]. *)
Definition unbound_db_sucess : exn :=
  Exn UnboundLocalError
    "cannot access local variable 'db_sucess' where it is not associated with a value".

(** An exception [e] is raised during retrieval or during generation of a
    chat turn run with the given retriever and system message. *)
Definition raised_by_turn (svc : Services) (self : RAGChat.t)
    (retriever : VectorStore.Retriever) (system : string -> string)
    (question : string) (e : exn) : Prop :=
  VectorStore.retriever_invoke svc (RAGChat.vector_store self) retriever question
  = Raise e \/
  exists docs,
    VectorStore.retriever_invoke svc (RAGChat.vector_store self) retriever question
    = Ok docs /\
    llm_invoke svc {| p_system := system (RAGChat._format_docs svc docs);
                      p_chat_history := RAGChat.chat_history self;
                      p_human := question |} = Raise e.

(** The retriever built by [ask_with_video_filter]. *)
Definition filtered_retriever (config : Config) (video_name : string)
  : VectorStore.Retriever :=
  {| VectorStore.r_k := TOP_K_RESULTS config;
     VectorStore.r_filter := Some ("video_name", MStr video_name) |}.

(** The answer of the [except] clause. *)
Definition apology (e : exn) : RAGChat.Answer :=
  {| RAGChat.answer := "Sorry, I encountered an error: " ++ str_exn e;
     RAGChat.sources := [] |}.

(** Services of a session in which the language model is unreachable, and
    of one in which the similarity search is. *)
Definition mute : Services :=
  {| write_audiofile := fun _ _ => None;
     from_file := fun _ => Ok 1500000;
     export := fun _ => None;
     transcriptions_create := fun _ => Ok "some words";
     float_repr := fun _ => "0.0";
     db_fault := fun _ => None;
     vs_fault := fun _ => None;
     uuid := fun n => "id-" ++ str_int (Z.of_nat n);
     split_text := fun text => [text];
     distance := fun _ _ => 0%Q;
     llm_invoke := fun _ => Raise (Exn ServiceError "model unavailable") |}.

Definition blind : Services :=
  {| write_audiofile := fun _ _ => None;
     from_file := fun _ => Ok 1500000;
     export := fun _ => None;
     transcriptions_create := fun _ => Ok "some words";
     float_repr := fun _ => "0.0";
     db_fault := fun _ => None;
     vs_fault := fun op =>
       match op with
       | VsSearch _ => Some (Exn ServiceError "embedding service unavailable")
       | _ => None
       end;
     uuid := fun n => "id-" ++ str_int (Z.of_nat n);
     split_text := fun text => [text];
     distance := fun _ _ => 0%Q;
     llm_invoke := fun _ => Ok "an answer" |}.

(** A session with one earlier exchange over the sample vector store. *)
Definition session : RAGChat.t :=
  {| RAGChat.vector_store := vs_lecture;
     RAGChat.chat_history := [HumanMessage "hello"; AIMessage "hi"] |}.

(** The names tried, in order, by the loop that relocates a video:
    [name], then [stem_1suffix], [stem_2suffix], ... *)
Definition candidate (config : Config) (video_path : Path) (k : nat) : Path :=
  match k with
  | O => joinpath (VIDEOS_FINISHED_PATH config) (stem video_path) (suffix video_path)
  | S _ =>
      joinpath (VIDEOS_FINISHED_PATH config)
        (stem video_path ++ "_" ++ str_int (Z.of_nat k)) (suffix video_path)
  end.

(** What [transcribe_all_chunks] makes of a well-formed chunk at
    position [k]. *)
Definition transcribed_as (svc : Services) (k : nat) (chunk : pytuple)
    (r : Transcript) : Prop :=
  exists p s e nm text,
    chunk = [VPath p; VFloat s; VFloat e; nm] /\
    transcriptions_create svc p = Ok text /\
    tr_text r = text /\
    tr_start_time r = s /\
    tr_end_time r = e /\
    tr_duration r = (e - s)%Q /\
    tr_start_formatted r = Transcriber.format_time s /\
    tr_end_formatted r = Transcriber.format_time e /\
    tr_chunk_index r = Some (Z.of_nat k) /\
    tr_audio_name r = Some (Transcriber.py_str svc nm).

(** Services whose speech-to-text call fails on the file [bad.wav]. *)
Definition flaky : Services :=
  {| write_audiofile := fun _ _ => None;
     from_file := fun _ => Ok 1500000;
     export := fun _ => None;
     transcriptions_create := fun p =>
       if String.eqb (stem p) "bad"
       then Raise (Exn ServiceError "transcription failed")
       else Ok "some words";
     float_repr := fun _ => "0.0";
     db_fault := fun _ => None;
     vs_fault := fun _ => None;
     uuid := fun n => "id-" ++ str_int (Z.of_nat n);
     split_text := fun text => [text];
     distance := fun _ _ => 0%Q;
     llm_invoke := fun _ => Ok "an answer" |}.

Definition bad_wav : Path := joinpath (AudioExtractor.temp_dir cfg600) "bad" ".wav".

(** A configuration whose chunk length is zero. *)
Definition cfg0 : Config :=
  {| CHUNK_LENGTH_SECONDS := 0;
     TOP_K_RESULTS := 3;
     VIDEOS_FINISHED_PATH := mkPath "/data" "finished" "";
     gettempdir := mkPath "" "tmp" "" |}.

(** Services of a run on a silent file of length zero. *)
Definition empty_audio : Services :=
  {| write_audiofile := fun _ _ => None;
     from_file := fun _ => Ok 0;
     export := fun _ => None;
     transcriptions_create := fun _ => Ok "some words";
     float_repr := fun _ => "0.0";
     db_fault := fun _ => None;
     vs_fault := fun _ => None;
     uuid := fun n => "id-" ++ str_int (Z.of_nat n);
     split_text := fun text => [text];
     distance := fun _ _ => 0%Q;
     llm_invoke := fun _ => Ok "an answer" |}.

(** Invariants of the metadata store. *)
Definition names_unique (d : Database.db) : Prop :=
  NoDup (map v_video_name (Database.videos d)).

Definition keys_fresh (d : Database.db) : Prop :=
  Forall (fun c => c_id c < Database.next_chunk_id d) (Database.chunks d) /\
  NoDup (map c_id (Database.chunks d)) /\
  Forall (fun v => v_id v < Database.next_video_id d) (Database.videos d) /\
  NoDup (map v_id (Database.videos d)).


(** The row that [add_video] inserts. *)
Definition video_row (d : Database.db) (video_name original_path : string)
    (total_duration : Q) (total_chunks : Z) : VideoMetaData :=
  {| v_id := Database.next_video_id d;
     v_video_name := video_name;
     v_original_path := original_path;
     v_total_chunks := total_chunks;
     v_total_duration := total_duration;
     v_status := "completed" |}.

(** The row that [add_transcript_chunk] inserts. *)
Definition chunk_row (d : Database.db) (video_name : string)
    (chunk_data : Transcript) (vector_id : option string) : TranscriptChunk :=
  {| c_id := Database.next_chunk_id d;
     c_video_name := video_name;
     c_chunk_index := index_of chunk_data;
     c_start_time := tr_start_time chunk_data;
     c_end_time := tr_end_time chunk_data;
     c_start_formatted := tr_start_formatted chunk_data;
     c_end_formatted := tr_end_formatted chunk_data;
     c_text := tr_text chunk_data;
     c_char_count := Z.of_nat (String.length (tr_text chunk_data));
     c_vector_id := vector_id |}.

(** A metadata store that answers every read. *)
Definition no_read_fault : Database.db_read -> option exn := fun _ => None.

(** The order of rows by chunk index. *)
Definition index_le (a b : TranscriptChunk) : Prop :=
  c_chunk_index a <= c_chunk_index b.

(** A store whose chunk rows were inserted out of order. *)
Definition db_shuffled : Database.db :=
  {| Database.videos := [lecture_row];
     Database.chunks := [lecture_chunk 1 1; lecture_chunk 2 0];
     Database.next_video_id := 2;
     Database.next_chunk_id := 3 |}.

(** The metadata that [add_transcripts] attaches to sub-chunk [j] of the
    transcript at position [k] of its input. *)
Definition sub_chunk_metadata (video_name : string) (k j : nat)
    (transcript : Transcript) : metadata :=
  [("video_name", MStr video_name);
   ("chunk_index", MInt (Z.of_nat k));
   ("sub_chunk_index", MInt (Z.of_nat j));
   ("start_time", MFloat (tr_start_time transcript));
   ("end_time", MFloat (tr_end_time transcript));
   ("start_formatted", MStr (tr_start_formatted transcript));
   ("end_formatted", MStr (tr_end_formatted transcript))].

(** A (text, metadata) pair is sub-chunk [j] of the non-blank transcript at
    position [k]. *)
Definition row_from (svc : Services) (video_name : string)
    (transcripts : list Transcript) (row : string * metadata) : Prop :=
  exists k j transcript,
    nth_error transcripts k = Some transcript /\
    is_blank (tr_text transcript) = false /\
    nth_error (split_text svc (tr_text transcript)) j = Some (fst row) /\
    snd row = sub_chunk_metadata video_name k j transcript.

(** Every entry of the vector store carries a string under
    ["video_name"]. *)
Definition vs_well_formed (v : VectorStore.vs) : Prop :=
  Forall (fun e => exists s,
              md_lookup (doc_metadata (e_doc e)) "video_name" = Some (MStr s))
         (VectorStore.entries v).

(** The strict order of [sorted] on names. *)
Definition str_lt (a b : string) : Prop := String.compare a b = Lt.

(** An entry belongs to a video. *)
Definition of_video (video_name : string) (e : Entry) : bool :=
  VectorStore.matches ("video_name", MStr video_name) e.

(** A vector store with an entry that has no ["video_name"] key. *)
Definition vs_nameless : VectorStore.vs :=
  {| VectorStore.entries :=
       [entry_of "id-0" "lecture.mp4" 0;
        {| e_id := "id-1";
           e_doc := {| page_content := "stray"; doc_metadata := [] |} |}];
     VectorStore.next_uuid := 2 |}.

(** Services whose vector store cannot be written to. *)
Definition read_only : Services :=
  {| write_audiofile := fun _ _ => None;
     from_file := fun _ => Ok 1500000;
     export := fun _ => None;
     transcriptions_create := fun _ => Ok "some words";
     float_repr := fun _ => "0.0";
     db_fault := fun _ => None;
     vs_fault := fun op =>
       match op with
       | VsAddTexts _ => Some (Exn ServiceError "embedding service unavailable")
       | _ => None
       end;
     uuid := fun n => "id-" ++ str_int (Z.of_nat n);
     split_text := fun text => [text];
     distance := fun _ _ => 0%Q;
     llm_invoke := fun _ => Ok "an answer" |}.

(** A transcript whose text is only white space. *)
Definition blank_transcript : Transcript :=
  {| tr_text := "   ";
     tr_start_time := 0; tr_end_time := 600; tr_duration := 600;
     tr_start_formatted := "00:00:00"; tr_end_formatted := "00:10:00";
     tr_chunk_index := Some 0; tr_audio_name := Some "lecture" |}.

(** Services whose vector store refuses deletions. *)
Definition vs_locked : Services :=
  {| write_audiofile := fun _ _ => None;
     from_file := fun _ => Ok 1500000;
     export := fun _ => None;
     transcriptions_create := fun _ => Ok "some words";
     float_repr := fun _ => "0.0";
     db_fault := fun _ => None;
     vs_fault := fun op =>
       match op with
       | VsDelete _ => Some (Exn ServiceError "collection is locked")
       | _ => None
       end;
     uuid := fun n => "id-" ++ str_int (Z.of_nat n);
     split_text := fun text => [text];
     distance := fun _ _ => 0%Q;
     llm_invoke := fun _ => Ok "an answer" |}.

(** The counters of a folder summary agree with its lists. *)
Definition tallied (st : VideoProcessor.FolderStats) : Prop :=
  VideoProcessor.sucess st = Z.of_nat (List.length (VideoProcessor.processed_videos st)) /\
  VideoProcessor.failed st = Z.of_nat (List.length (VideoProcessor.failed_videos st)) /\
  0 <= VideoProcessor.skipped st.

(** The input folder of the samples, and a processor that knows
    [lecture.mp4] and finds two videos and a text file in that folder. *)
Definition input_folder : Path := mkPath "/data" "input" "".

Definition talk_mp4 : Path := mkPath "/data/input" "talk" ".mp4".

Definition inbox : VideoProcessor.t :=
  {| VideoProcessor.database := db_lecture;
     VideoProcessor.vector_store := vs_lecture;
     VideoProcessor.scratch := [];
     VideoProcessor.files :=
       [lecture_mp4; mkPath "/data/input" "notes" ".txt"; talk_mp4] |}.

(** A history made of complete exchanges: a question, then its answer. *)
Definition exchanges (pairs : list (string * string)) : list message :=
  flat_map (fun qa => [HumanMessage (fst qa); AIMessage (snd qa)]) pairs.

Definition well_paired (history : list message) : Prop :=
  exists pairs, history = exchanges pairs.

(** The same exchanges as [get_chat_history] reports them. *)
Definition reported (pairs : list (string * string)) : list RAGChat.HistoryItem :=
  flat_map (fun qa => [{| RAGChat.role := "human"; RAGChat.content := fst qa |};
                       {| RAGChat.role := "ai"; RAGChat.content := snd qa |}]) pairs.

(* ================================================================== *)
(** * Properties *)

(* ------------------------------------------------------------------ *)
(** ** Facts about floors of rationals *)






(* ------------------------------------------------------------------ *)
(** ** Facts about the decimal fields *)






(* ------------------------------------------------------------------ *)
(** ** format_time: the three components and the hours field *)

Section FormatTime.
Import Transcriber.







End FormatTime.

(* ------------------------------------------------------------------ *)
(** ** split_audio: the windows *)

Section SplitAudio.
Variable config : Config.
Variable svc : Services.

Lemma split_loop_inv (audio_path : Path) (len_audio chunk_length : Z) :
  forall indices scratch acc scratch' chunks,
    AudioExtractor.split_loop config svc audio_path len_audio chunk_length
      indices scratch acc = (scratch', Ok chunks) ->
    chunks = (acc ++ map (chunk_tuple config audio_path len_audio chunk_length)
                         indices)%list.
Proof.
  induction indices as [|i rest IH]; intros scratch acc scratch' chunks H.
  - cbn in H. injection H as _ <-. now rewrite app_nil_r.
  - cbn [AudioExtractor.split_loop] in H.
    destruct (export svc _); [discriminate|].
    apply IH in H. rewrite H, <- app_assoc. reflexivity.
Qed.

Lemma split_loop_ok (audio_path : Path) (len_audio chunk_length : Z) :
  (forall p, export svc p = None) ->
  forall indices scratch acc,
    exists scratch',
      AudioExtractor.split_loop config svc audio_path len_audio chunk_length
        indices scratch acc
      = (scratch',
         Ok (acc ++ map (chunk_tuple config audio_path len_audio chunk_length)
                        indices)%list).
Proof.
  intros Hexp. induction indices as [|i rest IH]; intros scratch acc.
  - exists scratch. cbn. now rewrite app_nil_r.
  - cbn [AudioExtractor.split_loop]. rewrite Hexp.
    destruct (IH (joinpath (AudioExtractor.temp_dir config)
                    (stem audio_path ++ "_" ++ str_int i) ".wav" :: scratch)
                 (acc ++ [chunk_tuple config audio_path len_audio chunk_length i])%list)
      as [s' Hs'].
    exists s'. rewrite <- app_assoc in Hs'. exact Hs'.
Qed.

(** The loop raises as soon as one chunk cannot be written. *)
Lemma split_loop_export_fails (audio_path : Path) (len_audio chunk_length : Z)
    (i : Z) (e : exn) :
  export svc (joinpath (AudioExtractor.temp_dir config)
                (stem audio_path ++ "_" ++ str_int i) ".wav") = Some e ->
  forall indices scratch acc,
    In i indices ->
    exists scratch' e',
      AudioExtractor.split_loop config svc audio_path len_audio chunk_length
        indices scratch acc = (scratch', Raise e').
Proof.
  intros He. induction indices as [|j rest IH]; intros scratch acc Hin;
    [contradiction|].
  cbn [AudioExtractor.split_loop].
  destruct (export svc (joinpath (AudioExtractor.temp_dir config)
                          (stem audio_path ++ "_" ++ str_int j) ".wav"))
    as [e'|] eqn:Ej.
  - eauto.
  - destruct Hin as [->|Hin]; [congruence|]. now apply IH.
Qed.

(** Every list returned by [split_audio] is made of the loop's 3-tuples. *)
Lemma split_audio_shape (scratch : list Path) (audio_path : Path) scratch' chunks :
  AudioExtractor.split_audio config svc scratch audio_path = (scratch', Some chunks) ->
  exists len_audio n,
    chunks = map (chunk_tuple config audio_path len_audio
                    (CHUNK_LENGTH_SECONDS config)) (range n).
Proof.
  unfold AudioExtractor.split_audio, AudioExtractor.split_audio_try.
  destruct (from_file svc audio_path) as [len_audio|e]; [|discriminate].
  destruct (CHUNK_LENGTH_SECONDS config =? 0); [discriminate|].
  match goal with
  | |- context [AudioExtractor.split_loop ?c ?s ?a ?m ?l ?idx ?sc ?acc] =>
      destruct (AudioExtractor.split_loop c s a m l idx sc acc) as [s1 [cs|e]] eqn:E
  end; [|discriminate].
  intros H. injection H as _ <-.
  apply split_loop_inv in E. cbn [app] in E. eauto.
Qed.

End SplitAudio.

(** The ceiling of [len / 1000 / L] over the integers. *)
Lemma num_chunks_Z (len_audio chunk_length : Z) :
  0 < chunk_length ->
  Qceiling (inject_Z len_audio / 1000 / inject_Z chunk_length)
  = - ((- len_audio) / (1000 * chunk_length)).
Proof.
  intros HL. unfold Qceiling. f_equal.
  rewrite (Zdiv_Qdiv (- len_audio) (1000 * chunk_length)).
  apply Qfloor_comp.
  rewrite inject_Z_opp, inject_Z_mult.
  assert (Hne : ~ (inject_Z chunk_length == 0)%Q).
  { intros E. apply (Qeq_alt) in E. unfold inject_Z, Qcompare in E. cbn in E.
    rewrite Z.mul_1_r in E. destruct chunk_length; discriminate || lia. }
  field. exact Hne.
Qed.

Lemma num_chunks_bounds (len_audio chunk_length : Z) :
  0 < chunk_length ->
  let n := - ((- len_audio) / (1000 * chunk_length)) in
  1000 * chunk_length * (n - 1) < len_audio <= 1000 * chunk_length * n.
Proof.
  intros HL n. subst n.
  pose proof (Z.div_mod (- len_audio) (1000 * chunk_length) ltac:(lia)) as E.
  pose proof (Z.mod_pos_bound (- len_audio) (1000 * chunk_length) ltac:(lia)) as B.
  nia.
Qed.

Lemma Q_of_ms (a : Z) : (inject_Z (a * 1000) / 1000 == inject_Z a)%Q.
Proof. rewrite inject_Z_mult. field. Qed.

Lemma Q_ms_lt (a b : Z) : a < b -> (inject_Z a / 1000 < inject_Z b / 1000)%Q.
Proof.
  intros H. apply Qmult_lt_r; [reflexivity|]. now rewrite <- Zlt_Qlt.
Qed.

Lemma Q_ms_le (a b : Z) : a <= b -> (inject_Z a / 1000 <= inject_Z b / 1000)%Q.
Proof.
  intros H. apply Qmult_le_compat_r; [|discriminate]. now rewrite <- Zle_Qle.
Qed.

Lemma nth_error_range (n : Z) (i : nat) :
  (i < Z.to_nat n)%nat -> nth_error (range n) i = Some (Z.of_nat i).
Proof.
  intros H. unfold range.
  rewrite nth_error_map, (nth_error_nth' _ 0%nat) by (now rewrite length_seq).
  rewrite seq_nth by exact H. reflexivity.
Qed.

Lemma length_range (n : Z) : List.length (range n) = Z.to_nat n.
Proof. unfold range. now rewrite length_map, length_seq. Qed.

(** The bounds of window [i], over the integers (milliseconds). *)
Lemma window_ms (len_audio chunk_length i : Z) :
  0 < chunk_length ->
  let n := - ((- len_audio) / (1000 * chunk_length)) in
  0 <= i < n ->
  i * chunk_length * 1000 < Z.min len_audio ((i + 1) * chunk_length * 1000) /\
  (i + 1 < n -> Z.min len_audio ((i + 1) * chunk_length * 1000)
                = (i + 1) * chunk_length * 1000) /\
  (i + 1 = n -> Z.min len_audio ((i + 1) * chunk_length * 1000) = len_audio).
Proof.
  intros HL n Hi.
  pose proof (num_chunks_bounds len_audio chunk_length HL) as B.
  cbv zeta in B. fold n in B.
  repeat split.
  - apply Z.min_glb_lt; nia.
  - intros H. apply Z.min_r. nia.
  - intros H. apply Z.min_l. nia.
Qed.

(** C2. When the audio file loads with a length of [len_audio]
    milliseconds (duration [D = len_audio / 1000] seconds), the configured
    chunk length [L] is positive and every chunk can be written,
    [split_audio] returns a list of exactly [ceil(D / L)] chunks; chunk [i]
    is a 3-tuple (path, start, end) with [start = i * L] and
    [end = min((i + 1) * L, D)], it is not empty ([start < end]), the end of
    every chunk but the last is the start of the next one
    ([(i + 1) * L]), and the end of the last chunk is [D] exactly. *)
Theorem split_audio_windows (config : Config) (svc : Services)
    (scratch : list Path) (audio_path : Path) (len_audio : Z) :
  let L := CHUNK_LENGTH_SECONDS config in
  let D := (inject_Z len_audio / 1000)%Q in
  0 <= len_audio ->
  0 < L ->
  from_file svc audio_path = Ok len_audio ->
  (forall p, export svc p = None) ->
  exists scratch' chunks,
    AudioExtractor.split_audio config svc scratch audio_path
    = (scratch', Some chunks) /\
    Z.of_nat (List.length chunks) = Qceiling (D / inject_Z L) /\
    forall i : nat,
      (i < List.length chunks)%nat ->
      exists p s e,
        nth_error chunks i = Some [VPath p; VFloat s; VFloat e] /\
        (s == inject_Z (Z.of_nat i * L))%Q /\
        (e == Qmin (inject_Z ((Z.of_nat i + 1) * L)) D)%Q /\
        (s < e)%Q /\
        ((S i < List.length chunks)%nat ->
         (e == inject_Z ((Z.of_nat i + 1) * L))%Q) /\
        (S i = List.length chunks -> (e == D)%Q).
Proof.
  intros L D Hlen HL Hfrom Hexp.
  pose proof (num_chunks_bounds len_audio L HL) as B. cbv zeta in B.
  pose proof (num_chunks_Z len_audio L HL) as Hn.
  set (n := - (- len_audio / (1000 * L))) in *.
  assert (Hn0 : 0 <= n) by nia.
  destruct (split_loop_ok config svc audio_path len_audio L Hexp (range n) scratch [])
    as [scratch' Hloop].
  exists scratch', (map (chunk_tuple config audio_path len_audio L) (range n)).
  split; [|split].
  - unfold AudioExtractor.split_audio, AudioExtractor.split_audio_try.
    rewrite Hfrom. fold L.
    destruct (Z.eqb_spec L 0) as [E|_]; [lia|].
    rewrite Hn, Hloop. reflexivity.
  - rewrite length_map, length_range. fold D in Hn. rewrite Hn. lia.
  - intros i Hi. rewrite length_map, length_range in Hi.
    assert (Hiz : 0 <= Z.of_nat i < n) by lia.
    destruct (window_ms len_audio L (Z.of_nat i) HL Hiz) as (Hlt & Hmid & Hlast).
    fold n in Hmid, Hlast.
    eexists _, _, _. split; [|split; [|split; [|split; [|split]]]].
    + rewrite nth_error_map, nth_error_range by exact Hi. reflexivity.
    + rewrite <- Z.mul_assoc, (Z.mul_comm L 1000), Z.mul_assoc.
      rewrite Z.mul_shuffle0. apply Q_of_ms.
    + destruct (Z.le_gt_cases len_audio ((Z.of_nat i + 1) * L * 1000)) as [Hle|Hgt].
      * rewrite Z.min_l by exact Hle.
        rewrite Q.min_r; [reflexivity|].
        rewrite <- (Q_of_ms ((Z.of_nat i + 1) * L)). now apply Q_ms_le.
      * rewrite Z.min_r by lia.
        rewrite Q_of_ms, Q.min_l; [reflexivity|].
        rewrite <- (Q_of_ms ((Z.of_nat i + 1) * L)). apply Q_ms_le. lia.
    + now apply Q_ms_lt.
    + rewrite length_map, length_range. intros Hs.
      rewrite Hmid by lia. apply Q_of_ms.
    + rewrite length_map, length_range. intros Hs.
      rewrite Hlast by lia. reflexivity.
Qed.

Lemma split_audio_windows_witness :
  exists scratch' chunks,
    AudioExtractor.split_audio cfg600 quiet [] lecture_wav
    = (scratch', Some chunks) /\
    Z.of_nat (List.length chunks)
    = Qceiling (inject_Z 1500000 / 1000 / inject_Z 600) /\
    forall i : nat,
      (i < List.length chunks)%nat ->
      exists p s e,
        nth_error chunks i = Some [VPath p; VFloat s; VFloat e] /\
        (s == inject_Z (Z.of_nat i * 600))%Q /\
        (e == Qmin (inject_Z ((Z.of_nat i + 1) * 600)) (inject_Z 1500000 / 1000))%Q /\
        (s < e)%Q /\
        ((S i < List.length chunks)%nat ->
         (e == inject_Z ((Z.of_nat i + 1) * 600))%Q) /\
        (S i = List.length chunks -> (e == inject_Z 1500000 / 1000)%Q).
Proof.
  apply (split_audio_windows cfg600 quiet [] lecture_wav 1500000);
    [lia | reflexivity | reflexivity | reflexivity].
Defined.

(** The scenario of the specification: 1500 seconds cut every 600 seconds. *)
Example split_audio_1500_600 :
  option_map (map tuple_times)
    (snd (AudioExtractor.split_audio cfg600 quiet [] lecture_wav))
  = Some [Some (0, 600); Some (600, 1200); Some (1200, 1500)]%Q.
Proof. reflexivity. Qed.

(* ------------------------------------------------------------------ *)
(** ** transcribe_all_chunks *)

Section TranscribeAll.
Variable svc : Services.

(** What the loop does when it returns: one result per chunk, stamped with
    its position. *)
Lemma transcribe_loop_stamps :
  forall chunks i acc results,
    Transcriber.transcribe_loop svc i chunks acc = Ok results ->
    List.length results = (List.length acc + List.length chunks)%nat /\
    firstn (List.length acc) results = acc /\
    forall k r,
      nth_error (skipn (List.length acc) results) k = Some r ->
      tr_chunk_index r = Some (i + Z.of_nat k).
Proof.
  induction chunks as [|c rest IH]; intros i acc results H.
  - cbn in H. injection H as <-. rewrite firstn_all, skipn_all, Nat.add_0_r.
    repeat split; auto. intros [|k] r; discriminate.
  - cbn [Transcriber.transcribe_loop] in H. unfold bind in H.
    destruct (Transcriber.unpack4 c) as [[[[a s] e] nm]|]; [|discriminate].
    destruct (Transcriber.transcribe_chunk svc a s e) as [t|]; [|discriminate].
    apply IH in H. destruct H as (Hlen & Hfirst & Hidx).
    rewrite length_app in Hlen, Hfirst, Hidx. cbn [List.length] in *.
    assert (Hfa : firstn (List.length acc) results = acc).
    { apply (f_equal (firstn (List.length acc))) in Hfirst.
      rewrite firstn_firstn, Nat.min_l in Hfirst by lia.
      rewrite Hfirst, firstn_app, firstn_all, Nat.sub_diag.
      cbn. now rewrite app_nil_r. }
    repeat split; [lia | exact Hfa |].
    intros k r Hk.
    assert (Hsplit : skipn (List.length acc) results
                     = Transcriber.stamp t i (Transcriber.py_str svc nm)
                       :: skipn (List.length acc + 1) results).
    { rewrite <- (firstn_skipn (List.length acc + 1) results) at 1.
      rewrite Hfirst, <- app_assoc, skipn_app, skipn_all, Nat.sub_diag.
      reflexivity. }
    rewrite Hsplit in Hk. destruct k as [|k].
    + cbn in Hk. injection Hk as <-. cbn. f_equal. lia.
    + cbn [nth_error] in Hk. apply Hidx in Hk. rewrite Hk. f_equal. lia.
Qed.

(** When [transcribe_all_chunks] returns, the list has the length of its
    input and result [k] carries [chunk_index = k]. *)
Lemma transcribe_all_chunks_stamps (chunks : list pytuple) results :
  Transcriber.transcribe_all_chunks svc chunks = Ok results ->
  List.length results = List.length chunks /\
  forall k r, nth_error results k = Some r -> tr_chunk_index r = Some (Z.of_nat k).
Proof.
  intros H. apply transcribe_loop_stamps in H.
  destruct H as (Hlen & _ & Hidx). split; [exact Hlen|].
  intros k r Hk. now apply Hidx.
Qed.

(** It does return on 4-tuples (path, float, float, name) whenever the
    speech-to-text service answers for every chunk. *)
Lemma transcribe_loop_total :
  forall chunks i acc,
    Forall (well_formed4 svc) chunks ->
    exists results, Transcriber.transcribe_loop svc i chunks acc = Ok results.
Proof.
  induction chunks as [|c rest IH]; intros i acc HF.
  - eexists. reflexivity.
  - inversion HF as [|? ? (p & s & e & nm & -> & Hok) HF']; subst.
    cbn [Transcriber.transcribe_loop Transcriber.unpack4 bind].
    unfold Transcriber.transcribe_chunk. cbn [Transcriber.as_path bind].
    destruct (transcriptions_create svc p); [|discriminate].
    cbn [bind Transcriber.as_float]. apply IH, HF'.
Qed.

(** A tuple made by [split_audio] cannot be unpacked into four names. *)
Lemma unpack4_chunk_tuple config audio_path len_audio chunk_length i :
  Transcriber.unpack4 (chunk_tuple config audio_path len_audio chunk_length i)
  = Raise (Exn ValueError "not enough values to unpack (expected 4, got 3)").
Proof. reflexivity. Qed.

(** Hence [transcribe_all_chunks] raises on every non-empty list that
    [split_audio] returns, whatever the services do. *)
Lemma transcribe_all_chunks_rejects (config : Config) (svc' : Services)
    scratch audio_path scratch' chunks :
  AudioExtractor.split_audio config svc' scratch audio_path = (scratch', Some chunks) ->
  chunks <> [] ->
  Transcriber.transcribe_all_chunks svc chunks
  = Raise (Exn ValueError "not enough values to unpack (expected 4, got 3)").
Proof.
  intros H Hne. apply split_audio_shape in H. destruct H as (m & n & ->).
  destruct (range n) as [|i rest]; [contradiction|]. reflexivity.
Qed.

End TranscribeAll.

(** C1 (evaluation at the failing input).  The three chunks that
    [split_audio] returns for 1500 seconds of audio are 3-tuples, and
    [transcribe_all_chunks], whose loop unpacks four names, raises
    [ValueError] on them instead of returning three results. *)
Theorem transcribe_all_chunks_on_split_audio_output :
  exists scratch' chunks,
    AudioExtractor.split_audio cfg600 quiet [] lecture_wav
    = (scratch', Some chunks) /\
    List.length chunks = 3%nat /\
    Transcriber.transcribe_all_chunks quiet chunks
    = Raise (Exn ValueError "not enough values to unpack (expected 4, got 3)").
Proof.
  eexists _, _. split; [reflexivity|]. split; reflexivity.
Qed.

(* ------------------------------------------------------------------ *)
(** ** The pipeline: process_video *)

Section Pipeline.
Variable config : Config.
Variable svc : Services.

Lemma same_stores_refl (self : VideoProcessor.t) : same_stores self self.
Proof. repeat split. Qed.

Lemma same_stores_scratch (self : VideoProcessor.t) (s : list Path) :
  same_stores self (VideoProcessor.set_scratch s self).
Proof. repeat split. Qed.

Lemma same_stores_cleanup (self self' : VideoProcessor.t) :
  same_stores self self' -> same_stores self (VideoProcessor.cleanup self').
Proof. intros (H1 & H2 & H3). repeat split; assumption. Qed.

(** No run of the [try] block of [process_video] gets past transcription:
    either it stops before, or [transcribe_all_chunks] raises on the
    3-tuples of [split_audio].  The stores and the video files are left
    as they were and the outcome is never [True]. *)
Lemma process_video_try_never_persists (video_path : Path) (self : VideoProcessor.t) :
  same_stores self (fst (VideoProcessor.process_video_try config svc video_path self)) /\
  snd (VideoProcessor.process_video_try config svc video_path self) <> Ok true.
Proof.
  unfold VideoProcessor.process_video_try, mbind, reads, gets, zoom, lift, ret.
  destruct (Database.video_exists svc _ _) as [b|e];
    [|split; [repeat split | discriminate]].
  destruct (b && _);
    [split; [repeat split | discriminate]|].
  unfold AudioExtractor.extract_audio.
  destruct (write_audiofile svc _ _);
    [split; [repeat split | discriminate]|].
  cbn [VideoProcessor.scratch VideoProcessor.set_scratch].
  match goal with
  | |- context [AudioExtractor.split_audio ?c ?s ?sc ?a] =>
      destruct (AudioExtractor.split_audio c s sc a) as [s2 [chunks|]] eqn:E
  end; cbn [fst snd];
    [|split; [repeat split | discriminate]].
  destruct chunks as [|c cs];
    [split; [repeat split | discriminate]|].
  rewrite (transcribe_all_chunks_rejects svc config svc _ _ _ _ E) by discriminate.
  split; [repeat split | discriminate].
Qed.

Lemma process_video_never_persists (video_path : Path) (self : VideoProcessor.t) :
  same_stores self (fst (VideoProcessor.process_video config svc self video_path)) /\
  snd (VideoProcessor.process_video config svc self video_path) = false.
Proof.
  pose proof (process_video_try_never_persists video_path self) as (H1 & H2).
  unfold VideoProcessor.process_video.
  destruct (VideoProcessor.process_video_try config svc video_path self)
    as [self' [[|]|e]]; cbn [fst snd] in *.
  - now contradiction H2.
  - now split.
  - split; [now apply same_stores_cleanup | reflexivity].
Qed.

(** C4. A video that the metadata store and the vector store both know is
    skipped: [process_video] returns [False] and leaves the whole state
    (metadata store, vector store, video files, scratch directory) exactly
    as it was. *)
Theorem process_video_skips_known_video
    (self : VideoProcessor.t) (video_path : Path) :
  Database.video_exists svc (VideoProcessor.database self) (name video_path)
  = Ok true ->
  In (name video_path)
     (VectorStore.get_all_video_names svc (VideoProcessor.vector_store self)) ->
  VideoProcessor.process_video config svc self video_path = (self, false).
Proof.
  intros Hdb Hvs.
  unfold VideoProcessor.process_video, VideoProcessor.process_video_try,
    mbind, reads, gets.
  rewrite Hdb.
  assert (E : existsb (String.eqb (name video_path))
                (VectorStore.get_all_video_names svc (VideoProcessor.vector_store self))
              = true).
  { apply existsb_exists. exists (name video_path).
    split; [exact Hvs | apply String.eqb_refl]. }
  rewrite E. reflexivity.
Qed.

(** C9. When loading the audio throws, or writing one of the chunks
    throws, [split_audio] returns [None]; and whenever [split_audio]
    returns [None] in a run that was not skipped and whose audio was
    extracted, [process_video] stops there with outcome [False], exactly as
    it does for an empty list of chunks: the state is the one [split_audio]
    left, nothing else is run. *)
Theorem split_audio_failure_aborts
    (self : VideoProcessor.t) (video_path : Path) :
  let audio_path :=
    joinpath (AudioExtractor.temp_dir config) (stem video_path) ".wav" in
  let scratch1 := audio_path :: VideoProcessor.scratch self in
  (forall e, from_file svc audio_path = Raise e ->
             snd (AudioExtractor.split_audio config svc scratch1 audio_path) = None) /\
  (forall len_audio i e,
      from_file svc audio_path = Ok len_audio ->
      In i (range (Qceiling (inject_Z len_audio / 1000
                             / inject_Z (CHUNK_LENGTH_SECONDS config)))) ->
      export svc (joinpath (AudioExtractor.temp_dir config)
                    (stem audio_path ++ "_" ++ str_int i) ".wav") = Some e ->
      snd (AudioExtractor.split_audio config svc scratch1 audio_path) = None) /\
  (forall known scratch2 chunks,
      Database.video_exists svc (VideoProcessor.database self) (name video_path)
      = Ok known ->
      known && existsb (String.eqb (name video_path))
                 (VectorStore.get_all_video_names svc (VideoProcessor.vector_store self))
      = false ->
      write_audiofile svc video_path audio_path = None ->
      AudioExtractor.split_audio config svc scratch1 audio_path = (scratch2, chunks) ->
      VideoProcessor.falsy chunks = true ->
      VideoProcessor.process_video config svc self video_path
      = (VideoProcessor.set_scratch scratch2 self, false)).
Proof.
  intros audio_path scratch1. split; [|split].
  - intros e He.
    unfold AudioExtractor.split_audio, AudioExtractor.split_audio_try.
    now rewrite He.
  - intros len_audio i e Hlen Hi He.
    unfold AudioExtractor.split_audio, AudioExtractor.split_audio_try.
    rewrite Hlen.
    destruct (CHUNK_LENGTH_SECONDS config =? 0); [reflexivity|].
    destruct (split_loop_export_fails config svc audio_path len_audio
                (CHUNK_LENGTH_SECONDS config) i e He _ scratch1 [] Hi)
      as (s' & e' & ->).
    reflexivity.
  - intros known scratch2 chunks Hdb Hskip Hw Hsplit Hfalsy.
    unfold VideoProcessor.process_video, VideoProcessor.process_video_try,
      mbind, reads, gets, zoom, ret.
    rewrite Hdb, Hskip.
    unfold AudioExtractor.extract_audio. fold audio_path. rewrite Hw.
    cbn [VideoProcessor.scratch VideoProcessor.set_scratch].
    fold scratch1. rewrite Hsplit.
    destruct chunks as [[|c cs]|]; try discriminate; reflexivity.
Qed.

End Pipeline.

Lemma process_video_skips_known_video_witness :
  (Database.video_exists quiet (VideoProcessor.database processed) (name lecture_mp4)
   = Ok true /\
   In (name lecture_mp4)
      (VectorStore.get_all_video_names quiet (VideoProcessor.vector_store processed))) /\
  VideoProcessor.process_video cfg600 quiet processed lecture_mp4 = (processed, false).
Proof.
  assert (H1 : Database.video_exists quiet (VideoProcessor.database processed)
                 (name lecture_mp4) = Ok true) by reflexivity.
  assert (H2 : In (name lecture_mp4)
                 (VectorStore.get_all_video_names quiet
                    (VideoProcessor.vector_store processed)))
    by (left; reflexivity).
  split; [split; assumption|].
  exact (process_video_skips_known_video cfg600 quiet processed lecture_mp4 H1 H2).
Defined.

Lemma split_audio_failure_aborts_witness :
  snd (AudioExtractor.split_audio cfg600 deaf [lecture_wav] lecture_wav) = None /\
  snd (AudioExtractor.split_audio cfg600 full_disk [lecture_wav] lecture_wav) = None /\
  VideoProcessor.process_video cfg600 deaf half_processed lecture_mp4
  = (VideoProcessor.set_scratch [lecture_wav] half_processed, false).
Proof.
  split; [|split].
  - destruct (split_audio_failure_aborts cfg600 deaf half_processed lecture_mp4)
      as (H & _ & _).
    apply (H (Exn ServiceError "could not decode the audio")). reflexivity.
  - destruct (split_audio_failure_aborts cfg600 full_disk half_processed lecture_mp4)
      as (_ & H & _).
    apply (H 1500000 1 (Exn ServiceError "no space left on device"));
      [reflexivity | right; left; reflexivity | reflexivity].
  - destruct (split_audio_failure_aborts cfg600 deaf half_processed lecture_mp4)
      as (_ & _ & H).
    apply (H true [lecture_wav] None); reflexivity.
Defined.

(* ------------------------------------------------------------------ *)
(** ** The pipeline: delete_video *)

Section DeleteVideo.
Variable svc : Services.

(** Both store-level deletions report a boolean and never raise. *)
Lemma Database_delete_video_reports (video_name : string) (d : Database.db) :
  exists d' ok, Database.delete_video svc video_name d = (d', Ok ok).
Proof.
  unfold Database.delete_video. destruct (Database.execute svc _); eauto.
Qed.

Lemma delete_by_video_name_reports (video_name : string) (v : VectorStore.vs) :
  exists v' ok, VectorStore.delete_by_video_name svc video_name v = (v', Ok ok).
Proof.
  unfold VectorStore.delete_by_video_name.
  destruct (VectorStore.chroma_get svc v (Some video_name)) as [results|]; eauto.
  destruct (map e_id results) as [|i ids]; eauto.
  destruct (VectorStore.chroma_delete svc (i :: ids) v) as [v' [[]|]]; eauto.
Qed.

(** When the metadata store knows the video, the outcome is the
    conjunction of the two reports. *)
Lemma delete_video_known (video_name : string) (self : VideoProcessor.t) :
  Database.video_exists svc (VideoProcessor.database self) video_name = Ok true ->
  exists d' db_ok v' vs_ok,
    Database.delete_video svc video_name (VideoProcessor.database self)
    = (d', Ok db_ok) /\
    VectorStore.delete_by_video_name svc video_name (VideoProcessor.vector_store self)
    = (v', Ok vs_ok) /\
    VideoProcessor.delete_video svc video_name self
    = (VideoProcessor.set_vector_store v' (VideoProcessor.set_database d' self),
       Ok (db_ok && vs_ok)).
Proof.
  intros Hk.
  destruct (Database_delete_video_reports video_name (VideoProcessor.database self))
    as (d' & db_ok & Hd).
  destruct (delete_by_video_name_reports video_name (VideoProcessor.vector_store self))
    as (v' & vs_ok & Hv).
  exists d', db_ok, v', vs_ok. repeat split; try assumption.
  unfold VideoProcessor.delete_video, mbind, reads, VideoProcessor.on_database,
    VideoProcessor.on_vector_store, zoom, ret.
  rewrite Hk, Hd. cbn [VideoProcessor.vector_store VideoProcessor.set_database].
  rewrite Hv. now destruct db_ok, vs_ok.
Qed.

(** When it does not, the vector store is still asked to delete, and then
    reading [db_sucess] raises. *)
Lemma delete_video_unknown (video_name : string) (self : VideoProcessor.t) :
  Database.video_exists svc (VideoProcessor.database self) video_name = Ok false ->
  exists v' vs_ok,
    VectorStore.delete_by_video_name svc video_name (VideoProcessor.vector_store self)
    = (v', Ok vs_ok) /\
    VideoProcessor.delete_video svc video_name self
    = (VideoProcessor.set_vector_store v' self, Raise unbound_db_sucess).
Proof.
  intros Hk.
  destruct (delete_by_video_name_reports video_name (VideoProcessor.vector_store self))
    as (v' & vs_ok & Hv).
  exists v', vs_ok. split; [assumption|].
  unfold VideoProcessor.delete_video, mbind, reads, VideoProcessor.on_vector_store,
    zoom, ret.
  rewrite Hk, Hv. reflexivity.
Qed.

End DeleteVideo.

(** C3 (evaluation at the failing input).  For a video that the metadata
    store does not know, the pipeline-level [delete_video] deletes the
    video's entries from the vector store and then raises
    [UnboundLocalError] instead of returning a boolean. *)
Theorem delete_video_unknown_to_metadata_store_raises :
  Database.video_exists quiet (VideoProcessor.database orphaned) "lecture.mp4"
  = Ok false /\
  exists self',
    VideoProcessor.delete_video quiet "lecture.mp4" orphaned
    = (self', Raise unbound_db_sucess) /\
    VectorStore.entries (VideoProcessor.vector_store self')
    = [entry_of "id-2" "talk.mp4" 0].
Proof.
  split; [reflexivity|]. eexists. split; reflexivity.
Qed.

(* ------------------------------------------------------------------ *)
(** ** The relocation loop finds a free name within its fuel *)

Lemma list_ascii_append (a b : string) :
  list_ascii_of_string (a ++ b)
  = (list_ascii_of_string a ++ list_ascii_of_string b)%list.
Proof. induction a as [|c a IH]; cbn; [reflexivity | now rewrite IH]. Qed.

Lemma list_ascii_inj (a b : string) :
  list_ascii_of_string a = list_ascii_of_string b -> a = b.
Proof.
  intros H. apply (f_equal string_of_list_ascii) in H.
  now rewrite !string_of_list_ascii_of_string in H.
Qed.

Lemma append_inv_head (a x y : string) : a ++ x = a ++ y -> x = y.
Proof.
  intros H. apply list_ascii_inj. apply (f_equal list_ascii_of_string) in H.
  rewrite !list_ascii_append in H. now apply app_inv_head in H.
Qed.

Lemma append_inv_tail (x y s : string) : x ++ s = y ++ s -> x = y.
Proof.
  intros H. apply list_ascii_inj. apply (f_equal list_ascii_of_string) in H.
  rewrite !list_ascii_append in H. now apply app_inv_tail in H.
Qed.

Lemma append_assoc (a b c : string) : (a ++ b) ++ c = a ++ (b ++ c).
Proof. induction a as [|x a IH]; cbn; [reflexivity | now rewrite IH]. Qed.

Lemma length_append (a b : string) :
  String.length (a ++ b) = (String.length a + String.length b)%nat.
Proof. induction a as [|x a IH]; cbn; [reflexivity | now rewrite IH]. Qed.

Lemma to_uint_nonnil (p : positive) : Pos.to_uint p <> Nil.
Proof.
  intros E. apply (f_equal Pos.of_uint) in E.
  rewrite DecimalPos.Unsigned.of_to in E. discriminate.
Qed.

Lemma str_int_inj (j k : Z) : str_int j = str_int k -> j = k.
Proof.
  unfold str_int. intros H.
  apply DecimalZ.to_int_inj.
  assert (P : forall n, Z.to_int n <> Pos Nil /\ Z.to_int n <> Neg Nil).
  { intros [|p|p]; cbn; split; try discriminate;
      intros [= E]; now apply to_uint_nonnil in E. }
  apply (f_equal NilZero.int_of_string) in H.
  rewrite !NilZero.isi in H by apply P. now injection H.
Qed.

Section Relocation.
Variable config : Config.
Variable video_path : Path.

Lemma candidate_inj (j k : nat) :
  str_path (candidate config video_path j) = str_path (candidate config video_path k) ->
  j = k.
Proof.
  destruct j as [|j], k as [|k]; cbn [candidate]; unfold joinpath, str_path, name;
    cbn [parent stem suffix]; intros H; [reflexivity| | |];
    repeat apply append_inv_head in H.
  - rewrite !append_assoc in H. apply append_inv_head in H.
    apply (f_equal String.length) in H. cbn in H. rewrite length_append in H. lia.
  - rewrite !append_assoc in H. apply append_inv_head in H.
    apply (f_equal String.length) in H. cbn in H. rewrite length_append in H. lia.
  - apply append_inv_tail, append_inv_head in H.
    apply (append_inv_head "_") in H. apply str_int_inj in H. lia.
Qed.

(** Either the loop stops on a free name, or every name it tried exists. *)
Lemma next_free_visits (fs : list Path) :
  forall fuel k,
    VideoProcessor.path_exists fs
      (VideoProcessor.next_free config fuel fs video_path (Z.of_nat k + 1)
         (candidate config video_path k)) = false \/
    forall j, (k <= j < k + fuel)%nat ->
              VideoProcessor.path_exists fs (candidate config video_path j) = true.
Proof.
  induction fuel as [|fuel IH]; intros k.
  - right. intros j Hj. lia.
  - cbn [VideoProcessor.next_free].
    destruct (VideoProcessor.path_exists fs (candidate config video_path k)) eqn:E;
      [|now left].
    replace (Z.of_nat k + 1) with (Z.of_nat (S k)) by lia.
    change (joinpath (VIDEOS_FINISHED_PATH config)
              (stem video_path ++ "_" ++ str_int (Z.of_nat (S k))) (suffix video_path))
      with (candidate config video_path (S k)).
    destruct (IH (S k)) as [H|H]; [now left|].
    right. intros j Hj.
    destruct (Nat.eq_dec j k) as [->|Hne]; [exact E|]. apply H. lia.
Qed.

(** The path [process_video] moves the video to does not exist yet. *)
Lemma next_free_is_free (fs : list Path) :
  VideoProcessor.path_exists fs
    (VideoProcessor.next_free config (S (List.length fs)) fs video_path 1
       (joinpath (VIDEOS_FINISHED_PATH config) (stem video_path) (suffix video_path)))
  = false.
Proof.
  destruct (next_free_visits fs (S (List.length fs)) 0) as [H|H]; [exact H|].
  exfalso.
  set (tried := map (fun k => str_path (candidate config video_path k))
                    (seq 0 (S (List.length fs)))).
  assert (Hnd : NoDup tried).
  { apply Injective_map_NoDup; [|apply seq_NoDup].
    intros j k. apply candidate_inj. }
  assert (Hincl : incl tried (map str_path fs)).
  { intros s Hs. apply in_map_iff in Hs. destruct Hs as (k & <- & Hk).
    apply in_seq in Hk. specialize (H k ltac:(lia)).
    apply existsb_exists in H. destruct H as (f & Hf & Heq).
    apply String.eqb_eq in Heq. rewrite <- Heq. now apply in_map. }
  pose proof (NoDup_incl_length Hnd Hincl) as Hlen.
  unfold tried in Hlen. rewrite !length_map, length_seq in Hlen. lia.
Qed.

End Relocation.

(* ------------------------------------------------------------------ *)
(** ** What it means for the vector store to know a video *)

Lemma In_add_sorted (x z : string) (l : list string) :
  In z (VectorStore.add_sorted x l) <-> z = x \/ In z l.
Proof.
  induction l as [|y l IH]; cbn.
  - intuition.
  - destruct (String.compare x y) eqn:E; cbn.
    + apply String.compare_eq_iff in E. subst. intuition.
    + intuition.
    + rewrite IH. intuition.
Qed.

Section KnownVideos.
Variable svc : Services.

Lemma In_collect_names (n : string) :
  forall metadatas acc names,
    VectorStore.collect_names metadatas acc = Ok names ->
    (In n names <->
     In n acc \/
     (n <> "" /\ exists md, In md metadatas /\
                            md_lookup md "video_name" = Some (MStr n))).
Proof.
  induction metadatas as [|md rest IH]; intros acc names H.
  - cbn in H. injection H as <-. split; [auto|].
    intros [H|(_ & md & [] & _)]. exact H.
  - cbn [VectorStore.collect_names] in H.
    destruct (md_lookup md "video_name") as [[s|z|q]|] eqn:E; [| | |discriminate].
    + destruct (String.eqb_spec s "") as [->|Hs].
      * rewrite (IH _ _ H). split.
        -- intros [Ha|(Hn & md' & Hin & Hl)]; [auto|].
           right. split; [exact Hn|]. exists md'. split; [now right | exact Hl].
        -- intros [Ha|(Hn & md' & [<-|Hin] & Hl)]; [auto | congruence |].
           right. split; [exact Hn|]. now exists md'.
      * rewrite (IH _ _ H), In_add_sorted. split.
        -- intros [[->|Ha]|(Hn & md' & Hin & Hl)].
           ++ right. split; [exact Hs|]. exists md. split; [now left | exact E].
           ++ now left.
           ++ right. split; [exact Hn|]. exists md'. split; [now right | exact Hl].
        -- intros [Ha|(Hn & md' & [<-|Hin] & Hl)].
           ++ left. now right.
           ++ left. left. congruence.
           ++ right. split; [exact Hn|]. now exists md'.
    + destruct (z =? 0); [|discriminate]. rewrite (IH _ _ H). split.
      * intros [Ha|(Hn & md' & Hin & Hl)]; [auto|].
        right. split; [exact Hn|]. exists md'. split; [now right | exact Hl].
      * intros [Ha|(Hn & md' & [<-|Hin] & Hl)]; [auto | congruence |].
        right. split; [exact Hn|]. now exists md'.
    + destruct (Qeq_bool q 0); [|discriminate]. rewrite (IH _ _ H). split.
      * intros [Ha|(Hn & md' & Hin & Hl)]; [auto|].
        right. split; [exact Hn|]. exists md'. split; [now right | exact Hl].
      * intros [Ha|(Hn & md' & [<-|Hin] & Hl)]; [auto | congruence |].
        right. split; [exact Hn|]. now exists md'.
Qed.

(** A name listed by [get_all_video_names] is a non-empty name carried by
    the metadata of a stored entry. *)
Lemma In_get_all_video_names (v : VectorStore.vs) (n : string) :
  In n (VectorStore.get_all_video_names svc v) ->
  n <> "" /\
  exists e, In e (VectorStore.entries v) /\
            md_lookup (doc_metadata (e_doc e)) "video_name" = Some (MStr n).
Proof.
  unfold VectorStore.get_all_video_names, VectorStore.chroma_get, bind.
  destruct (VectorStore.execute svc VsGet); [|contradiction].
  destruct (VectorStore.collect_names _ []) as [names|] eqn:E; [|contradiction].
  intros H. apply (In_collect_names n _ _ _ E) in H.
  destruct H as [[]|(Hn & md & Hin & Hl)]. split; [exact Hn|].
  apply in_map_iff in Hin. destruct Hin as (e & <- & He). eauto.
Qed.

End KnownVideos.

(* ------------------------------------------------------------------ *)
(** ** The metadata store: chunk indices of a video *)




Section ChunkIndices.
Variable svc : Services.




End ChunkIndices.




(** The persistence stage of [process_video] (lines 59-103), run for a
    video that the metadata store already holds but the vector store does
    not, inserts the chunk rows a second time. *)
Example persist_again_repeats_indices :
  stored_indices
    (VideoProcessor.database
       (fst (VideoProcessor.persist cfg600 quiet lecture_mp4 lecture_chunks4
               [lecture_transcript 0; lecture_transcript 1] half_processed)))
    "lecture.mp4" = [0; 1; 0; 1].
Proof. reflexivity. Qed.

(* ------------------------------------------------------------------ *)
(** ** The chat engine *)

Lemma In_insert_by_score (x y : Document * Q) (l : list (Document * Q)) :
  In x (VectorStore.insert_by_score y l) -> x = y \/ In x l.
Proof.
  induction l as [|z l IH]; cbn.
  - intros [<-|[]]; auto.
  - destruct (Qle_bool (snd y) (snd z)); cbn.
    + intros [<-|H]; auto.
    + intros [<-|H]; auto. destruct (IH H); auto.
Qed.

Lemma In_sorted_by_score (x : Document * Q) (l : list (Document * Q)) :
  In x (fold_right VectorStore.insert_by_score [] l) -> In x l.
Proof.
  induction l as [|y l IH]; cbn; [auto|].
  intros H. apply In_insert_by_score in H. destruct H as [->|H]; auto.
Qed.

Lemma In_firstn {A} (n : nat) (l : list A) (x : A) :
  In x (firstn n l) -> In x l.
Proof.
  intros H. rewrite <- (firstn_skipn n l). apply in_or_app. now left.
Qed.

Lemma mdval_eqb_MStr (v : mdval) (s : string) :
  VectorStore.mdval_eqb v (MStr s) = true -> v = MStr s.
Proof.
  destruct v; cbn; try discriminate. intros H.
  apply String.eqb_eq in H. now subst.
Qed.

Section Chat.
Variable config : Config.
Variable svc : Services.

(** Every retrieved document is the document of a stored entry that
    satisfies the retriever's filter. *)
Lemma retriever_invoke_sound (v : VectorStore.vs) (r : VectorStore.Retriever)
    (query : string) (docs : list Document) :
  VectorStore.retriever_invoke svc v r query = Ok docs ->
  Forall (fun d => exists e, In e (VectorStore.entries v) /\ e_doc e = d /\
                             VectorStore.matches_opt (VectorStore.r_filter r) e = true)
         docs.
Proof.
  unfold VectorStore.retriever_invoke, VectorStore.similarity_search_with_score, bind.
  destruct (VectorStore.execute svc _); [|discriminate].
  intros H. injection H as <-.
  apply Forall_forall. intros d Hd.
  apply in_map_iff in Hd. destruct Hd as ([d' q] & <- & Hd).
  apply In_firstn, In_sorted_by_score, in_map_iff in Hd.
  destruct Hd as (e & He & Hin). injection He as <- _.
  apply filter_In in Hin. exists e. tauto.
Qed.

(** The two ways a turn can go. *)
Lemma ask_try_cases (retriever : VectorStore.Retriever)
    (system : string -> string) (question : string) (self : RAGChat.t) :
  (exists e, raised_by_turn svc self retriever system question e /\
             RAGChat.ask_try svc retriever system question self = (self, Raise e)) \/
  (exists docs a,
      VectorStore.retriever_invoke svc (RAGChat.vector_store self) retriever question
      = Ok docs /\
      llm_invoke svc {| p_system := system (RAGChat._format_docs svc docs);
                        p_chat_history := RAGChat.chat_history self;
                        p_human := question |} = Ok a /\
      RAGChat.ask_try svc retriever system question self
      = (RAGChat.remember question a self,
         Ok {| RAGChat.answer := a;
               RAGChat.sources := map RAGChat.source_of docs |})).
Proof.
  unfold RAGChat.ask_try, raised_by_turn, RAGChat.chain_invoke, mbind, reads,
    modify, ret, bind.
  destruct (VectorStore.retriever_invoke svc _ retriever question) as [docs|e].
  - destruct (llm_invoke svc _) as [a|e] eqn:El.
    + right. exists docs, a. auto.
    + left. exists e. split; [right; exists docs; auto | reflexivity].
  - left. exists e. auto.
Qed.

Lemma raised_by_turn_ask_try retriever system question self e :
  raised_by_turn svc self retriever system question e ->
  RAGChat.ask_try svc retriever system question self = (self, Raise e).
Proof.
  intros Hr.
  destruct (ask_try_cases retriever system question self)
    as [(e' & Hr' & ->)|(docs & a & Hd & Hl & _)].
  - f_equal. f_equal.
    destruct Hr as [Hr|(d1 & Hd1 & Hl1)], Hr' as [Hr'|(d2 & Hd2 & Hl2)]; congruence.
  - destruct Hr as [Hr|(d1 & Hd1 & Hl1)]; congruence.
Qed.

(** C7. Every source returned by [ask_with_video_filter] comes from a
    stored entry whose metadata [video_name] is exactly the filter
    argument, and carries that name. *)
Theorem ask_with_video_filter_sources (self : RAGChat.t)
    (question video_name : string) :
  Forall (fun s =>
            RAGChat.video_name s = MStr video_name /\
            exists e, In e (VectorStore.entries (RAGChat.vector_store self)) /\
                      md_lookup (doc_metadata (e_doc e)) "video_name"
                      = Some (MStr video_name) /\
                      s = RAGChat.source_of (e_doc e))
         (RAGChat.sources
            (snd (RAGChat.ask_with_video_filter config svc self question video_name))).
Proof.
  unfold RAGChat.ask_with_video_filter, RAGChat.or_apology.
  destruct (ask_try_cases (filtered_retriever config video_name)
              (RAGChat.system_one video_name) question self)
    as [(e & _ & H)|(docs & a & Hd & _ & H)];
    unfold filtered_retriever in H; rewrite H; cbn [snd RAGChat.sources];
    [constructor|].
  apply retriever_invoke_sound in Hd.
  apply Forall_map. revert Hd. apply Forall_impl.
  intros d (e & Hin & <- & Hm). cbn in Hm. unfold VectorStore.matches in Hm.
  cbn [fst snd] in Hm.
  destruct (md_lookup (doc_metadata (e_doc e)) "video_name") as [v|] eqn:Ev;
    [|discriminate].
  apply mdval_eqb_MStr in Hm. subst v.
  split.
  - unfold RAGChat.source_of, md_get. cbn [RAGChat.video_name]. now rewrite Ev.
  - exists e. auto.
Qed.

(** C8. When an exception is raised during retrieval or during generation,
    [ask] and [ask_with_video_filter] return (they do not raise) an answer
    made of the fixed apology followed by the text of the exception, with
    an empty list of sources. *)
Theorem ask_reports_exception (self : RAGChat.t) (question video_name : string)
    (e : exn) :
  (raised_by_turn svc self (VectorStore.get_retriever config) RAGChat.system_all
     question e ->
   snd (RAGChat.ask config svc self question) = apology e) /\
  (raised_by_turn svc self (filtered_retriever config video_name)
     (RAGChat.system_one video_name) question e ->
   snd (RAGChat.ask_with_video_filter config svc self question video_name)
   = apology e).
Proof.
  split; intros Hr; apply raised_by_turn_ask_try in Hr;
    unfold RAGChat.ask, RAGChat.ask_with_video_filter, RAGChat.or_apology;
    unfold filtered_retriever in Hr; rewrite Hr; reflexivity.
Qed.

(** C10. When a turn ends in the error branch the engine, and with it the
    conversation history, is exactly what it was before the call; the
    question and the answer are appended to the history only when
    retrieval and generation both succeeded. *)
Theorem ask_error_keeps_history (self : RAGChat.t) (question video_name : string) :
  (forall e,
      raised_by_turn svc self (VectorStore.get_retriever config) RAGChat.system_all
        question e ->
      fst (RAGChat.ask config svc self question) = self) /\
  (forall e,
      raised_by_turn svc self (filtered_retriever config video_name)
        (RAGChat.system_one video_name) question e ->
      fst (RAGChat.ask_with_video_filter config svc self question video_name) = self) /\
  (RAGChat.chat_history (fst (RAGChat.ask config svc self question))
   <> RAGChat.chat_history self ->
   exists a,
     RAGChat.answer (snd (RAGChat.ask config svc self question)) = a /\
     RAGChat.chat_history (fst (RAGChat.ask config svc self question))
     = (RAGChat.chat_history self ++ [HumanMessage question; AIMessage a])%list /\
     forall e, ~ raised_by_turn svc self (VectorStore.get_retriever config)
                   RAGChat.system_all question e) /\
  (RAGChat.chat_history
     (fst (RAGChat.ask_with_video_filter config svc self question video_name))
   <> RAGChat.chat_history self ->
   exists a,
     RAGChat.answer
       (snd (RAGChat.ask_with_video_filter config svc self question video_name)) = a /\
     RAGChat.chat_history
       (fst (RAGChat.ask_with_video_filter config svc self question video_name))
     = (RAGChat.chat_history self ++ [HumanMessage question; AIMessage a])%list /\
     forall e, ~ raised_by_turn svc self (filtered_retriever config video_name)
                   (RAGChat.system_one video_name) question e).
Proof.
  assert (G : forall retriever system,
             (forall e, raised_by_turn svc self retriever system question e ->
                        fst (RAGChat.or_apology
                               (RAGChat.ask_try svc retriever system question) self)
                        = self) /\
             (RAGChat.chat_history
                (fst (RAGChat.or_apology
                        (RAGChat.ask_try svc retriever system question) self))
              <> RAGChat.chat_history self ->
              exists a,
                RAGChat.answer
                  (snd (RAGChat.or_apology
                          (RAGChat.ask_try svc retriever system question) self)) = a /\
                RAGChat.chat_history
                  (fst (RAGChat.or_apology
                          (RAGChat.ask_try svc retriever system question) self))
                = (RAGChat.chat_history self ++ [HumanMessage question; AIMessage a])%list /\
                forall e, ~ raised_by_turn svc self retriever system question e)).
  { intros retriever system. split.
    - intros e Hr. apply raised_by_turn_ask_try in Hr.
      unfold RAGChat.or_apology. now rewrite Hr.
    - unfold RAGChat.or_apology.
      destruct (ask_try_cases retriever system question self)
        as [(e & _ & E)|(docs & a & Hd & Hl & E)]; rewrite E; cbn [fst snd].
      + intros H. now contradiction H.
      + intros _. exists a. repeat split.
        intros e Hr. apply raised_by_turn_ask_try in Hr. congruence. }
  destruct (G (VectorStore.get_retriever config) RAGChat.system_all) as (G1 & G2).
  destruct (G (filtered_retriever config video_name) (RAGChat.system_one video_name))
    as (G3 & G4).
  repeat split; assumption.
Qed.

End Chat.

(** A filtered turn over the sample store: the entry of [talk.mp4] is not
    cited. *)
Example ask_with_video_filter_lecture :
  map RAGChat.video_name
      (RAGChat.sources
         (snd (RAGChat.ask_with_video_filter cfg600 quiet session
                 "what is said?" "lecture.mp4")))
  = [MStr "lecture.mp4"; MStr "lecture.mp4"] /\
  map RAGChat.video_name
      (RAGChat.sources (snd (RAGChat.ask cfg600 quiet session "what is said?")))
  = [MStr "lecture.mp4"; MStr "lecture.mp4"; MStr "talk.mp4"].
Proof. split; reflexivity. Qed.

Lemma ask_reports_exception_witness :
  snd (RAGChat.ask cfg600 mute session "what is said?")
  = apology (Exn ServiceError "model unavailable") /\
  snd (RAGChat.ask_with_video_filter cfg600 blind session "what is said?"
         "lecture.mp4")
  = apology (Exn ServiceError "embedding service unavailable").
Proof.
  split.
  - apply (proj1 (ask_reports_exception cfg600 mute session "what is said?"
                    "lecture.mp4" (Exn ServiceError "model unavailable"))).
    right. eexists. split; reflexivity.
  - apply (proj2 (ask_reports_exception cfg600 blind session "what is said?"
                    "lecture.mp4" (Exn ServiceError "embedding service unavailable"))).
    left. reflexivity.
Defined.

Lemma ask_error_keeps_history_witness :
  fst (RAGChat.ask cfg600 mute session "what is said?") = session /\
  fst (RAGChat.ask_with_video_filter cfg600 blind session "what is said?"
         "lecture.mp4") = session.
Proof.
  destruct (ask_error_keeps_history cfg600 mute session "what is said?" "lecture.mp4")
    as (H1 & _).
  destruct (ask_error_keeps_history cfg600 blind session "what is said?" "lecture.mp4")
    as (_ & H2 & _).
  split.
  - apply (H1 (Exn ServiceError "model unavailable")).
    right. eexists. split; reflexivity.
  - apply (H2 (Exn ServiceError "embedding service unavailable")).
    left. reflexivity.
Defined.

(** A successful turn appends the question and the answer. *)
Example ask_success_appends :
  RAGChat.chat_history (fst (RAGChat.ask cfg600 quiet session "what is said?"))
  = [HumanMessage "hello"; AIMessage "hi";
     HumanMessage "what is said?"; AIMessage "an answer"].
Proof. reflexivity. Qed.

(* ================================================================== *)
(** * Further properties of the code *)

(* ------------------------------------------------------------------ *)
(** ** Transcription of well-formed chunks *)

Section TranscribeWellFormed.
Variable svc : Services.

Lemma transcribe_loop_well_formed :
  forall chunks i acc,
    Forall (well_formed4 svc) chunks ->
    exists results,
      Transcriber.transcribe_loop svc (Z.of_nat i) chunks acc
      = Ok (acc ++ results)%list /\
      List.length results = List.length chunks /\
      forall k r, nth_error results k = Some r ->
                  exists chunk, nth_error chunks k = Some chunk /\
                                transcribed_as svc (i + k) chunk r.
Proof.
  induction chunks as [|c rest IH]; intros i acc HF.
  - exists []. cbn. rewrite app_nil_r. repeat split.
    intros [|k] r; discriminate.
  - inversion HF as [|? ? (p & s & e & nm & -> & Hok) HF']; subst.
    cbn [Transcriber.transcribe_loop Transcriber.unpack4 bind].
    unfold Transcriber.transcribe_chunk. cbn [Transcriber.as_path bind].
    destruct (transcriptions_create svc p) as [text|] eqn:Et; [|discriminate].
    cbn [bind Transcriber.as_float].
    replace (Z.of_nat i + 1) with (Z.of_nat (S i)) by lia.
    match goal with
    | |- context [Transcriber.transcribe_loop svc _ rest (acc ++ [?x])%list] =>
        destruct (IH (S i) (acc ++ [x])%list HF') as (rs & Hrs & Hlen & Hk);
        exists (x :: rs)
    end.
    rewrite <- app_assoc in Hrs. split; [exact Hrs|].
    split; [cbn; now rewrite Hlen|].
    intros [|k] r Hr.
    + cbn in Hr. injection Hr as <-. eexists. split; [reflexivity|].
      rewrite Nat.add_0_r.
      exists p, s, e, nm, text. repeat split; assumption || reflexivity.
    + cbn [nth_error] in Hr. destruct (Hk k r Hr) as (chunk & Hc & Ht).
      exists chunk. split; [exact Hc|].
      replace (i + S k)%nat with (S i + k)%nat by lia. exact Ht.
Qed.

(** X1. On a list of 4-tuples (path, start, end, name) whose audio the
    speech-to-text service transcribes, [transcribe_all_chunks] returns one
    result per chunk, in order; result [k] carries the text of chunk [k],
    its start and end times, their difference as duration, the two
    formatted times, [chunk_index = k] and the name as a string. *)
Theorem transcribe_all_chunks_well_formed (chunks : list pytuple) :
  Forall (well_formed4 svc) chunks ->
  exists results,
    Transcriber.transcribe_all_chunks svc chunks = Ok results /\
    List.length results = List.length chunks /\
    forall k r, nth_error results k = Some r ->
                exists chunk, nth_error chunks k = Some chunk /\
                              transcribed_as svc k chunk r.
Proof.
  intros HF. destruct (transcribe_loop_well_formed chunks 0 [] HF)
    as (rs & H & Hlen & Hk).
  exists rs. repeat split; assumption.
Qed.

Lemma transcribe_loop_propagates :
  forall before_ i acc p s e nm after_ err,
    Forall (well_formed4 svc) before_ ->
    transcriptions_create svc p = Raise err ->
    Transcriber.transcribe_loop svc i
      (before_ ++ [VPath p; VFloat s; VFloat e; nm] :: after_) acc
    = Raise err.
Proof.
  induction before_ as [|c rest IH]; intros i acc p s e nm after_ err HF Hp.
  - cbn [Datatypes.app Transcriber.transcribe_loop Transcriber.unpack4 bind].
    unfold Transcriber.transcribe_chunk. cbn [Transcriber.as_path bind].
    now rewrite Hp.
  - inversion HF as [|? ? (p' & s' & e' & nm' & -> & Hok) HF']; subst.
    cbn [Datatypes.app Transcriber.transcribe_loop Transcriber.unpack4 bind].
    unfold Transcriber.transcribe_chunk. cbn [Transcriber.as_path bind].
    destruct (transcriptions_create svc p'); [|discriminate].
    cbn [bind Transcriber.as_float]. now apply IH.
Qed.

(** X2. One chunk that the speech-to-text service fails on aborts the
    whole call: when the chunks before it are well formed,
    [transcribe_all_chunks] raises the service's exception and returns no
    partial list, whatever follows the failing chunk. *)
Theorem transcribe_all_chunks_propagates
    (before_ after_ : list pytuple) (p : Path) (s e : Q) (nm : pyval) (err : exn) :
  Forall (well_formed4 svc) before_ ->
  transcriptions_create svc p = Raise err ->
  Transcriber.transcribe_all_chunks svc
    (before_ ++ [VPath p; VFloat s; VFloat e; nm] :: after_)
  = Raise err.
Proof. intros. now apply transcribe_loop_propagates. Qed.

End TranscribeWellFormed.

Lemma well_formed4_lecture_chunks4 : Forall (well_formed4 quiet) lecture_chunks4.
Proof.
  repeat constructor; eexists _, _, _, _; split; reflexivity.
Qed.

Lemma transcribe_all_chunks_well_formed_witness :
  exists results,
    Transcriber.transcribe_all_chunks quiet lecture_chunks4 = Ok results /\
    List.length results = List.length lecture_chunks4 /\
    forall k r, nth_error results k = Some r ->
                exists chunk, nth_error lecture_chunks4 k = Some chunk /\
                              transcribed_as quiet k chunk r.
Proof.
  exact (transcribe_all_chunks_well_formed quiet lecture_chunks4
           well_formed4_lecture_chunks4).
Defined.

Lemma transcribe_all_chunks_propagates_witness :
  Transcriber.transcribe_all_chunks flaky
    ([[VPath lecture_wav; VFloat 0; VFloat 600; VPath lecture_wav]]
     ++ [VPath bad_wav; VFloat 600; VFloat 1200; VPath bad_wav]
     :: [[VPath lecture_wav; VFloat 1200; VFloat 1500; VPath lecture_wav]])
  = Raise (Exn ServiceError "transcription failed").
Proof.
  apply (transcribe_all_chunks_propagates flaky).
  - repeat constructor. eexists _, _, _, _. split; reflexivity.
  - reflexivity.
Defined.

(* ------------------------------------------------------------------ *)
(** ** split_audio at the edges *)

Lemma num_chunks_nonpositive (len_audio chunk_length : Z) :
  0 <= len_audio -> chunk_length < 0 ->
  Qceiling (inject_Z len_audio / 1000 / inject_Z chunk_length) <= 0.
Proof.
  intros Hl HL.
  change 0 with (Qceiling 0). apply Qceiling_resp_le.
  destruct chunk_length as [|p|p]; try lia.
  unfold Qle, Qdiv, Qmult, Qinv, inject_Z. cbn. lia.
Qed.

Lemma num_chunks_of_silence (chunk_length : Z) :
  Qceiling (inject_Z 0 / 1000 / inject_Z chunk_length) = 0.
Proof.
  change 0 with (Qceiling 0) at 2. apply Qceiling_comp.
  unfold Qeq, Qdiv, Qmult, Qinv, inject_Z. cbn. reflexivity.
Qed.

(** X3. Edge cases of [split_audio].  An audio file of length zero gives
    the empty list (not [None]) and writes nothing; a chunk length of zero
    makes the division raise, so the result is [None] whatever the file; a
    negative chunk length gives the empty list. *)
Theorem split_audio_edge_cases (config : Config) (svc : Services)
    (scratch : list Path) (audio_path : Path) :
  (from_file svc audio_path = Ok 0 ->
   CHUNK_LENGTH_SECONDS config <> 0 ->
   AudioExtractor.split_audio config svc scratch audio_path = (scratch, Some [])) /\
  (CHUNK_LENGTH_SECONDS config = 0 ->
   AudioExtractor.split_audio config svc scratch audio_path = (scratch, None)) /\
  (forall len_audio,
      from_file svc audio_path = Ok len_audio ->
      0 <= len_audio ->
      CHUNK_LENGTH_SECONDS config < 0 ->
      AudioExtractor.split_audio config svc scratch audio_path = (scratch, Some [])).
Proof.
  unfold AudioExtractor.split_audio, AudioExtractor.split_audio_try.
  split; [|split].
  - intros -> HL.
    destruct (Z.eqb_spec (CHUNK_LENGTH_SECONDS config) 0); [contradiction|].
    now rewrite num_chunks_of_silence.
  - intros ->. cbn. now destruct (from_file svc audio_path).
  - intros len_audio -> Hl HL.
    destruct (Z.eqb_spec (CHUNK_LENGTH_SECONDS config) 0); [lia|].
    pose proof (num_chunks_nonpositive len_audio _ Hl HL) as Hn.
    unfold range. replace (Z.to_nat _) with 0%nat by lia. reflexivity.
Qed.

Lemma split_audio_edge_cases_witness :
  AudioExtractor.split_audio cfg600 empty_audio [] lecture_wav = ([], Some []) /\
  AudioExtractor.split_audio cfg0 quiet [] lecture_wav = ([], None).
Proof.
  split.
  - apply (proj1 (split_audio_edge_cases cfg600 empty_audio [] lecture_wav));
      [reflexivity | discriminate].
  - apply (proj1 (proj2 (split_audio_edge_cases cfg0 quiet [] lecture_wav))).
    reflexivity.
Defined.

(* ------------------------------------------------------------------ *)
(** ** The metadata store: what each operation does to the tables *)

Lemma NoDup_snoc {A} (l : list A) (x : A) :
  NoDup l -> ~ In x l -> NoDup (l ++ [x]).
Proof.
  intros Hl Hx. apply NoDup_app; [exact Hl | repeat constructor; auto |].
  intros a Ha [<-|[]]. contradiction.
Qed.

Lemma NoDup_map_filter {A B} (f : A -> B) (q : A -> bool) (l : list A) :
  NoDup (map f l) -> NoDup (map f (filter q l)).
Proof.
  induction l as [|a l IH]; cbn; [auto|].
  intros H. inversion H as [|? ? Hn Hd]; subst.
  destruct (q a); cbn; [|now apply IH].
  constructor; [|now apply IH].
  intros Hin. apply Hn. rewrite in_map_iff in *.
  destruct Hin as (c & Hc & Hin). apply filter_In in Hin. exists c. tauto.
Qed.

Lemma Forall_filter {A} (P : A -> Prop) (q : A -> bool) (l : list A) :
  Forall P l -> Forall P (filter q l).
Proof.
  rewrite !Forall_forall. intros H a Ha. apply filter_In in Ha. now apply H.
Qed.

Lemma find_snoc {A} (f : A -> bool) (l : list A) (x : A) :
  find f (l ++ [x])
  = match find f l with
    | Some y => Some y
    | None => if f x then Some x else None
    end.
Proof.
  induction l as [|a l IH]; cbn; [reflexivity|]. now destruct (f a).
Qed.

Lemma find_none_iff {A} (f : A -> bool) (l : list A) :
  find f l = None <-> forall a, In a l -> f a = false.
Proof.
  split; [apply find_none|].
  induction l as [|a l IH]; cbn; [reflexivity|]. intros H.
  rewrite (H a) by now left. apply IH. intros b Hb. apply H. now right.
Qed.

Section StoreSteps.
Variable svc : Services.

Lemma existsb_name_false (video_name : string) (rows : list VideoMetaData) :
  existsb (fun v => String.eqb (v_video_name v) video_name) rows = false <->
  ~ In video_name (map v_video_name rows).
Proof.
  split.
  - intros H Hin. apply in_map_iff in Hin. destruct Hin as (v & Hv & Hin).
    assert (E : existsb (fun v => String.eqb (v_video_name v) video_name) rows = true).
    { apply existsb_exists. exists v. split; [exact Hin|]. now apply String.eqb_eq. }
    congruence.
  - intros H. destruct (existsb _ rows) eqn:E; [|reflexivity].
    apply existsb_exists in E. destruct E as (v & Hin & Hv).
    apply String.eqb_eq in Hv. exfalso. apply H. rewrite <- Hv. now apply in_map.
Qed.

(** [add_video] either raises and leaves the store as it was, or appends
    one row for a name that was not there. *)
Lemma add_video_outcome (video_name original_path : string)
    (total_duration : pyval) (total_chunks : Z) (d : Database.db) :
  (exists e,
      Database.add_video svc video_name original_path total_duration total_chunks d
      = (d, Raise e)) \/
  (exists q,
      total_duration = VFloat q /\
      db_fault svc (InsertVideo video_name) = None /\
      ~ In video_name (map v_video_name (Database.videos d)) /\
      Database.add_video svc video_name original_path total_duration total_chunks d
      = ({| Database.videos :=
              (Database.videos d
               ++ [video_row d video_name original_path q total_chunks])%list;
            Database.chunks := Database.chunks d;
            Database.next_video_id := Database.next_video_id d + 1;
            Database.next_chunk_id := Database.next_chunk_id d |},
         Ok (Database.next_video_id d))).
Proof.
  unfold Database.add_video, Database.execute, bind.
  destruct (db_fault svc (InsertVideo video_name)) as [e|] eqn:Ef; [left; eauto|].
  destruct total_duration as [p|q]; cbn; [left; eauto|].
  destruct (existsb _ (Database.videos d)) eqn:E; [left; eauto|].
  right. exists q. repeat split; auto. now apply existsb_name_false.
Qed.

(** [add_transcript_chunk] either raises and leaves the store as it was,
    or appends one row under the next chunk id. *)
Lemma add_transcript_chunk_outcome (video_name : string) (chunk_data : Transcript)
    (vector_id : option string) (d : Database.db) :
  (exists e,
      db_fault svc (InsertChunk video_name (index_of chunk_data)) = Some e /\
      Database.add_transcript_chunk svc video_name chunk_data vector_id d
      = (d, Raise e)) \/
  (db_fault svc (InsertChunk video_name (index_of chunk_data)) = None /\
   Database.add_transcript_chunk svc video_name chunk_data vector_id d
   = ({| Database.videos := Database.videos d;
         Database.chunks :=
           (Database.chunks d ++ [chunk_row d video_name chunk_data vector_id])%list;
         Database.next_video_id := Database.next_video_id d;
         Database.next_chunk_id := Database.next_chunk_id d + 1 |},
      Ok (Database.next_chunk_id d))).
Proof.
  unfold Database.add_transcript_chunk, Database.execute, index_of.
  cbn [c_chunk_index].
  destruct (db_fault svc _) as [e|] eqn:Ef; [left; eauto | right; auto].
Qed.

Lemma update_first_ids (chunk_id : Z) (vector_id : string) (rows : list TranscriptChunk) :
  map c_id (Database.update_first chunk_id vector_id rows) = map c_id rows.
Proof.
  induction rows as [|c rest IH]; cbn; [reflexivity|].
  destruct (c_id c =? chunk_id); cbn; [reflexivity | now rewrite IH].
Qed.

Lemma update_first_Forall (P : TranscriptChunk -> Prop) (chunk_id : Z)
    (vector_id : string) (rows : list TranscriptChunk) :
  (forall c, P c -> P (Database.set_vector_id vector_id c)) ->
  Forall P rows -> Forall P (Database.update_first chunk_id vector_id rows).
Proof.
  intros Hset. induction 1 as [|c rest Hc Hrest IH]; cbn; [constructor|].
  destruct (c_id c =? chunk_id); constructor; auto.
Qed.

Lemma update_first_absent (chunk_id : Z) (vector_id : string)
    (rows : list TranscriptChunk) :
  (forall c, In c rows -> c_id c <> chunk_id) ->
  Database.update_first chunk_id vector_id rows = rows.
Proof.
  induction rows as [|c rest IH]; cbn; [reflexivity|]. intros H.
  destruct (Z.eqb_spec (c_id c) chunk_id) as [E|_].
  - exfalso. now apply (H c (or_introl eq_refl)).
  - f_equal. apply IH. intros c' Hc'. apply H. now right.
Qed.

Lemma find_update_first_same (chunk_id : Z) (vector_id : string)
    (rows : list TranscriptChunk) :
  find (fun c => c_id c =? chunk_id) (Database.update_first chunk_id vector_id rows)
  = option_map (Database.set_vector_id vector_id)
      (find (fun c => c_id c =? chunk_id) rows).
Proof.
  induction rows as [|c rest IH]; cbn; [reflexivity|].
  destruct (c_id c =? chunk_id) eqn:E; cbn; rewrite E; [reflexivity | exact IH].
Qed.

Lemma find_update_first_other (chunk_id other : Z) (vector_id : string)
    (rows : list TranscriptChunk) :
  other <> chunk_id ->
  find (fun c => c_id c =? other) (Database.update_first chunk_id vector_id rows)
  = find (fun c => c_id c =? other) rows.
Proof.
  intros Hne. induction rows as [|c rest IH]; cbn; [reflexivity|].
  destruct (Z.eqb_spec (c_id c) chunk_id) as [E|E]; cbn.
  - destruct (Z.eqb_spec (c_id c) other); [lia | reflexivity].
  - destruct (c_id c =? other); [reflexivity | exact IH].
Qed.

(** X4. Video names stay unique: if no two rows of the video table share a
    name, this still holds after [add_video], [add_transcript_chunk],
    [update_chunk_vector_id] and [delete_video], whatever their arguments
    and whether or not the store faults. *)
Theorem video_names_stay_unique (d : Database.db) :
  names_unique d ->
  (forall video_name original_path total_duration total_chunks,
      names_unique
        (fst (Database.add_video svc video_name original_path total_duration
                total_chunks d))) /\
  (forall video_name chunk_data vector_id,
      names_unique
        (fst (Database.add_transcript_chunk svc video_name chunk_data vector_id d))) /\
  (forall chunk_id vector_id,
      names_unique (Database.update_chunk_vector_id svc d chunk_id vector_id)) /\
  (forall video_name,
      names_unique (fst (Database.delete_video svc video_name d))).
Proof.
  unfold names_unique. intros Hu. split; [|split; [|split]].
  - intros video_name original_path total_duration total_chunks.
    destruct (add_video_outcome video_name original_path total_duration
                total_chunks d) as [(e & ->)|(q & _ & _ & Hfresh & ->)];
      cbn [fst Database.videos]; [exact Hu|].
    rewrite map_app. now apply NoDup_snoc.
  - intros video_name chunk_data vector_id.
    destruct (add_transcript_chunk_outcome video_name chunk_data vector_id d)
      as [(e & _ & ->)|(_ & ->)]; exact Hu.
  - intros chunk_id vector_id. unfold Database.update_chunk_vector_id.
    destruct (Database.execute svc _); exact Hu.
  - intros video_name. unfold Database.delete_video.
    destruct (Database.execute svc _); cbn [fst Database.videos]; [|exact Hu].
    now apply NoDup_map_filter.
Qed.

(** X5. Primary keys stay fresh and unique: if every row id is below the
    counter of its table and no two rows share an id, this still holds
    after each of the four write operations. *)
Theorem keys_stay_fresh (d : Database.db) :
  keys_fresh d ->
  (forall video_name original_path total_duration total_chunks,
      keys_fresh
        (fst (Database.add_video svc video_name original_path total_duration
                total_chunks d))) /\
  (forall video_name chunk_data vector_id,
      keys_fresh
        (fst (Database.add_transcript_chunk svc video_name chunk_data vector_id d))) /\
  (forall chunk_id vector_id,
      keys_fresh (Database.update_chunk_vector_id svc d chunk_id vector_id)) /\
  (forall video_name,
      keys_fresh (fst (Database.delete_video svc video_name d))).
Proof.
  unfold keys_fresh. intros (Hc & Hcn & Hv & Hvn). split; [|split; [|split]].
  - intros video_name original_path total_duration total_chunks.
    destruct (add_video_outcome video_name original_path total_duration
                total_chunks d) as [(e & ->)|(q & _ & _ & _ & ->)];
      cbn [fst Database.videos Database.chunks Database.next_video_id
             Database.next_chunk_id]; [tauto|].
    repeat split; try assumption.
    + apply Forall_app. split.
      * revert Hv. apply Forall_impl. intros; lia.
      * repeat constructor. cbn. lia.
    + rewrite map_app. apply NoDup_snoc; [exact Hvn|].
      cbn. intros Hin. apply in_map_iff in Hin. destruct Hin as (v & Hid & Hin).
      rewrite Forall_forall in Hv. specialize (Hv v Hin). lia.
  - intros video_name chunk_data vector_id.
    destruct (add_transcript_chunk_outcome video_name chunk_data vector_id d)
      as [(e & _ & ->)|(_ & ->)];
      cbn [fst Database.videos Database.chunks Database.next_video_id
             Database.next_chunk_id]; [tauto|].
    repeat split; try assumption.
    + apply Forall_app. split.
      * revert Hc. apply Forall_impl. intros; lia.
      * repeat constructor. cbn. lia.
    + rewrite map_app. apply NoDup_snoc; [exact Hcn|].
      cbn. intros Hin. apply in_map_iff in Hin. destruct Hin as (c & Hid & Hin).
      rewrite Forall_forall in Hc. specialize (Hc c Hin). lia.
  - intros chunk_id vector_id. unfold Database.update_chunk_vector_id.
    destruct (Database.execute svc _);
      cbn [Database.videos Database.chunks Database.next_video_id
             Database.next_chunk_id]; [|tauto].
    repeat split; try assumption.
    + apply update_first_Forall; [|exact Hc]. intros c H. exact H.
    + now rewrite update_first_ids.
  - intros video_name. unfold Database.delete_video.
    destruct (Database.execute svc _);
      cbn [fst Database.videos Database.chunks Database.next_video_id
             Database.next_chunk_id]; [|tauto].
    repeat split; auto using Forall_filter, NoDup_map_filter.
Qed.


End StoreSteps.

Lemma names_unique_db_lecture : names_unique db_lecture.
Proof. unfold names_unique. cbn. repeat constructor. intros []. Qed.

Lemma keys_fresh_db_lecture : keys_fresh db_lecture.
Proof.
  unfold keys_fresh. cbn. repeat split; repeat constructor; cbn; lia.
Qed.


Lemma video_names_stay_unique_witness :
  names_unique
    (fst (Database.add_video quiet "talk.mp4" "/data/input/talk.mp4" (VFloat 60) 1
            db_lecture)) /\
  names_unique (fst (Database.delete_video quiet "lecture.mp4" db_lecture)).
Proof.
  destruct (video_names_stay_unique quiet db_lecture names_unique_db_lecture)
    as (Hadd & _ & _ & Hdel).
  split; [apply Hadd | apply Hdel].
Defined.

Lemma keys_stay_fresh_witness :
  keys_fresh
    (fst (Database.add_transcript_chunk quiet "lecture.mp4" (lecture_transcript 2)
            None db_lecture)) /\
  keys_fresh (Database.update_chunk_vector_id quiet db_lecture 1 "id-0").
Proof.
  destruct (keys_stay_fresh quiet db_lecture keys_fresh_db_lecture)
    as (_ & Hadd & Hupd & _).
  split; [apply Hadd | apply Hupd].
Defined.


(* ------------------------------------------------------------------ *)
(** ** The metadata store: inserts, look-ups and deletion *)

Lemma find_filter_other {A} (f q : A -> bool) (l : list A) :
  (forall a, f a = true -> q a = true) ->
  find f (filter q l) = find f l.
Proof.
  intros H. induction l as [|a l IH]; cbn; [reflexivity|].
  destruct (q a) eqn:Hq; cbn.
  - now destruct (f a).
  - destruct (f a) eqn:Hf; [|exact IH]. apply H in Hf. congruence.
Qed.

Lemma filter_filter_other {A} (f q : A -> bool) (l : list A) :
  (forall a, f a = true -> q a = true) ->
  filter f (filter q l) = filter f l.
Proof.
  intros H. induction l as [|a l IH]; cbn; [reflexivity|].
  destruct (q a) eqn:Hq; cbn.
  - destruct (f a); now rewrite IH.
  - destruct (f a) eqn:Hf; [|exact IH]. apply H in Hf. congruence.
Qed.

Lemma filter_filter_none {A} (f q : A -> bool) (l : list A) :
  (forall a, f a = true -> q a = false) ->
  filter f (filter q l) = [].
Proof.
  intros H. induction l as [|a l IH]; cbn; [reflexivity|].
  destruct (q a) eqn:Hq; cbn; [|exact IH].
  destruct (f a) eqn:Hf; [|exact IH]. apply H in Hf. congruence.
Qed.

Lemma name_eqb_other (x name_ other : string) :
  other <> name_ -> String.eqb x other = true -> negb (String.eqb x name_) = true.
Proof.
  intros Hne H. apply String.eqb_eq in H. subst x.
  apply Bool.negb_true_iff. now apply String.eqb_neq.
Qed.

Section StoreLookups.
Variable svc : Services.
Variable read_fault : Database.db_read -> option exn.

(** X7. [add_video] never stores a second row for a name that is already
    there: the call raises and the store is left as it was; the exception
    is the uniqueness violation unless the store faulted first or the
    duration is not a number. *)
Theorem add_video_rejects_known_name (video_name original_path : string)
    (total_duration : pyval) (total_chunks : Z) (d : Database.db) :
  In video_name (map v_video_name (Database.videos d)) ->
  fst (Database.add_video svc video_name original_path total_duration total_chunks d)
  = d /\
  exists e,
    snd (Database.add_video svc video_name original_path total_duration
           total_chunks d) = Raise e /\
    (db_fault svc (InsertVideo video_name) = None ->
     (exists q, total_duration = VFloat q) ->
     e = Exn IntegrityError "UNIQUE constraint failed: video_metadata.video_name").
Proof.
  intros Hin.
  destruct (add_video_outcome svc video_name original_path total_duration
              total_chunks d) as [(e & H)|(q & _ & _ & Hfresh & _)];
    [|contradiction].
  rewrite H. split; [reflexivity|]. exists e. split; [reflexivity|].
  intros Hf (q & ->). revert H.
  unfold Database.add_video, Database.execute, bind. rewrite Hf. cbn.
  destruct (existsb _ (Database.videos d)) eqn:E.
  - intros [= <-]. reflexivity.
  - apply existsb_name_false in E. contradiction.
Qed.

(** X8. Insert then look up a video: for a name that is not in the store
    and a numeric duration, when the store does not fault, [add_video]
    returns the id it assigned, [get_video_by_name] then returns the row
    with the values given and status ["completed"], [video_exists] returns
    true, and look-ups of every other name are unaffected. *)
Theorem add_video_then_lookup (video_name original_path : string)
    (q : Q) (total_chunks : Z) (d : Database.db) :
  db_fault svc (InsertVideo video_name) = None ->
  db_fault svc (QueryVideo video_name) = None ->
  ~ In video_name (map v_video_name (Database.videos d)) ->
  let r := Database.add_video svc video_name original_path (VFloat q) total_chunks d in
  snd r = Ok (Database.next_video_id d) /\
  Database.get_video_by_name svc (fst r) video_name
  = Ok (Some (video_row d video_name original_path q total_chunks)) /\
  Database.video_exists svc (fst r) video_name = Ok true /\
  forall other,
    other <> video_name ->
    Database.get_video_by_name svc (fst r) other
    = Database.get_video_by_name svc d other.
Proof.
  intros Hi Hq Hfresh r. subst r.
  destruct (add_video_outcome svc video_name original_path (VFloat q)
              total_chunks d) as [(e & H)|(q' & [= <-] & _ & _ & H)].
  - exfalso. revert H. unfold Database.add_video, Database.execute, bind.
    rewrite Hi. cbn.
    apply existsb_name_false in Hfresh. rewrite Hfresh. discriminate.
  - rewrite H. cbn [fst snd].
    assert (Hnone : find (fun v => String.eqb (v_video_name v) video_name)
                      (Database.videos d) = None).
    { apply find_none_iff. intros v Hv. apply String.eqb_neq. intros E.
      apply Hfresh. rewrite <- E. now apply in_map. }
    assert (Hget : Database.get_video_by_name svc
                     {| Database.videos :=
                          (Database.videos d
                           ++ [video_row d video_name original_path q total_chunks])%list;
                        Database.chunks := Database.chunks d;
                        Database.next_video_id := Database.next_video_id d + 1;
                        Database.next_chunk_id := Database.next_chunk_id d |}
                     video_name
                   = Ok (Some (video_row d video_name original_path q total_chunks))).
    { unfold Database.get_video_by_name, Database.execute, bind. rewrite Hq.
      cbn [Database.videos]. rewrite find_snoc, Hnone. cbn.
      now rewrite String.eqb_refl. }
    repeat split.
    + exact Hget.
    + unfold Database.video_exists, bind. now rewrite Hget.
    + intros other Hne.
      unfold Database.get_video_by_name, Database.execute, bind.
      destruct (db_fault svc (QueryVideo other)); [reflexivity|].
      cbn [Database.videos]. rewrite find_snoc.
      destruct (find (fun v => String.eqb (v_video_name v) other)
                  (Database.videos d)); [reflexivity|]. cbn.
      destruct (String.eqb_spec video_name other); [congruence | reflexivity].
Qed.


(** X10. [update_chunk_vector_id] neither adds nor removes rows and never
    touches the video table; when no row has the given id the store is
    left exactly as it was (a silent no-op); when the store does not
    fault, the row found under that id is afterwards found with its
    vector id set and nothing else changed; rows under other ids are
    found as before. *)
Theorem update_chunk_vector_id_spec (d : Database.db) (chunk_id : Z)
    (vector_id : string) :
  let d' := Database.update_chunk_vector_id svc d chunk_id vector_id in
  Database.videos d' = Database.videos d /\
  map c_id (Database.chunks d') = map c_id (Database.chunks d) /\
  ((forall c, In c (Database.chunks d) -> c_id c <> chunk_id) -> d' = d) /\
  (db_fault svc (UpdateChunk chunk_id) = None ->
   forall row,
     Database.get_chunk_by_id read_fault d chunk_id = Ok (Some row) ->
     Database.get_chunk_by_id read_fault d' chunk_id
     = Ok (Some (Database.set_vector_id vector_id row))) /\
  (forall other,
      other <> chunk_id ->
      Database.get_chunk_by_id read_fault d' other
      = Database.get_chunk_by_id read_fault d other).
Proof.
  intros d'. subst d'. unfold Database.update_chunk_vector_id, Database.execute.
  destruct (db_fault svc (UpdateChunk chunk_id)) as [e|];
    cbn [Database.videos Database.chunks].
  - repeat split; congruence.
  - split; [reflexivity|]. split; [apply update_first_ids|]. split; [|split].
    + intros Habs. rewrite update_first_absent by exact Habs. now destruct d.
    + intros _ row. unfold Database.get_chunk_by_id. cbn [Database.chunks].
      destruct (read_fault _); [discriminate|].
      rewrite find_update_first_same. intros [= ->]. reflexivity.
    + intros other Hne. unfold Database.get_chunk_by_id. cbn [Database.chunks].
      destruct (read_fault _); [reflexivity|].
      now rewrite find_update_first_other.
Qed.

(** X11. Deleting a video from the metadata store: when the store faults
    the answer is [False] and nothing changes; otherwise the answer is
    [True] (even when there was nothing to delete), the video is no longer
    found, it has no chunk rows left, and the rows of every other video
    are found as before. *)
Theorem delete_video_then_lookup (video_name : string) (d : Database.db) :
  let r := Database.delete_video svc video_name d in
  (forall e, db_fault svc (DeleteVideo video_name) = Some e -> r = (d, Ok false)) /\
  (db_fault svc (DeleteVideo video_name) = None ->
   snd r = Ok true /\
   (db_fault svc (QueryVideo video_name) = None ->
    Database.video_exists svc (fst r) video_name = Ok false) /\
   (db_fault svc (QueryChunks video_name) = None ->
    Database.get_chunks_by_video svc (fst r) video_name = Ok []) /\
   forall other,
     other <> video_name ->
     Database.get_video_by_name svc (fst r) other
     = Database.get_video_by_name svc d other /\
     Database.get_chunks_by_video svc (fst r) other
     = Database.get_chunks_by_video svc d other).
Proof.
  intros r. subst r. unfold Database.delete_video, Database.execute.
  split; [intros e ->; reflexivity|]. intros ->. cbn [fst snd].
  split; [reflexivity|]. split; [|split].
  - intros Hq. unfold Database.video_exists, Database.get_video_by_name,
      Database.execute, bind. rewrite Hq. cbn [Database.videos].
    assert (Hnone : find (fun v => String.eqb (v_video_name v) video_name)
                      (filter (fun v => negb (String.eqb (v_video_name v) video_name))
                         (Database.videos d)) = None).
    { apply find_none_iff. intros v Hv. apply filter_In in Hv.
      destruct Hv as (_ & Hv). now apply Bool.negb_true_iff in Hv. }
    now rewrite Hnone.
  - intros Hq. unfold Database.get_chunks_by_video, Database.execute, bind,
      Database.chunks_of. rewrite Hq. cbn [Database.chunks].
    rewrite filter_filter_none; [reflexivity|].
    intros c Hc. now rewrite Hc.
  - intros other Hne. split.
    + unfold Database.get_video_by_name, Database.execute, bind.
      destruct (db_fault svc (QueryVideo other)); [reflexivity|].
      cbn [Database.videos]. rewrite find_filter_other; [reflexivity|].
      intros v. now apply name_eqb_other.
    + unfold Database.get_chunks_by_video, Database.execute, bind,
        Database.chunks_of.
      destruct (db_fault svc (QueryChunks other)); [reflexivity|].
      cbn [Database.chunks]. rewrite filter_filter_other; [reflexivity|].
      intros c. now apply name_eqb_other.
Qed.

End StoreLookups.

Lemma add_video_rejects_known_name_witness :
  fst (Database.add_video quiet "lecture.mp4" "/data/input/lecture.mp4" (VFloat 900) 2
         db_lecture) = db_lecture /\
  exists e,
    snd (Database.add_video quiet "lecture.mp4" "/data/input/lecture.mp4" (VFloat 900)
           2 db_lecture) = Raise e /\
    (db_fault quiet (InsertVideo "lecture.mp4") = None ->
     (exists q, VFloat 900 = VFloat q) ->
     e = Exn IntegrityError "UNIQUE constraint failed: video_metadata.video_name").
Proof.
  apply (add_video_rejects_known_name quiet). left. reflexivity.
Defined.

Lemma add_video_then_lookup_witness :
  Database.video_exists quiet
    (fst (Database.add_video quiet "talk.mp4" "/data/input/talk.mp4" (VFloat 60) 1
            db_lecture)) "talk.mp4" = Ok true.
Proof.
  apply (add_video_then_lookup quiet "talk.mp4" "/data/input/talk.mp4" 60 1 db_lecture);
    [reflexivity | reflexivity |].
  cbn. intros [H|[]]. discriminate.
Defined.


Lemma update_chunk_vector_id_spec_witness :
  Database.update_chunk_vector_id quiet db_lecture 99 "id-0" = db_lecture /\
  Database.get_chunk_by_id no_read_fault
    (Database.update_chunk_vector_id quiet db_lecture 1 "id-0") 1
  = Ok (Some (Database.set_vector_id "id-0" (lecture_chunk 1 0))).
Proof.
  split.
  - destruct (update_chunk_vector_id_spec quiet no_read_fault db_lecture 99 "id-0")
      as (_ & _ & H & _).
    apply H. cbn. intros c [<-|[<-|[]]]; discriminate.
  - destruct (update_chunk_vector_id_spec quiet no_read_fault db_lecture 1 "id-0")
      as (_ & _ & _ & H & _).
    apply H; reflexivity.
Defined.

Lemma delete_video_then_lookup_witness :
  Database.video_exists quiet
    (fst (Database.delete_video quiet "lecture.mp4" db_lecture)) "lecture.mp4"
  = Ok false /\
  Database.get_chunks_by_video quiet
    (fst (Database.delete_video quiet "lecture.mp4" db_lecture)) "lecture.mp4"
  = Ok [].
Proof.
  destruct (delete_video_then_lookup quiet "lecture.mp4" db_lecture) as (_ & H).
  destruct (H eq_refl) as (_ & H1 & H2 & _).
  split; [apply H1 | apply H2]; reflexivity.
Defined.

(* ------------------------------------------------------------------ *)
(** ** The metadata store: the chunks of a video, in order *)

Lemma insert_by_index_perm (c : TranscriptChunk) (rows : list TranscriptChunk) :
  Permutation (c :: rows) (Database.insert_by_index c rows).
Proof.
  induction rows as [|d rest IH]; cbn; [reflexivity|].
  destruct (c_chunk_index c <=? c_chunk_index d); [reflexivity|].
  rewrite perm_swap. now constructor.
Qed.

Lemma order_by_chunk_index_perm (rows : list TranscriptChunk) :
  Permutation rows (Database.order_by_chunk_index rows).
Proof.
  induction rows as [|c rest IH]; cbn; [constructor|].
  rewrite <- insert_by_index_perm. now constructor.
Qed.

Lemma insert_by_index_sorted (c : TranscriptChunk) (rows : list TranscriptChunk) :
  StronglySorted index_le rows ->
  StronglySorted index_le (Database.insert_by_index c rows).
Proof.
  induction 1 as [|d rest Hs IH Hd]; cbn.
  - repeat constructor.
  - destruct (Z.leb_spec (c_chunk_index c) (c_chunk_index d)) as [Hle|Hgt].
    + constructor; [now constructor|].
      constructor; [exact Hle|].
      revert Hd. apply Forall_impl. unfold index_le. intros; lia.
    + constructor; [exact IH|].
      apply (Permutation_Forall (insert_by_index_perm c rest)).
      constructor; [unfold index_le; lia | exact Hd].
Qed.

Lemma order_by_chunk_index_sorted (rows : list TranscriptChunk) :
  StronglySorted index_le (Database.order_by_chunk_index rows).
Proof.
  induction rows as [|c rest IH]; cbn; [constructor|].
  now apply insert_by_index_sorted.
Qed.

(** X12. When [get_chunks_by_video] returns, its result holds exactly the
    chunk rows stored for that video (each as many times as it is stored,
    none of another video), arranged by non-decreasing chunk index
    whatever the order of insertion. *)
Theorem get_chunks_by_video_sorted (svc : Services) (d : Database.db)
    (video_name : string) (rows : list TranscriptChunk) :
  Database.get_chunks_by_video svc d video_name = Ok rows ->
  Permutation (Database.chunks_of d video_name) rows /\
  StronglySorted index_le rows /\
  Forall (fun c => c_video_name c = video_name /\ In c (Database.chunks d)) rows.
Proof.
  unfold Database.get_chunks_by_video, bind.
  destruct (Database.execute svc _); [|discriminate].
  intros [= <-]. split; [apply order_by_chunk_index_perm|].
  split; [apply order_by_chunk_index_sorted|].
  apply (Permutation_Forall (order_by_chunk_index_perm _)).
  apply Forall_forall. intros c Hc. unfold Database.chunks_of in Hc.
  apply filter_In in Hc. destruct Hc as (Hin & Hn).
  split; [now apply String.eqb_eq | exact Hin].
Qed.

Lemma get_chunks_by_video_sorted_witness :
  Database.get_chunks_by_video quiet db_shuffled "lecture.mp4"
  = Ok [lecture_chunk 2 0; lecture_chunk 1 1] /\
  StronglySorted index_le [lecture_chunk 2 0; lecture_chunk 1 1].
Proof.
  assert (H : Database.get_chunks_by_video quiet db_shuffled "lecture.mp4"
              = Ok [lecture_chunk 2 0; lecture_chunk 1 1]) by reflexivity.
  split; [exact H|].
  exact (proj1 (proj2 (get_chunks_by_video_sorted quiet db_shuffled "lecture.mp4" _ H))).
Defined.

(* ------------------------------------------------------------------ *)
(** ** The metadata store: statistics *)

Lemma sum_durations_snoc (rows : list VideoMetaData) (v : VideoMetaData) :
  (Database.sum_durations (rows ++ [v])
   == Database.sum_durations rows + v_total_duration v)%Q.
Proof.
  unfold Database.sum_durations.
  induction rows as [|a rows IH]; cbn [fold_right Datatypes.app].
  - ring.
  - rewrite IH. ring.
Qed.

(** X13. The statistics follow the inserts: after a successful
    [add_video] the count of videos is one higher and the total duration
    is higher by the duration of that video, the count of chunks being
    unchanged; after a successful [add_transcript_chunk] only the count of
    chunks changes, by one; and the hours are the seconds over 3600. *)
Theorem statistics_follow_inserts (svc : Services)
    (read_fault : Database.db_read -> option exn) (d : Database.db)
    (st : Database.Statistics) :
  Database.get_video_statistics read_fault d = Ok st ->
  (Database.total_duration_hours st == Database.total_duration_seconds st / 3600)%Q /\
  (forall video_name original_path q total_chunks d' id,
      Database.add_video svc video_name original_path (VFloat q) total_chunks d
      = (d', Ok id) ->
      exists st',
        Database.get_video_statistics read_fault d' = Ok st' /\
        Database.total_videos st' = Database.total_videos st + 1 /\
        Database.total_chunks st' = Database.total_chunks st /\
        (Database.total_duration_seconds st'
         == Database.total_duration_seconds st + q)%Q) /\
  (forall video_name chunk_data vector_id d' id,
      Database.add_transcript_chunk svc video_name chunk_data vector_id d
      = (d', Ok id) ->
      exists st',
        Database.get_video_statistics read_fault d' = Ok st' /\
        Database.total_videos st' = Database.total_videos st /\
        Database.total_chunks st' = Database.total_chunks st + 1 /\
        Database.total_duration_seconds st' = Database.total_duration_seconds st).
Proof.
  unfold Database.get_video_statistics.
  destruct (read_fault Database.ReadStatistics); [discriminate|].
  intros [= <-]. cbn [Database.total_videos Database.total_chunks
                        Database.total_duration_seconds Database.total_duration_hours].
  split; [reflexivity|]. split.
  - intros video_name original_path q total_chunks d' id H.
    destruct (add_video_outcome svc video_name original_path (VFloat q)
                total_chunks d) as [(e & H')|(q' & [= <-] & _ & _ & H')];
      rewrite H' in H; [discriminate|]. injection H as <- _.
    eexists. split; [reflexivity|].
    cbn [Database.total_videos Database.total_chunks Database.total_duration_seconds
           Database.videos Database.chunks].
    rewrite length_app. cbn [List.length]. repeat split; [lia|].
    apply sum_durations_snoc.
  - intros video_name chunk_data vector_id d' id H.
    destruct (add_transcript_chunk_outcome svc video_name chunk_data vector_id d)
      as [(e & _ & H')|(_ & H')]; rewrite H' in H; [discriminate|].
    injection H as <- _.
    eexists. split; [reflexivity|].
    cbn [Database.total_videos Database.total_chunks Database.total_duration_seconds
           Database.videos Database.chunks].
    rewrite length_app. cbn [List.length]. repeat split. lia.
Qed.

Lemma statistics_follow_inserts_witness :
  exists st',
    Database.get_video_statistics no_read_fault
      (fst (Database.add_video quiet "talk.mp4" "/data/input/talk.mp4" (VFloat 60) 1
              db_lecture)) = Ok st' /\
    Database.total_videos st' = 2 /\
    Database.total_chunks st' = 2 /\
    (Database.total_duration_seconds st' == 900 + 60)%Q.
Proof.
  destruct (statistics_follow_inserts quiet no_read_fault db_lecture _ eq_refl)
    as (_ & H & _).
  exact (H "talk.mp4" "/data/input/talk.mp4" 60%Q 1 _ _ eq_refl).
Defined.

(* ------------------------------------------------------------------ *)
(** ** The vector store: adding transcripts *)

Lemma combine_fst_snd {A B} (l : list (A * B)) :
  combine (map fst l) (map snd l) = l.
Proof. induction l as [|[a b] l IH]; cbn; [reflexivity | now rewrite IH]. Qed.

Section AddTranscripts.
Variable svc : Services.

Lemma sub_chunk_rows_spec (video_name : string) (k : nat) (transcript : Transcript) :
  forall sub_chunks j,
    Forall (fun row => exists n,
                nth_error sub_chunks n = Some (fst row) /\
                snd row = sub_chunk_metadata video_name k (j + n) transcript)
           (VectorStore.sub_chunk_rows video_name (Z.of_nat k) transcript
              (Z.of_nat j) sub_chunks).
Proof.
  induction sub_chunks as [|s rest IH]; intros j; cbn; constructor.
  - exists 0%nat. rewrite Nat.add_0_r. split; reflexivity.
  - replace (Z.of_nat j + 1) with (Z.of_nat (S j)) by lia.
    specialize (IH (S j)). revert IH. apply Forall_impl.
    intros row (n & Hn & Hm). exists (S n). split; [exact Hn|].
    rewrite Hm. now replace (S j + n)%nat with (j + S n)%nat by lia.
Qed.

Lemma transcript_rows_spec (video_name : string) :
  forall rest before_,
    Forall (row_from svc video_name (before_ ++ rest))
           (VectorStore.transcript_rows svc video_name
              (Z.of_nat (List.length before_)) rest).
Proof.
  induction rest as [|t rest IH]; intros before_; cbn [VectorStore.transcript_rows];
    [constructor|].
  assert (Hrest : Forall (row_from svc video_name (before_ ++ t :: rest))
                    (VectorStore.transcript_rows svc video_name
                       (Z.of_nat (List.length before_) + 1) rest)).
  { specialize (IH (before_ ++ [t])%list).
    rewrite <- app_assoc, length_app in IH. cbn in IH.
    now replace (Z.of_nat (List.length before_ + 1))
      with (Z.of_nat (List.length before_) + 1) in IH by lia. }
  destruct (is_blank (tr_text t)) eqn:Hb; [exact Hrest|].
  apply Forall_app. split; [|exact Hrest].
  pose proof (sub_chunk_rows_spec video_name (List.length before_) t
                (split_text svc (tr_text t)) 0) as H.
  revert H. apply Forall_impl. intros row (n & Hn & Hm).
  exists (List.length before_), n, t. repeat split; try assumption.
  now rewrite nth_error_app2, Nat.sub_diag by lia.
Qed.

Lemma transcript_rows_nothing (video_name : string) :
  forall transcripts i,
    Forall (fun t => is_blank (tr_text t) = true \/ split_text svc (tr_text t) = [])
           transcripts ->
    VectorStore.transcript_rows svc video_name i transcripts = [].
Proof.
  induction transcripts as [|t rest IH]; intros i HF; [reflexivity|].
  inversion HF as [|? ? Ht HF']; subst. cbn [VectorStore.transcript_rows].
  destruct (is_blank (tr_text t)) eqn:Hb; [now apply IH|].
  destruct Ht as [Ht|Ht]; [congruence|]. rewrite Ht. cbn. now apply IH.
Qed.

(** X14. [add_transcripts] with nothing to add: for the empty list, and
    more generally when every transcript is blank (empty or white space
    only) or is split into no sub-chunk, the result is the empty list and
    the vector store is not even contacted, so it is unchanged whether or
    not it would fault. *)
Theorem add_transcripts_nothing_to_add (transcripts : list Transcript)
    (video_name : string) (v : VectorStore.vs) :
  Forall (fun t => is_blank (tr_text t) = true \/ split_text svc (tr_text t) = [])
         transcripts ->
  VectorStore.add_transcripts svc transcripts video_name v = (v, Ok []).
Proof.
  intros HF. unfold VectorStore.add_transcripts.
  now rewrite transcript_rows_nothing.
Qed.

Lemma new_entries_spec :
  forall docs n,
    map e_doc (VectorStore.new_entries svc n docs) = docs /\
    forall i e, nth_error (VectorStore.new_entries svc n docs) i = Some e ->
                e_id e = uuid svc (n + i).
Proof.
  induction docs as [|d docs IH]; intros n; cbn.
  - split; [reflexivity|]. intros [|i] e; discriminate.
  - destruct (IH (S n)) as (Hd & Hi). split; [now rewrite Hd|].
    intros [|i] e He.
    + injection He as <-. cbn. now rewrite Nat.add_0_r.
    + cbn in He. rewrite (Hi i e He). f_equal. lia.
Qed.

(** X15. What [add_transcripts] adds.  When the vector store accepts the
    batch, the entries already stored are kept, in place, and the new ones
    are appended after them; the identifiers returned are those of the new
    entries, in order; and every new entry is a sub-chunk of a non-blank
    transcript of the input, with the video name given, the position of
    that transcript in the input as [chunk_index], the position of the
    sub-chunk as [sub_chunk_index], and the start and end times of the
    whole transcript.  When the store rejects the batch the exception is
    re-raised and the store is unchanged. *)
Theorem add_transcripts_appends (transcripts : list Transcript)
    (video_name : string) (v : VectorStore.vs) :
  let rows := VectorStore.transcript_rows svc video_name 0 transcripts in
  (vs_fault svc (VsAddTexts (map fst rows)) = None ->
   exists added,
     VectorStore.add_transcripts svc transcripts video_name v
     = ({| VectorStore.entries := (VectorStore.entries v ++ added)%list;
           VectorStore.next_uuid :=
             (VectorStore.next_uuid v + List.length added)%nat |},
        Ok (map e_id added)) /\
     map (fun e => (page_content (e_doc e), doc_metadata (e_doc e))) added = rows /\
     Forall (fun e => row_from svc video_name transcripts
                        (page_content (e_doc e), doc_metadata (e_doc e))) added /\
     forall i e, nth_error added i = Some e ->
                 e_id e = uuid svc (VectorStore.next_uuid v + i)) /\
  (forall e,
      vs_fault svc (VsAddTexts (map fst rows)) = Some e ->
      rows <> [] ->
      VectorStore.add_transcripts svc transcripts video_name v = (v, Raise e)).
Proof.
  intros rows.
  pose proof (transcript_rows_spec video_name transcripts []) as Hrows.
  cbn [Datatypes.app List.length] in Hrows. change (Z.of_nat 0) with 0 in Hrows.
  fold rows in Hrows.
  assert (Hnil : rows = [] ->
                 VectorStore.add_transcripts svc transcripts video_name v = (v, Ok [])).
  { unfold VectorStore.add_transcripts, rows. now intros ->. }
  assert (Hcons : rows <> [] ->
                  VectorStore.add_transcripts svc transcripts video_name v
                  = VectorStore.chroma_add_texts svc (map fst rows) (map snd rows) v).
  { unfold VectorStore.add_transcripts, rows.
    destruct (VectorStore.transcript_rows svc video_name 0 transcripts);
      [intros H; now contradiction H | reflexivity]. }
  clearbody rows. split.
  - intros Hf. destruct rows as [|row rows'].
    + rewrite Hnil by reflexivity. exists []. cbn. rewrite app_nil_r, Nat.add_0_r.
      repeat split; [now destruct v | constructor | intros [|i] e; discriminate].
    + rewrite Hcons by discriminate.
      set (rs := row :: rows') in *. clearbody rs.
      unfold VectorStore.chroma_add_texts, VectorStore.execute.
      rewrite Hf, combine_fst_snd.
      set (docs := map (fun tm : string * metadata =>
                          {| page_content := fst tm; doc_metadata := snd tm |}) rs).
      destruct (new_entries_spec docs (VectorStore.next_uuid v)) as (Hd & Hi).
      exists (VectorStore.new_entries svc (VectorStore.next_uuid v) docs).
      split; [reflexivity|]. split; [|split; [|exact Hi]].
      * rewrite <- (map_map e_doc (fun d => (page_content d, doc_metadata d))), Hd.
        unfold docs. rewrite map_map. cbn.
        rewrite <- (map_id rs) at 2. apply map_ext. now intros [a b].
      * apply Forall_forall. intros e He.
        apply (in_map e_doc) in He. rewrite Hd in He. unfold docs in He.
        apply in_map_iff in He. destruct He as ([a b] & <- & Hin). cbn.
        rewrite Forall_forall in Hrows. now apply Hrows.
  - intros e Hf Hne. rewrite Hcons by exact Hne.
    unfold VectorStore.chroma_add_texts, VectorStore.execute. now rewrite Hf.
Qed.

End AddTranscripts.
Lemma add_transcripts_nothing_to_add_witness :
  VectorStore.add_transcripts read_only [blank_transcript] "lecture.mp4" vs_lecture
  = (vs_lecture, Ok []).
Proof.
  apply (add_transcripts_nothing_to_add read_only).
  repeat constructor.
Defined.

Lemma add_transcripts_appends_witness :
  (exists added,
      VectorStore.add_transcripts quiet [blank_transcript; lecture_transcript 1]
        "lecture.mp4" vs_empty
      = ({| VectorStore.entries := added;
            VectorStore.next_uuid := List.length added |},
         Ok (map e_id added)) /\
      map (fun e => md_lookup (doc_metadata (e_doc e)) "chunk_index") added
      = [Some (MInt 1)]) /\
  VectorStore.add_transcripts read_only [lecture_transcript 0] "lecture.mp4" vs_lecture
  = (vs_lecture, Raise (Exn ServiceError "embedding service unavailable")).
Proof.
  split.
  - destruct (proj1 (add_transcripts_appends quiet
                       [blank_transcript; lecture_transcript 1] "lecture.mp4" vs_empty)
                eq_refl) as (added & H & Hrows & _).
    exists added. split; [exact H|].
    apply (f_equal (map (fun r : string * metadata => md_lookup (snd r) "chunk_index")))
      in Hrows.
    rewrite map_map in Hrows. exact Hrows.
  - apply (proj2 (add_transcripts_appends read_only [lecture_transcript 0]
                    "lecture.mp4" vs_lecture)); [reflexivity | discriminate].
Defined.

(* ------------------------------------------------------------------ *)
(** ** The vector store: the names it knows *)

Lemma compare_lt_trans (a b c : string) :
  str_lt a b -> str_lt b c -> str_lt a c.
Proof.
  unfold str_lt. revert b c.
  induction a as [|x a IH]; intros [|y b] [|z c]; cbn; try discriminate; auto.
  unfold Ascii.compare.
  destruct (N.compare_spec (N_of_ascii x) (N_of_ascii y)) as [Exy|Lxy|Gxy];
    try discriminate;
    destruct (N.compare_spec (N_of_ascii y) (N_of_ascii z)) as [Eyz|Lyz|Gyz];
    try discriminate;
    destruct (N.compare_spec (N_of_ascii x) (N_of_ascii z)) as [Exz|Lxz|Gxz];
    try lia; auto.
  apply IH.
Qed.

Lemma compare_gt_lt (a b : string) : String.compare a b = Gt -> str_lt b a.
Proof.
  unfold str_lt. intros H. rewrite String.compare_antisym, H. reflexivity.
Qed.

Lemma compare_refl (a : string) : String.compare a a = Eq.
Proof.
  induction a as [|x a IH]; cbn; [reflexivity|].
  unfold Ascii.compare. now rewrite N.compare_refl.
Qed.

Lemma add_sorted_sorted (x : string) (l : list string) :
  StronglySorted str_lt l -> StronglySorted str_lt (VectorStore.add_sorted x l).
Proof.
  induction 1 as [|y rest Hs IH Hy]; cbn.
  - repeat constructor.
  - destruct (String.compare x y) eqn:E.
    + now constructor.
    + constructor; [now constructor|]. constructor; [exact E|].
      revert Hy. apply Forall_impl. intros z. now apply compare_lt_trans.
    + constructor; [exact IH|].
      apply Forall_forall. intros z Hz. apply In_add_sorted in Hz.
      destruct Hz as [->|Hz]; [now apply compare_gt_lt|].
      rewrite Forall_forall in Hy. now apply Hy.
Qed.

Lemma StronglySorted_str_lt_NoDup (l : list string) :
  StronglySorted str_lt l -> NoDup l.
Proof.
  induction 1 as [|y rest Hs IH Hy]; constructor; [|exact IH].
  intros Hin. rewrite Forall_forall in Hy. specialize (Hy y Hin).
  unfold str_lt in Hy. rewrite compare_refl in Hy. discriminate.
Qed.

Section KnownNames.
Variable svc : Services.

Lemma collect_names_sorted :
  forall metadatas acc names,
    StronglySorted str_lt acc ->
    VectorStore.collect_names metadatas acc = Ok names ->
    StronglySorted str_lt names.
Proof.
  induction metadatas as [|md rest IH]; intros acc names Hacc H.
  - cbn in H. now injection H as <-.
  - cbn [VectorStore.collect_names] in H.
    destruct (md_lookup md "video_name") as [[s|z|q]|]; [| | |discriminate].
    + destruct (String.eqb s ""); [now apply (IH acc)|].
      apply (IH (VectorStore.add_sorted s acc)); [now apply add_sorted_sorted | exact H].
    + destruct (z =? 0); [now apply (IH acc) | discriminate].
    + destruct (Qeq_bool q 0); [now apply (IH acc) | discriminate].
Qed.

Lemma collect_names_total :
  forall metadatas acc,
    Forall (fun md => exists s, md_lookup md "video_name" = Some (MStr s)) metadatas ->
    exists names, VectorStore.collect_names metadatas acc = Ok names.
Proof.
  induction metadatas as [|md rest IH]; intros acc HF; [now exists acc|].
  inversion HF as [|? ? (s & Hs) HF']; subst.
  cbn [VectorStore.collect_names]. rewrite Hs.
  destruct (String.eqb s ""); now apply IH.
Qed.

Lemma collect_names_missing_key :
  forall metadatas acc md,
    In md metadatas ->
    md_lookup md "video_name" = None ->
    exists e, VectorStore.collect_names metadatas acc = Raise e.
Proof.
  induction metadatas as [|md0 rest IH]; intros acc md Hin Hnone; [contradiction|].
  cbn [VectorStore.collect_names].
  destruct (md_lookup md0 "video_name") as [[s|z|q]|] eqn:E0; [| | |eauto].
  - destruct Hin as [->|Hin]; [congruence|].
    destruct (String.eqb s ""); now apply (IH _ md).
  - destruct Hin as [->|Hin]; [congruence|].
    destruct (z =? 0); [now apply (IH _ md) | eauto].
  - destruct Hin as [->|Hin]; [congruence|].
    destruct (Qeq_bool q 0); [now apply (IH _ md) | eauto].
Qed.

Lemma get_all_video_names_increasing (v : VectorStore.vs) :
  StronglySorted str_lt (VectorStore.get_all_video_names svc v).
Proof.
  unfold VectorStore.get_all_video_names, bind.
  destruct (VectorStore.chroma_get svc v None) as [results|]; [|constructor].
  destruct (VectorStore.collect_names _ []) as [names|] eqn:E; [|constructor].
  apply (collect_names_sorted _ _ _ (SSorted_nil _) E).
Qed.

(** X16. [get_all_video_names] always returns its names in strictly
    increasing order, hence without duplicates, however many entries carry
    each name and in whatever order they were stored. *)
Theorem get_all_video_names_sorted (v : VectorStore.vs) :
  StronglySorted str_lt (VectorStore.get_all_video_names svc v) /\
  NoDup (VectorStore.get_all_video_names svc v).
Proof.
  pose proof (get_all_video_names_increasing v) as H.
  split; [exact H | now apply StronglySorted_str_lt_NoDup].
Qed.

(** X17. Which names the vector store knows.  When the store answers and
    every entry carries a string under ["video_name"], a name is listed by
    [get_all_video_names] exactly when it is not empty and some stored
    entry carries it. *)
Theorem get_all_video_names_complete (v : VectorStore.vs) (n : string) :
  vs_fault svc VsGet = None ->
  vs_well_formed v ->
  (In n (VectorStore.get_all_video_names svc v) <->
   n <> "" /\
   exists e, In e (VectorStore.entries v) /\
             md_lookup (doc_metadata (e_doc e)) "video_name" = Some (MStr n)).
Proof.
  intros Hf Hwf. split; [apply In_get_all_video_names|].
  intros (Hn & e & Hin & Hl).
  unfold VectorStore.get_all_video_names, VectorStore.chroma_get,
    VectorStore.execute, bind. rewrite Hf.
  destruct (collect_names_total
              (map (fun e => doc_metadata (e_doc e)) (VectorStore.entries v)) [])
    as (names & Hnames).
  { unfold vs_well_formed in Hwf. apply Forall_map. exact Hwf. }
  rewrite Hnames. apply (In_collect_names n _ _ _ Hnames).
  right. split; [exact Hn|].
  exists (doc_metadata (e_doc e)). split; [|exact Hl].
  apply in_map_iff. now exists e.
Qed.

(** X18. One entry without a ["video_name"] key hides every video: the
    [KeyError] raised while scanning is swallowed and
    [get_all_video_names] returns the empty list, whatever else the store
    holds. *)
Theorem get_all_video_names_missing_key (v : VectorStore.vs) (e : Entry) :
  In e (VectorStore.entries v) ->
  md_lookup (doc_metadata (e_doc e)) "video_name" = None ->
  VectorStore.get_all_video_names svc v = [].
Proof.
  intros Hin Hnone.
  unfold VectorStore.get_all_video_names, VectorStore.chroma_get, bind.
  destruct (VectorStore.execute svc VsGet); [|reflexivity].
  destruct (collect_names_missing_key
              (map (fun e => doc_metadata (e_doc e)) (VectorStore.entries v)) []
              (doc_metadata (e_doc e))) as (err & ->); [|exact Hnone|reflexivity].
  apply in_map_iff. now exists e.
Qed.

End KnownNames.

Lemma vs_well_formed_vs_lecture : vs_well_formed vs_lecture.
Proof. repeat constructor; eexists; reflexivity. Qed.

Lemma get_all_video_names_complete_witness :
  In "talk.mp4" (VectorStore.get_all_video_names quiet vs_lecture) <->
  "talk.mp4" <> "" /\
  exists e, In e (VectorStore.entries vs_lecture) /\
            md_lookup (doc_metadata (e_doc e)) "video_name" = Some (MStr "talk.mp4").
Proof.
  exact (get_all_video_names_complete quiet vs_lecture "talk.mp4" eq_refl
           vs_well_formed_vs_lecture).
Defined.

Lemma get_all_video_names_missing_key_witness :
  VectorStore.get_all_video_names quiet vs_nameless = [].
Proof.
  apply (get_all_video_names_missing_key quiet vs_nameless
           {| e_id := "id-1";
              e_doc := {| page_content := "stray"; doc_metadata := [] |} |}).
  - right. left. reflexivity.
  - reflexivity.
Defined.

(* ------------------------------------------------------------------ *)
(** ** The vector store: deletion, search, statistics *)

Lemma NoDup_map_eq {A B} (f : A -> B) (l : list A) (a b : A) :
  NoDup (map f l) -> In a l -> In b l -> f a = f b -> a = b.
Proof.
  induction l as [|x l IH]; cbn; [contradiction|].
  intros H Ha Hb E. inversion H as [|? ? Hn Hd]; subst.
  destruct Ha as [->|Ha], Hb as [->|Hb]; auto.
  - exfalso. apply Hn. rewrite E. now apply in_map.
  - exfalso. apply Hn. rewrite <- E. now apply in_map.
Qed.

Lemma of_video_iff (video_name : string) (e : Entry) :
  of_video video_name e = true <->
  md_lookup (doc_metadata (e_doc e)) "video_name" = Some (MStr video_name).
Proof.
  unfold of_video, VectorStore.matches. cbn [fst snd].
  destruct (md_lookup (doc_metadata (e_doc e)) "video_name") as [v|]; split;
    try discriminate.
  - intros H. apply mdval_eqb_MStr in H. now subst.
  - intros [= ->]. cbn. apply String.eqb_refl.
Qed.

Section DeleteAndSearch.
Variable config : Config.
Variable svc : Services.

(** X19. Deleting a video from the vector store never adds an entry.
    When it answers [True], no entry of that video is left and
    [get_all_video_names] no longer lists the video; when no stored entry
    belongs to the video it answers [False] and changes nothing.  If the
    stored identifiers are pairwise distinct, an answer of [True] means
    that exactly the entries of that video were removed. *)
Theorem delete_by_video_name_spec (video_name : string) (v : VectorStore.vs) :
  let r := VectorStore.delete_by_video_name svc video_name v in
  incl (VectorStore.entries (fst r)) (VectorStore.entries v) /\
  (snd r = Ok true ->
   Forall (fun e => of_video video_name e = false) (VectorStore.entries (fst r)) /\
   ~ In video_name (VectorStore.get_all_video_names svc (fst r))) /\
  (Forall (fun e => of_video video_name e = false) (VectorStore.entries v) ->
   r = (v, Ok false)) /\
  (NoDup (map e_id (VectorStore.entries v)) ->
   snd r = Ok true ->
   VectorStore.entries (fst r)
   = filter (fun e => negb (of_video video_name e)) (VectorStore.entries v)).
Proof.
  intros r. subst r.
  unfold VectorStore.delete_by_video_name, VectorStore.chroma_get, bind, of_video.
  destruct (VectorStore.execute svc (VsGetWhere video_name)) as [[]|e].
  2:{ cbn [fst snd].
      split; [apply incl_refl|]. repeat split; intros; congruence. }
  set (results := filter (VectorStore.matches ("video_name", MStr video_name))
                       (VectorStore.entries v)).
  destruct (map e_id results) as [|i ids] eqn:Eids.
  { cbn [fst snd].
      split; [apply incl_refl|]. repeat split; intros; congruence. }
  unfold VectorStore.chroma_delete.
  destruct (VectorStore.execute svc (VsDelete (i :: ids))) as [[]|e].
  2:{ cbn [fst snd].
      split; [apply incl_refl|]. split; [intros; congruence|].
      split; [|intros; congruence].
      intros HF. exfalso.
      assert (Hin : In i (map e_id results)) by (rewrite Eids; now left).
      apply in_map_iff in Hin. destruct Hin as (e' & _ & Hin).
      apply filter_In in Hin. destruct Hin as (Hin & Hm).
      rewrite Forall_forall in HF. rewrite (HF e' Hin) in Hm. discriminate. }
  cbn [fst snd VectorStore.entries]. rewrite <- Eids.
  assert (Hgone : Forall (fun e => VectorStore.matches ("video_name", MStr video_name) e
                                 = false)
                    (filter (fun e => negb (existsb (String.eqb (e_id e))
                                              (map e_id results)))
                       (VectorStore.entries v))).
  { apply Forall_forall. intros e He. apply filter_In in He.
    destruct He as (Hin & Hid).
    destruct (VectorStore.matches ("video_name", MStr video_name) e) eqn:Hm;
      [|reflexivity].
    exfalso. apply Bool.negb_true_iff in Hid.
    assert (E : existsb (String.eqb (e_id e)) (map e_id results) = true).
    { apply existsb_exists. exists (e_id e). split; [|apply String.eqb_refl].
      apply in_map. apply filter_In. now split. }
    congruence. }
  split; [|split; [|split]].
  - intros e He. apply filter_In in He. tauto.
  - intros _. split; [exact Hgone|].
    intros Hin. apply In_get_all_video_names in Hin.
    destruct Hin as (_ & e & He & Hl). cbn [VectorStore.entries] in He.
    rewrite Forall_forall in Hgone. specialize (Hgone e He).
    apply of_video_iff in Hl. unfold of_video in Hl. congruence.
  - intros HF. exfalso.
    assert (Hin : In i (map e_id results)) by (rewrite Eids; now left).
    apply in_map_iff in Hin. destruct Hin as (e' & _ & Hin).
    apply filter_In in Hin. destruct Hin as (Hin & Hm).
    rewrite Forall_forall in HF. rewrite (HF e' Hin) in Hm. discriminate.
  - intros Hnd _. apply filter_ext_in. intros e He. f_equal.
    destruct (VectorStore.matches ("video_name", MStr video_name) e) eqn:Hm.
    + apply existsb_exists. exists (e_id e). split; [|apply String.eqb_refl].
      apply in_map. apply filter_In. now split.
    + destruct (existsb _ (map e_id results)) eqn:Ex; [|reflexivity].
      apply existsb_exists in Ex. destruct Ex as (j & Hj & Heq).
      apply String.eqb_eq in Heq. subst j.
      apply in_map_iff in Hj. destruct Hj as (e' & Hid & Hin').
      apply filter_In in Hin'. destruct Hin' as (Hin' & Hm').
      assert (e' = e) by (apply (NoDup_map_eq e_id (VectorStore.entries v)); auto).
      subst e'. congruence.
Qed.

(** X20. [similarity_search].  A missing [k] and [k = 0] both mean the
    configured top-k; an empty video name means no filter; a failure of
    the search is swallowed and gives [None].  When a list is returned it
    has at most [k] elements (the configured top-k when [k] is missing),
    each the document of a stored entry with its distance to the query,
    and with a non-empty video name every one of them belongs to that
    video. *)
Theorem similarity_search_spec (v : VectorStore.vs) (query : string)
    (k : option Z) (video_name : option string) :
  VectorStore.similarity_search config svc v query None video_name
  = VectorStore.similarity_search config svc v query (Some 0) video_name /\
  VectorStore.similarity_search config svc v query k (Some "")
  = VectorStore.similarity_search config svc v query k None /\
  (forall e, vs_fault svc (VsSearch query) = Some e ->
             VectorStore.similarity_search config svc v query k video_name = None) /\
  (forall results,
      VectorStore.similarity_search config svc v query k video_name = Some results ->
      (forall k', k = Some k' -> k' <> 0 ->
                  (List.length results <= Z.to_nat k')%nat) /\
      (k = None -> (List.length results <= Z.to_nat (TOP_K_RESULTS config))%nat) /\
      Forall (fun ds =>
                exists e, In e (VectorStore.entries v) /\
                          e_doc e = fst ds /\
                          snd ds = distance svc query (page_content (fst ds)) /\
                          forall n, video_name = Some n -> n <> "" ->
                                    of_video n e = true)
             results).
Proof.
  split; [reflexivity|]. split; [reflexivity|]. split.
  - intros e He. unfold VectorStore.similarity_search,
      VectorStore.similarity_search_with_score, VectorStore.execute, bind.
    now rewrite He.
  - intros results. unfold VectorStore.similarity_search,
      VectorStore.similarity_search_with_score, bind.
    destruct (VectorStore.execute svc (VsSearch query)); [|discriminate].
    intros [= <-]. split; [|split].
    + intros k' -> Hk. destruct (Z.eqb_spec k' 0); [contradiction|].
      apply firstn_le_length.
    + intros ->. apply firstn_le_length.
    + apply Forall_forall. intros [d s] Hd.
      apply In_firstn, In_sorted_by_score, in_map_iff in Hd.
      destruct Hd as (e & [= <- <-] & Hin). apply filter_In in Hin.
      destruct Hin as (Hin & Hm). exists e. repeat split; try assumption.
      intros n -> Hn. destruct (String.eqb_spec n ""); [contradiction|].
      exact Hm.
Qed.

(** X21. The statistics of the vector store: [total_chunks] counts the
    stored entries, [unique_videos] is the length of [video_names], and
    there are never more videos than entries; when the store cannot be
    read all three are zero or empty. *)
Theorem get_collection_stats_spec (v : VectorStore.vs) :
  let st := VectorStore.get_collection_stats svc v in
  VectorStore.unique_videos st = Z.of_nat (List.length (VectorStore.video_names st)) /\
  VectorStore.unique_videos st <= VectorStore.total_chunks st /\
  (vs_fault svc VsGet = None ->
   VectorStore.total_chunks st = Z.of_nat (List.length (VectorStore.entries v)) /\
   VectorStore.video_names st = VectorStore.get_all_video_names svc v) /\
  (forall e, vs_fault svc VsGet = Some e ->
             st = {| VectorStore.total_chunks := 0;
                     VectorStore.unique_videos := 0;
                     VectorStore.video_names := [] |}).
Proof.
  intros st. subst st.
  unfold VectorStore.get_collection_stats, VectorStore.chroma_get,
    VectorStore.execute, bind.
  destruct (vs_fault svc VsGet) as [e|] eqn:Ef;
    cbn [VectorStore.unique_videos VectorStore.total_chunks VectorStore.video_names].
  - repeat split; try lia; try discriminate.
  - rewrite length_map. repeat split; try discriminate.
    apply inj_le.
    set (label := fun e : Entry =>
                    match md_lookup (doc_metadata (e_doc e)) "video_name" with
                    | Some (MStr s) => s
                    | _ => ""
                    end).
    rewrite <- (length_map label (VectorStore.entries v)).
    apply NoDup_incl_length.
    + apply StronglySorted_str_lt_NoDup, (get_all_video_names_increasing svc v).
    + intros n Hn. apply In_get_all_video_names in Hn.
      destruct Hn as (_ & e & Hin & Hl). apply in_map_iff.
      exists e. split; [|exact Hin]. unfold label. now rewrite Hl.
Qed.

End DeleteAndSearch.

Lemma delete_by_video_name_spec_witness :
  VectorStore.entries
    (fst (VectorStore.delete_by_video_name quiet "lecture.mp4" vs_lecture))
  = [entry_of "id-2" "talk.mp4" 0] /\
  ~ In "lecture.mp4"
      (VectorStore.get_all_video_names quiet
         (fst (VectorStore.delete_by_video_name quiet "lecture.mp4" vs_lecture))) /\
  VectorStore.delete_by_video_name quiet "absent.mp4" vs_lecture = (vs_lecture, Ok false).
Proof.
  destruct (delete_by_video_name_spec quiet "lecture.mp4" vs_lecture)
    as (_ & Hgone & _ & Hexact).
  destruct (delete_by_video_name_spec quiet "absent.mp4" vs_lecture)
    as (_ & _ & Hnone & _).
  split; [|split].
  - rewrite Hexact; [reflexivity | | reflexivity].
    cbn. repeat constructor; cbn; intuition discriminate.
  - apply Hgone. reflexivity.
  - apply Hnone. repeat constructor.
Defined.

Lemma similarity_search_spec_witness :
  exists results,
    VectorStore.similarity_search cfg600 quiet vs_lecture "what is said?" (Some 1)
      (Some "lecture.mp4") = Some results /\
    (List.length results <= 1)%nat /\
    VectorStore.similarity_search cfg600 blind vs_lecture "what is said?" (Some 1)
      (Some "lecture.mp4") = None.
Proof.
  destruct (similarity_search_spec cfg600 quiet vs_lecture "what is said?" (Some 1)
              (Some "lecture.mp4")) as (_ & _ & _ & H).
  destruct (similarity_search_spec cfg600 blind vs_lecture "what is said?" (Some 1)
              (Some "lecture.mp4")) as (_ & _ & Hnone & _).
  eexists. split; [reflexivity|]. split.
  - apply (proj1 (H _ eq_refl) 1 eq_refl). discriminate.
  - apply (Hnone (Exn ServiceError "embedding service unavailable")). reflexivity.
Defined.

Lemma get_collection_stats_spec_witness :
  VectorStore.total_chunks (VectorStore.get_collection_stats quiet vs_lecture) = 3 /\
  VectorStore.video_names (VectorStore.get_collection_stats quiet vs_lecture)
  = ["lecture.mp4"; "talk.mp4"].
Proof.
  destruct (get_collection_stats_spec quiet vs_lecture) as (_ & _ & H & _).
  destruct (H eq_refl) as (H1 & H2). split; [exact H1 | exact H2].
Defined.

(* ------------------------------------------------------------------ *)
(** ** The pipeline: deletion across the two stores *)

(** X22. For a video that the metadata store knows, the pipeline-level
    [delete_video] asks both stores to delete, whatever the first one
    answers, and returns [True] exactly when both answered [True]; it does
    not raise.  Each store keeps what its own deletion did: when one
    succeeds and the other fails nothing is undone. *)
Theorem delete_video_reports_both (svc : Services) (video_name : string)
    (self : VideoProcessor.t) :
  Database.video_exists svc (VideoProcessor.database self) video_name = Ok true ->
  exists db_ok vs_ok,
    snd (Database.delete_video svc video_name (VideoProcessor.database self))
    = Ok db_ok /\
    snd (VectorStore.delete_by_video_name svc video_name
           (VideoProcessor.vector_store self)) = Ok vs_ok /\
    VideoProcessor.delete_video svc video_name self
    = ({| VideoProcessor.database :=
            fst (Database.delete_video svc video_name (VideoProcessor.database self));
          VideoProcessor.vector_store :=
            fst (VectorStore.delete_by_video_name svc video_name
                   (VideoProcessor.vector_store self));
          VideoProcessor.scratch := VideoProcessor.scratch self;
          VideoProcessor.files := VideoProcessor.files self |},
       Ok (db_ok && vs_ok)).
Proof.
  intros Hk.
  destruct (delete_video_known svc video_name self Hk)
    as (d' & db_ok & v' & vs_ok & Hd & Hv & H).
  exists db_ok, vs_ok. rewrite Hd, Hv, H. repeat split.
Qed.

Lemma delete_video_reports_both_witness :
  VideoProcessor.delete_video quiet "lecture.mp4" processed
  = ({| VideoProcessor.database :=
          {| Database.videos := []; Database.chunks := [];
             Database.next_video_id := 2; Database.next_chunk_id := 3 |};
        VideoProcessor.vector_store :=
          {| VectorStore.entries := [entry_of "id-2" "talk.mp4" 0];
             VectorStore.next_uuid := 3 |};
        VideoProcessor.scratch := [];
        VideoProcessor.files := [lecture_mp4] |}, Ok true) /\
  VideoProcessor.delete_video vs_locked "lecture.mp4" processed
  = ({| VideoProcessor.database :=
          {| Database.videos := []; Database.chunks := [];
             Database.next_video_id := 2; Database.next_chunk_id := 3 |};
        VideoProcessor.vector_store := vs_lecture;
        VideoProcessor.scratch := [];
        VideoProcessor.files := [lecture_mp4] |}, Ok false).
Proof.
  split.
  - destruct (delete_video_reports_both quiet "lecture.mp4" processed eq_refl)
      as (db_ok & vs_ok & Hd & Hv & H).
    rewrite H. cbn in Hd, Hv. injection Hd as <-. injection Hv as <-. reflexivity.
  - destruct (delete_video_reports_both vs_locked "lecture.mp4" processed eq_refl)
      as (db_ok & vs_ok & Hd & Hv & H).
    rewrite H. cbn in Hd, Hv. injection Hd as <-. injection Hv as <-. reflexivity.
Defined.

(* ------------------------------------------------------------------ *)
(** ** The pipeline: what a run can and cannot do *)

(** X23. No call of [process_video] reports success or persists anything:
    whatever the video, the services and the state, the outcome is [False]
    and the metadata store, the vector store and the video files are left
    as they were (the run is skipped, stops before transcription, or
    [transcribe_all_chunks] raises on the 3-tuples of [split_audio]). *)
Theorem process_video_never_succeeds (config : Config) (svc : Services)
    (self : VideoProcessor.t) (video_path : Path) :
  snd (VideoProcessor.process_video config svc self video_path) = false /\
  same_stores self (fst (VideoProcessor.process_video config svc self video_path)).
Proof.
  destruct (process_video_never_persists config svc video_path self) as (H1 & H2).
  now split.
Qed.



(* ------------------------------------------------------------------ *)
(** ** The pipeline: the name a finished video is moved to *)

Section RelocationTarget.
Variable config : Config.
Variable video_path : Path.

Lemma next_free_candidate (fs : list Path) :
  forall fuel k,
    exists m,
      (m <= fuel)%nat /\
      VideoProcessor.next_free config fuel fs video_path (Z.of_nat k + 1)
        (candidate config video_path k)
      = candidate config video_path (k + m) /\
      forall j, (k <= j < k + m)%nat ->
                VideoProcessor.path_exists fs (candidate config video_path j) = true.
Proof.
  induction fuel as [|fuel IH]; intros k.
  - exists 0%nat. rewrite Nat.add_0_r. split; [lia|]. split; [reflexivity|].
    intros j Hj. lia.
  - cbn [VideoProcessor.next_free].
    destruct (VideoProcessor.path_exists fs (candidate config video_path k)) eqn:E.
    + replace (Z.of_nat k + 1) with (Z.of_nat (S k)) by lia.
      change (joinpath (VIDEOS_FINISHED_PATH config)
                (stem video_path ++ "_" ++ str_int (Z.of_nat (S k)))
                (suffix video_path))
        with (candidate config video_path (S k)).
      destruct (IH (S k)) as (m & Hm & Hr & Hall).
      exists (S m). split; [lia|]. split.
      * rewrite Hr. f_equal. lia.
      * intros j Hj. destruct (Nat.eq_dec j k) as [->|Hne]; [exact E|].
        apply Hall. lia.
    + exists 0%nat. rewrite Nat.add_0_r. split; [lia|]. split; [reflexivity|].
      intros j Hj. lia.
Qed.

(** X25. The loop that picks the name under which a processed video is
    filed in the finished directory always ends on a name that is free:
    the video's own name when no file of that name is there, otherwise
    the first of [stem_1suffix], [stem_2suffix], ... that does not exist;
    every name before it in that sequence exists. *)
Theorem relocation_target_is_first_free (fs : list Path) :
  exists k,
    VideoProcessor.next_free config (S (List.length fs)) fs video_path 1
      (joinpath (VIDEOS_FINISHED_PATH config) (stem video_path) (suffix video_path))
    = candidate config video_path k /\
    VideoProcessor.path_exists fs (candidate config video_path k) = false /\
    forall j, (j < k)%nat ->
              VideoProcessor.path_exists fs (candidate config video_path j) = true.
Proof.
  destruct (next_free_candidate fs (S (List.length fs)) 0) as (m & _ & Hr & Hall).
  assert (Hr' : VideoProcessor.next_free config (S (List.length fs)) fs video_path 1
                  (joinpath (VIDEOS_FINISHED_PATH config) (stem video_path)
                     (suffix video_path))
                = candidate config video_path m) by exact Hr.
  exists m. split; [exact Hr'|]. split.
  - rewrite <- Hr'. apply next_free_is_free.
  - intros j Hj. apply Hall. lia.
Qed.

End RelocationTarget.

(* ------------------------------------------------------------------ *)
(** ** The pipeline: a whole folder *)

Lemma same_stores_trans (a b c : VideoProcessor.t) :
  same_stores a b -> same_stores b c -> same_stores a c.
Proof.
  intros (H1 & H2 & H3) (K1 & K2 & K3). repeat split; congruence.
Qed.

Section Folder.
Variable config : Config.
Variable svc : Services.

Lemma folder_loop_spec :
  forall videos_paths stats self,
    same_stores self
      (fst (VideoProcessor.folder_loop config svc videos_paths stats self)) /\
    forall stats',
      snd (VideoProcessor.folder_loop config svc videos_paths stats self) = Ok stats' ->
      VideoProcessor.total stats' = VideoProcessor.total stats /\
      VideoProcessor.sucess stats' = VideoProcessor.sucess stats /\
      VideoProcessor.processed_videos stats' = VideoProcessor.processed_videos stats /\
      VideoProcessor.failed stats' + VideoProcessor.skipped stats'
      = VideoProcessor.failed stats + VideoProcessor.skipped stats
        + Z.of_nat (List.length videos_paths) /\
      (tallied stats -> tallied stats').
Proof.
  induction videos_paths as [|video_path rest IH]; intros stats self.
  - cbn. split; [apply same_stores_refl|]. intros stats' [= <-].
    split; [reflexivity|]. split; [reflexivity|]. split; [reflexivity|].
    split; [lia | auto].
  - cbn [VideoProcessor.folder_loop]. unfold mbind, reads, gets.
    destruct (Database.video_exists svc _ _) as [known|e];
      [|cbn; split; [apply same_stores_refl | discriminate]].
    destruct (known && _).
    + destruct (IH {| VideoProcessor.total := VideoProcessor.total stats;
                      VideoProcessor.sucess := VideoProcessor.sucess stats;
                      VideoProcessor.failed := VideoProcessor.failed stats;
                      VideoProcessor.skipped := VideoProcessor.skipped stats + 1;
                      VideoProcessor.processed_videos :=
                        VideoProcessor.processed_videos stats;
                      VideoProcessor.failed_videos :=
                        VideoProcessor.failed_videos stats |} self) as (Hs & Hst).
      split; [exact Hs|]. intros stats' H.
      destruct (Hst stats' H) as (H1 & H2 & H3 & H4 & H5).
      cbn in H1, H2, H3, H4.
      split; [exact H1|]. split; [exact H2|]. split; [exact H3|].
      split; [cbn [List.length]; lia|].
      intros (T1 & T2 & T3). apply H5. repeat split; cbn; try assumption. lia.
    + destruct (process_video_never_persists config svc video_path self)
        as (Hsame & Hfalse).
      destruct (VideoProcessor.process_video config svc self video_path)
        as [self1 done]. cbn [fst snd] in Hsame, Hfalse. subst done.
      destruct (IH {| VideoProcessor.total := VideoProcessor.total stats;
                      VideoProcessor.sucess := VideoProcessor.sucess stats;
                      VideoProcessor.failed := VideoProcessor.failed stats + 1;
                      VideoProcessor.skipped := VideoProcessor.skipped stats;
                      VideoProcessor.processed_videos :=
                        VideoProcessor.processed_videos stats;
                      VideoProcessor.failed_videos :=
                        (VideoProcessor.failed_videos stats
                         ++ [name video_path])%list |} self1) as (Hs & Hst).
      split; [exact (same_stores_trans _ _ _ Hsame Hs)|]. intros stats' H.
      destruct (Hst stats' H) as (H1 & H2 & H3 & H4 & H5).
      cbn in H1, H2, H3, H4.
      split; [exact H1|]. split; [exact H2|]. split; [exact H3|].
      split; [cbn [List.length]; lia|].
      intros (T1 & T2 & T3). apply H5. repeat split; cbn; try assumption.
      rewrite length_app. cbn. lia.
Qed.

Variable VIDEOS_INPUT_PATH : Path.

(** X26. The summary of [process_folder] adds up: [total] is the number
    of files found for the supported extensions, it is the sum of
    [sucess], [failed] and [skipped], and [sucess] and [failed] are the
    lengths of the two lists of names.  When no video file is found the
    summary is all zeros and the state is untouched. *)
Theorem process_folder_tallies (folder_path : option Path)
    (self self' : VideoProcessor.t) (st : VideoProcessor.FolderStats) :
  VideoProcessor.process_folder config svc VIDEOS_INPUT_PATH folder_path self
  = (self', Ok st) ->
  let folder := match folder_path with Some p => p | None => VIDEOS_INPUT_PATH end in
  let found := flat_map (VideoProcessor.glob (VideoProcessor.files self) folder)
                 VideoProcessor.SUPPORTED_VIDEO_FORMATS in
  VideoProcessor.total st = Z.of_nat (List.length found) /\
  VideoProcessor.total st
  = VideoProcessor.sucess st + VideoProcessor.failed st + VideoProcessor.skipped st /\
  tallied st /\
  (found = [] -> self' = self).
Proof.
  intros H folder found.
  unfold VideoProcessor.process_folder, mbind, gets in H. fold folder found in H.
  destruct found as [|p ps] eqn:Ef.
  - cbn in H. injection H as <- <-. cbn.
    repeat split; reflexivity || lia.
  - rewrite <- Ef in *.
    assert (Hloop : VideoProcessor.folder_loop config svc found
                      {| VideoProcessor.total := Z.of_nat (List.length found);
                         VideoProcessor.sucess := 0;
                         VideoProcessor.failed := 0;
                         VideoProcessor.skipped := 0;
                         VideoProcessor.processed_videos := [];
                         VideoProcessor.failed_videos := [] |} self
                    = (self', Ok st)).
    { rewrite <- H. rewrite Ef. reflexivity. }
    destruct (folder_loop_spec found
                {| VideoProcessor.total := Z.of_nat (List.length found);
                   VideoProcessor.sucess := 0;
                   VideoProcessor.failed := 0;
                   VideoProcessor.skipped := 0;
                   VideoProcessor.processed_videos := [];
                   VideoProcessor.failed_videos := [] |} self) as (_ & Hst).
    rewrite Hloop in Hst. destruct (Hst st eq_refl) as (H1 & H2 & H3 & H4 & H5).
    cbn in H1, H2, H3, H4.
    split; [exact H1|]. split; [lia|]. split.
    + apply H5. repeat split; cbn; lia.
    + rewrite Ef. discriminate.
Qed.

(** X27. [process_folder] never reports a processed video and never
    persists anything: the metadata store, the vector store and the video
    files are as before whether it returns or raises, and when it returns
    [sucess] is 0, [processed_videos] is empty and every file found is
    counted as failed or skipped. *)
Theorem process_folder_never_succeeds (folder_path : option Path)
    (self : VideoProcessor.t) :
  let r := VideoProcessor.process_folder config svc VIDEOS_INPUT_PATH folder_path self in
  same_stores self (fst r) /\
  forall st,
    snd r = Ok st ->
    VideoProcessor.sucess st = 0 /\
    VideoProcessor.processed_videos st = [] /\
    VideoProcessor.failed st + VideoProcessor.skipped st = VideoProcessor.total st.
Proof.
  intros r. subst r.
  unfold VideoProcessor.process_folder, mbind, gets.
  set (found := flat_map _ VideoProcessor.SUPPORTED_VIDEO_FORMATS).
  destruct found as [|p ps] eqn:Ef.
  - cbn. split; [apply same_stores_refl|]. intros st [= <-]. cbn. repeat split.
  - rewrite <- Ef.
    destruct (folder_loop_spec found
                {| VideoProcessor.total := Z.of_nat (List.length found);
                   VideoProcessor.sucess := 0;
                   VideoProcessor.failed := 0;
                   VideoProcessor.skipped := 0;
                   VideoProcessor.processed_videos := [];
                   VideoProcessor.failed_videos := [] |} self) as (Hs & Hst).
    split; [exact Hs|]. intros st H.
    destruct (Hst st H) as (H1 & H2 & H3 & H4 & _).
    cbn in H1, H2, H3, H4. repeat split; try assumption. lia.
Qed.

End Folder.

Lemma process_folder_tallies_witness :
  exists self' st,
    VideoProcessor.process_folder cfg600 quiet input_folder None inbox = (self', Ok st) /\
    VideoProcessor.total st = 2 /\
    VideoProcessor.skipped st = 1 /\
    VideoProcessor.failed_videos st = ["talk.mp4"] /\
    VideoProcessor.total st
    = VideoProcessor.sucess st + VideoProcessor.failed st + VideoProcessor.skipped st.
Proof.
  eexists _, _. split; [reflexivity|].
  split; [reflexivity|]. split; [reflexivity|]. split; [reflexivity|].
  apply (process_folder_tallies cfg600 quiet input_folder None inbox _ _ eq_refl).
Defined.

Lemma process_folder_never_succeeds_witness :
  exists st,
    snd (VideoProcessor.process_folder cfg600 quiet input_folder None inbox) = Ok st /\
    VideoProcessor.total st = 2 /\
    VideoProcessor.sucess st = 0 /\
    VideoProcessor.processed_videos st = [] /\
    VideoProcessor.failed st + VideoProcessor.skipped st = VideoProcessor.total st.
Proof.
  eexists. split; [reflexivity|]. split; [reflexivity|].
  apply (proj2 (process_folder_never_succeeds cfg600 quiet input_folder None inbox)).
  reflexivity.
Defined.

(* ------------------------------------------------------------------ *)
(** ** The chat engine: history, bounds and previews *)

Lemma exchanges_snoc (pairs : list (string * string)) (q a : string) :
  exchanges (pairs ++ [(q, a)])
  = (exchanges pairs ++ [HumanMessage q; AIMessage a])%list.
Proof. unfold exchanges. now rewrite flat_map_app. Qed.



Section ChatTurns.
Variable config : Config.
Variable svc : Services.

Lemma retriever_invoke_bound (v : VectorStore.vs) (r : VectorStore.Retriever)
    (query : string) (docs : list Document) :
  VectorStore.retriever_invoke svc v r query = Ok docs ->
  (List.length docs <= Z.to_nat (VectorStore.r_k r))%nat.
Proof.
  unfold VectorStore.retriever_invoke, VectorStore.similarity_search_with_score, bind.
  destruct (VectorStore.execute svc _); [|discriminate].
  intros [= <-]. rewrite length_map. apply firstn_le_length.
Qed.

(** What any turn does, whichever retriever and system message it uses. *)
Lemma turn_spec (retriever : VectorStore.Retriever) (system : string -> string)
    (question : string) (self : RAGChat.t) :
  let r := RAGChat.or_apology (RAGChat.ask_try svc retriever system question) self in
  RAGChat.vector_store (fst r) = RAGChat.vector_store self /\
  (List.length (RAGChat.sources (snd r)) <= Z.to_nat (VectorStore.r_k retriever))%nat /\
  (fst r = self \/
   RAGChat.chat_history (fst r)
   = (RAGChat.chat_history self
      ++ [HumanMessage question; AIMessage (RAGChat.answer (snd r))])%list).
Proof.
  intros r. subst r. unfold RAGChat.or_apology.
  destruct (ask_try_cases svc retriever system question self)
    as [(e & _ & ->)|(docs & a & Hd & _ & ->)]; cbn [fst snd RAGChat.sources].
  - repeat split; [cbn; lia | now left].
  - split; [reflexivity|]. split.
    + rewrite length_map. now apply (retriever_invoke_bound _ _ _ _ Hd).
    + right. reflexivity.
Qed.

(** X28. A chat turn, filtered or not, never writes to the vector store,
    cites at most the configured top-k sources, and either leaves the
    engine as it was or appends exactly the question followed by the
    answer it returns to the history. *)
Theorem turn_bounds (self : RAGChat.t) (question video_name : string) :
  let all := RAGChat.ask config svc self question in
  let one := RAGChat.ask_with_video_filter config svc self question video_name in
  (RAGChat.vector_store (fst all) = RAGChat.vector_store self /\
   (List.length (RAGChat.sources (snd all)) <= Z.to_nat (TOP_K_RESULTS config))%nat /\
   (fst all = self \/
    RAGChat.chat_history (fst all)
    = (RAGChat.chat_history self
       ++ [HumanMessage question; AIMessage (RAGChat.answer (snd all))])%list)) /\
  (RAGChat.vector_store (fst one) = RAGChat.vector_store self /\
   (List.length (RAGChat.sources (snd one)) <= Z.to_nat (TOP_K_RESULTS config))%nat /\
   (fst one = self \/
    RAGChat.chat_history (fst one)
    = (RAGChat.chat_history self
       ++ [HumanMessage question; AIMessage (RAGChat.answer (snd one))])%list)).
Proof.
  split.
  - apply (turn_spec (VectorStore.get_retriever config) RAGChat.system_all).
  - apply (turn_spec (filtered_retriever config video_name)
             (RAGChat.system_one video_name)).
Qed.

(** X29. The history stays a sequence of complete exchanges: if it is one
    (as it is when the engine is created), it still is after [ask], after
    [ask_with_video_filter] and after [clear_memory], and
    [get_chat_history] reports it as alternating ["human"] and ["ai"]
    items with the same contents, in the same order. *)
Theorem history_stays_paired (self : RAGChat.t) (question video_name : string) :
  well_paired (RAGChat.chat_history self) ->
  well_paired (RAGChat.chat_history (fst (RAGChat.ask config svc self question))) /\
  well_paired
    (RAGChat.chat_history
       (fst (RAGChat.ask_with_video_filter config svc self question video_name))) /\
  RAGChat.chat_history (RAGChat.clear_memory self) = [] /\
  exists pairs,
    RAGChat.chat_history self = exchanges pairs /\
    RAGChat.get_chat_history self = reported pairs.
Proof.
  intros (pairs & Hp).
  assert (G : forall retriever system,
             well_paired
               (RAGChat.chat_history
                  (fst (RAGChat.or_apology
                          (RAGChat.ask_try svc retriever system question) self)))).
  { intros retriever system.
    destruct (turn_spec retriever system question self) as (_ & _ & [ -> | -> ]).
    - now exists pairs.
    - exists (pairs ++ [(question, RAGChat.answer
                          (snd (RAGChat.or_apology
                                  (RAGChat.ask_try svc retriever system question)
                                  self)))])%list.
      now rewrite exchanges_snoc, Hp. }
  split; [apply G|]. split; [apply G|]. split; [reflexivity|].
  exists pairs. split; [exact Hp|].
  unfold RAGChat.get_chat_history. rewrite Hp. clear.
  induction pairs as [|[q a] pairs IH]; [reflexivity|].
  cbn [exchanges reported flat_map Datatypes.app map fst snd].
  do 2 f_equal. exact IH.
Qed.


End ChatTurns.

Lemma well_paired_session : well_paired (RAGChat.chat_history session).
Proof. now exists [("hello", "hi")]. Qed.

Lemma history_stays_paired_witness :
  well_paired
    (RAGChat.chat_history (fst (RAGChat.ask cfg600 quiet session "what is said?"))) /\
  well_paired
    (RAGChat.chat_history
       (fst (RAGChat.ask_with_video_filter cfg600 mute session "what is said?"
               "lecture.mp4"))).
Proof.
  destruct (history_stays_paired cfg600 quiet session "what is said?" "lecture.mp4"
              well_paired_session) as (H1 & _).
  destruct (history_stays_paired cfg600 mute session "what is said?" "lecture.mp4"
              well_paired_session) as (_ & H2 & _).
  split; assumption.
Defined.

